(** * calibrate_hcp: lateral calibration of SPM images against an HCP lattice

    A shallow embedding of the numeric core of [calibrate_hcp.c] (a Gwyddion
    process module) and the properties its specification states about it.

    Data is kept as the C code has it:
    - [gdouble] is the kernel's binary64 [float] (IEEE 754, round to nearest
      even, a single NaN), so [x != x], [1/0] and [inf - inf] behave as in C;
    - [gint] is [Z]; the pixel arithmetic of the module stays far inside 32
      bits, a conversion from [gdouble] that leaves the [gint] range is
      undefined in C and is [None] here;
    - the dialog state ([ThresholdControls], [ThresholdArgs]) is an explicit
      record threaded through the callbacks;
    - GTK widgets, SI units, value formats and the data browser are left out. *)

From Stdlib Require Import ZArith List Bool Lia Floats.
From Stdlib Require String.
Import ListNotations.

(** ** Doubles and integers *)

Module Dbl.

(** [(gdouble) n] for an integer [n]: exact whenever [|n| <= 2^53]. *)
Definition of_Z (n : Z) : float :=
  SF2Prim (binary_normalize prec emax n 0 false).

Definition INT_MIN : Z := - 2 ^ 31.
Definition INT_MAX : Z := 2 ^ 31 - 1.

Definition in_gint (z : Z) : bool := (INT_MIN <=? z)%Z && (z <=? INT_MAX)%Z.

(** The integral part of a double, towards zero. *)
Definition SFtrunc (x : spec_float) : option Z :=
  match x with
  | S754_zero _ => Some 0%Z
  | S754_finite s m e => Some (cond_Zopp s (Z.shiftl (Zpos m) e))
  | S754_infinity _ | S754_nan => None
  end.

(** The largest integer not above a double: C's [floor], read as an integer. *)
Definition SFfloor (x : spec_float) : option Z :=
  match x with
  | S754_zero _ => Some 0%Z
  | S754_finite s m e => Some (Z.shiftl (cond_Zopp s (Zpos m)) e)
  | S754_infinity _ | S754_nan => None
  end.

Definition to_gint_of (r : option Z) : option Z :=
  match r with
  | Some z => if in_gint z then Some z else None
  | None => None
  end.

(** [(gint) x]: truncation; undefined ([None]) for NaN, the infinities and
    values whose integral part is no [gint]. *)
Definition to_gint (x : float) : option Z := to_gint_of (SFtrunc (Prim2SF x)).

(** [a > b], [a >= b], [a != b] of C, through the primitive comparisons. *)
Definition gt (a b : float) : bool := (b <? a)%float.
Definition ge (a b : float) : bool := (b <=? a)%float.
Definition ne (a b : float) : bool := negb (a =? b)%float.

(** A double that is neither NaN nor infinite. *)
Definition finite (x : float) : bool :=
  match Prim2SF x with
  | S754_zero _ | S754_finite _ _ _ => true
  | S754_infinity _ | S754_nan => false
  end.

End Dbl.

(** Modelled from the spec: the macro [GWY_ROUND] of gwymath.h is not among
    the sources; it is [((gint)floor((x) + 0.5))], rounding to the nearest
    integer. *)
Definition GWY_ROUND (x : float) : option Z :=
  Dbl.to_gint_of (Dbl.SFfloor (Prim2SF (x + 0.5)%float)).

(** [MIN] and [MAX] of glib. *)
Definition MIN (a b : float) : float := if (a <? b)%float then a else b.
Definition MAX (a b : float) : float := if Dbl.gt a b then a else b.

Notation "x <- c ;; k" := (match c with Some x => k | None => None end)
  (at level 61, c at next level, right associativity).

(** ** The image buffer (GwyDataField) *)

(** Modelled from the spec: the image buffer abstraction (Gwyddion's
    GwyDataField) is not among the sources.  A field is a raster of samples,
    stored row by row, with its resolution, physical extents and offsets. *)
Record GwyDataField : Type := mkField {
  xres : Z;
  yres : Z;
  xreal : float;
  yreal : float;
  xoff : float;
  yoff : float;
  data : list float
}.

Definition set_data (d : GwyDataField) (l : list float) : GwyDataField :=
  mkField (xres d) (yres d) (xreal d) (yreal d) (xoff d) (yoff d) l.

Definition gwy_data_field_set_xreal (d : GwyDataField) (v : float) :=
  mkField (xres d) (yres d) v (yreal d) (xoff d) (yoff d) (data d).
Definition gwy_data_field_set_yreal (d : GwyDataField) (v : float) :=
  mkField (xres d) (yres d) (xreal d) v (xoff d) (yoff d) (data d).
Definition gwy_data_field_set_xoffset (d : GwyDataField) (v : float) :=
  mkField (xres d) (yres d) (xreal d) (yreal d) v (yoff d) (data d).
Definition gwy_data_field_set_yoffset (d : GwyDataField) (v : float) :=
  mkField (xres d) (yres d) (xreal d) (yreal d) (xoff d) v (data d).

(** Modelled from the spec: pixel to physical coordinate and back, the linear
    maps between [0, resolution] and [0, extent] of the image buffer. *)
Definition gwy_data_field_jtor (d : GwyDataField) (col : float) : float :=
  (col * xreal d / Dbl.of_Z (xres d))%float.
Definition gwy_data_field_itor (d : GwyDataField) (row : float) : float :=
  (row * yreal d / Dbl.of_Z (yres d))%float.
Definition gwy_data_field_rtoj (d : GwyDataField) (realx : float) : float :=
  (realx * Dbl.of_Z (xres d) / xreal d)%float.
Definition gwy_data_field_rtoi (d : GwyDataField) (realy : float) : float :=
  (realy * Dbl.of_Z (yres d) / yreal d)%float.

Definition gwy_data_field_get_xmeasure (d : GwyDataField) : float :=
  (xreal d / Dbl.of_Z (xres d))%float.
Definition gwy_data_field_get_ymeasure (d : GwyDataField) : float :=
  (yreal d / Dbl.of_Z (yres d))%float.

Definition gwy_data_field_inside (d : GwyDataField) (col row : Z) : bool :=
  (0 <=? col)%Z && (col <? xres d)%Z && (0 <=? row)%Z && (row <? yres d)%Z.

(** Modelled from the spec: the sample at column [col] of row [row]; outside
    the raster the accessor fails its check and yields 0.0. *)
Definition gwy_data_field_get_val (d : GwyDataField) (col row : Z) : float :=
  if gwy_data_field_inside d col row
  then nth (Z.to_nat (col + xres d * row)) (data d) 0%float
  else 0%float.

(** Modelled from the spec: the global minimum and maximum, found by one pass
    over the samples starting from the first. *)
Definition min_step (m x : float) : float := if Dbl.gt m x then x else m.
Definition max_step (m x : float) : float := if (m <? x)%float then x else m.

Definition gwy_data_field_get_min_max (d : GwyDataField) : float * float :=
  match data d with
  | [] => (0%float, 0%float)
  | x :: _ => (fold_left min_step (data d) x, fold_left max_step (data d) x)
  end.

(** Modelled from the spec: add a constant to every sample. *)
Definition gwy_data_field_add (d : GwyDataField) (v : float) : GwyDataField :=
  set_data d (map (fun x => (x + v)%float) (data d)).

(** Modelled from the spec: limit every sample to [[bottom, top]]. *)
Definition clamp_sample (bottom top x : float) : float :=
  if (x <? bottom)%float then bottom else if Dbl.gt x top then top else x.
Definition gwy_data_field_clamp (d : GwyDataField) (bottom top : float) :=
  set_data d (map (clamp_sample bottom top) (data d)).

(** The numeric primitives the module takes from libm and libprocess: their
    bodies are outside the sources, the module's code is generic in them. *)
Class GwyLib : Type := {
  (** libm's [hypot] *)
  hypot : float -> float -> float;
  (** the Hann-windowed forward 2D FFT of a field: real and imaginary rasters *)
  gwy_data_field_2dfft : GwyDataField -> list float * list float;
  (** re-centring of the zero frequency, on a raster of the given resolution *)
  gwy_data_field_2dfft_humanize : Z -> Z -> list float -> list float;
  (** the samples of a field resampled (bilinear) to a new resolution *)
  resampled_data : GwyDataField -> Z -> Z -> list float;
  (** the samples of a rectangular part: column, row, width, height *)
  area_data : GwyDataField -> Z -> Z -> Z -> Z -> list float
}.

Section Library.
Context {lib : GwyLib}.

(** Modelled from the spec: a new field with the requested resolution and
    the extents and offsets of the original, its samples interpolated.  A
    field of the same resolution is a plain copy; otherwise a resolution
    that is not positive is refused (no field). *)
Definition gwy_data_field_new_resampled (d : GwyDataField) (newxres newyres : Z)
  : option GwyDataField :=
  if (xres d =? newxres)%Z && (yres d =? newyres)%Z then Some d
  else if (0 <? newxres)%Z && (0 <? newyres)%Z
       then Some (mkField newxres newyres (xreal d) (yreal d) (xoff d) (yoff d)
                          (resampled_data d newxres newyres))
       else None.

(** Modelled from the spec: the centred part shown at a zoom above 1,
    cut out and brought back to the full resolution. *)
Definition gwy_data_field_area_extract (d : GwyDataField) (col row width height : Z)
  : GwyDataField :=
  mkField width height
          (Dbl.of_Z width * gwy_data_field_get_xmeasure d)%float
          (Dbl.of_Z height * gwy_data_field_get_ymeasure d)%float
          0%float 0%float (area_data d col row width height).

End Library.

(** ** The dialog session *)

Inductive ZoomMode : Type := ZOOM_1 | ZOOM_2.

Definition zoom_value (z : ZoomMode) : Z :=
  match z with ZOOM_1 => 1 | ZOOM_2 => 2 end.

Record ThresholdArgs : Type := mkArgs {
  lower : float;
  upper : float;
  lattice : float;
  Xscale : float;
  Yscale : float;
  Xwarning : bool;
  Ywarning : bool;
  zoom_mode : ZoomMode
}.

(** [threshold_defaults]: 0.000000001 is the double 0x1.12e0be826d695p-30. *)
Definition threshold_defaults : ThresholdArgs :=
  mkArgs 0 0 0x1.12e0be826d695p-30 1 1 false false ZOOM_1.

(** The fields [min] and [max] of [ThresholdRanges]. *)
Record ThresholdRanges : Type := mkRanges {
  range_min : float;
  range_max : float
}.

(** A selected point, and a row of [p]: x, y and the sample value. *)
Definition Point : Type := (float * float)%type.
Definition Peak : Type := (float * float * float)%type.

Definition peak_x (q : Peak) : float := fst (fst q).
Definition peak_y (q : Peak) : float := snd (fst q).
Definition peak_z (q : Peak) : float := snd q.

(** [ThresholdControls], without its widgets.  [selection] is the point
    selection of the view (at most [max_objects] points, in order), [p0] and
    [p1] are the rows of [p[2][3]], [rpx] is [tool->rpx], [magnitude] is
    [original_XY_Format->magnitude], [view] is the field shown ("/0/data"). *)
Record ThresholdControls : Type := mkControls {
  args : ThresholdArgs;
  ranges : ThresholdRanges;
  ofield : GwyDataField;
  offt : GwyDataField;
  disp_data : GwyDataField;
  dfield : GwyDataField;
  view : GwyDataField;
  selection : list Point;
  p0 : Peak;
  p1 : Peak;
  rpx : Z;
  magnitude : float
}.

Definition set_args (c : ThresholdControls) (a : ThresholdArgs) :=
  mkControls a (ranges c) (ofield c) (offt c) (disp_data c) (dfield c) (view c)
             (selection c) (p0 c) (p1 c) (rpx c) (magnitude c).
Definition set_disp_data (c : ThresholdControls) (d : GwyDataField) :=
  mkControls (args c) (ranges c) (ofield c) (offt c) d (dfield c) (view c)
             (selection c) (p0 c) (p1 c) (rpx c) (magnitude c).
Definition set_view (c : ThresholdControls) (d : GwyDataField) :=
  mkControls (args c) (ranges c) (ofield c) (offt c) (disp_data c) (dfield c) d
             (selection c) (p0 c) (p1 c) (rpx c) (magnitude c).
Definition set_selection (c : ThresholdControls) (s : list Point) :=
  mkControls (args c) (ranges c) (ofield c) (offt c) (disp_data c) (dfield c) (view c)
             s (p0 c) (p1 c) (rpx c) (magnitude c).

(** [controls->p[idx]]; the callers index it by the rows of a selection of
    at most two points, so only rows 0 and 1 are ever touched. *)
Definition get_p (c : ThresholdControls) (idx : nat) : Peak :=
  match idx with O => p0 c | _ => p1 c end.
Definition set_p (c : ThresholdControls) (idx : nat) (q : Peak) :=
  match idx with
  | O => mkControls (args c) (ranges c) (ofield c) (offt c) (disp_data c) (dfield c)
                    (view c) (selection c) q (p1 c) (rpx c) (magnitude c)
  | _ => mkControls (args c) (ranges c) (ofield c) (offt c) (disp_data c) (dfield c)
                    (view c) (selection c) (p0 c) q (rpx c) (magnitude c)
  end.

Definition set_lower (a : ThresholdArgs) (v : float) :=
  mkArgs v (upper a) (lattice a) (Xscale a) (Yscale a) (Xwarning a) (Ywarning a) (zoom_mode a).
Definition set_upper (a : ThresholdArgs) (v : float) :=
  mkArgs (lower a) v (lattice a) (Xscale a) (Yscale a) (Xwarning a) (Ywarning a) (zoom_mode a).
Definition set_lattice (a : ThresholdArgs) (v : float) :=
  mkArgs (lower a) (upper a) v (Xscale a) (Yscale a) (Xwarning a) (Ywarning a) (zoom_mode a).
Definition set_Xscale (a : ThresholdArgs) (v : float) :=
  mkArgs (lower a) (upper a) (lattice a) v (Yscale a) (Xwarning a) (Ywarning a) (zoom_mode a).
Definition set_Yscale (a : ThresholdArgs) (v : float) :=
  mkArgs (lower a) (upper a) (lattice a) (Xscale a) v (Xwarning a) (Ywarning a) (zoom_mode a).
Definition set_Xwarning (a : ThresholdArgs) (b : bool) :=
  mkArgs (lower a) (upper a) (lattice a) (Xscale a) (Yscale a) b (Ywarning a) (zoom_mode a).
Definition set_Ywarning (a : ThresholdArgs) (b : bool) :=
  mkArgs (lower a) (upper a) (lattice a) (Xscale a) (Yscale a) (Xwarning a) b (zoom_mode a).
Definition set_zoom_mode (a : ThresholdArgs) (z : ZoomMode) :=
  mkArgs (lower a) (upper a) (lattice a) (Xscale a) (Yscale a) (Xwarning a) (Ywarning a) z.

(** Modelled from the spec: the point selection of the host, limited to two
    points by [gwy_selection_set_max_objects (selection, 2)]. *)
Definition max_objects : nat := 2.

Definition gwy_selection_get_object (s : list Point) (i : nat) : option Point :=
  nth_error s i.

Fixpoint replace_nth (s : list Point) (i : nat) (pt : Point) : list Point :=
  match s, i with
  | [], _ => []
  | _ :: s', O => pt :: s'
  | q :: s', S i' => q :: replace_nth s' i' pt
  end.

Definition gwy_selection_set_object (s : list Point) (i : nat) (pt : Point) : list Point :=
  if (i <? length s)%nat then replace_nth s i pt
  else if (length s <? max_objects)%nat then s ++ [pt] else s.

Definition gwy_selection_is_full (s : list Point) : bool :=
  (length s =? max_objects)%nat.

Definition gwy_selection_clear (s : list Point) : list Point := [].

(** ** The callbacks and the numeric routines of calibrate_hcp.c *)

(** The integers [lo], [lo+1], ..., [hi-1] of a [for] loop. *)
Definition Zrange (lo hi : Z) : list Z :=
  map (fun k => (lo + Z.of_nat k)%Z) (seq 0 (Z.to_nat (hi - lo))).

(** [threshold_do] *)
Definition threshold_do (a : ThresholdArgs) (d : GwyDataField) : GwyDataField :=
  let lower' := MIN (lower a) (upper a) in
  let upper' := MAX (lower a) (upper a) in
  gwy_data_field_clamp d lower' upper'.

(** The running maximum of [peak_find]: [temp_i], [temp_j] and [temp_z].
    The two coordinates are doubles in C that only ever hold a [gint]. *)
Record Best : Type := mkBest { temp_i : Z; temp_j : Z; temp_z : float }.

(** The body of the inner loop of [peak_find], at column [i] and row [j]. *)
Definition scan_cell (d : GwyDataField) (i : Z) (b : Best) (j : Z) : Best :=
  if Dbl.gt (gwy_data_field_get_val d i j) (temp_z b)
  then mkBest i j (gwy_data_field_get_val d i j)
  else b.

(** The inner loop [for (j = low_j; j < high_j; j++)]. *)
Definition scan_column (d : GwyDataField) (low_j high_j : Z) (b : Best) (i : Z) : Best :=
  fold_left (scan_cell d i) (Zrange low_j high_j) b.

(** The search of [peak_find] around the pixel [(col, row)] with radius [r].
    The four sums [col - r], [col + r], [row - r] and [row + r] are taken
    in [Z]: they are the [gint] sums of the code whenever those stay inside
    the [gint] range (a signed sum that leaves it is undefined in C), as
    they do for the radii 0 to 10 of the spin button on any raster that
    fits in memory; the radius read from the settings is not checked. *)
Definition peak_scan (d : GwyDataField) (col row r : Z) : Best :=
  let Xres := xres d in
  let Yres := yres d in
  let low_i := (col - r)%Z in
  let high_i := (col + r)%Z in
  let low_i := if (low_i <? 0)%Z then 0%Z else low_i in
  let high_i := if (high_i >? Xres)%Z then Xres else high_i in
  let low_j := (row - r)%Z in
  let high_j := (row + r)%Z in
  let low_j := if (low_j <? 0)%Z then 0%Z else low_j in
  let high_j := if (high_j >? Yres)%Z then Yres else high_j in
  fold_left (scan_column d low_j high_j) (Zrange low_i high_i)
            (mkBest col row (gwy_data_field_get_val d col row)).

(** [peak_find] *)
Definition peak_find (controls : ThresholdControls) (point : Point) (idx : nat)
  : option ThresholdControls :=
  let dfield := disp_data controls in
  col <- Dbl.to_gint (gwy_data_field_rtoj dfield (fst point)) ;;
  row <- Dbl.to_gint (gwy_data_field_rtoi dfield (snd point)) ;;
  let b := peak_scan dfield col row (rpx controls) in
  let controls :=
    set_p controls idx
          ((gwy_data_field_jtor dfield (Dbl.of_Z (temp_i b)) + xoff dfield)%float,
           (gwy_data_field_itor dfield (Dbl.of_Z (temp_j b)) + yoff dfield)%float,
           temp_z b) in
  if negb (row - temp_j b =? 0)%Z || negb (col - temp_i b =? 0)%Z
  then
    let point := (gwy_data_field_jtor dfield (Dbl.of_Z (temp_i b)),
                  gwy_data_field_itor dfield (Dbl.of_Z (temp_j b))) in
    Some (set_selection controls
                        (gwy_selection_set_object (selection controls) idx point))
  else Some controls.

(** [calibration_get_factors]; [check_warnings] only repaints the labels. *)
Definition calibration_get_factors (controls : ThresholdControls) : ThresholdControls :=
  let x1 := peak_x (p0 controls) in
  let y1 := peak_y (p0 controls) in
  let x2 := peak_x (p1 controls) in
  let y2 := peak_y (p1 controls) in
  let R := (2 / (sqrt 3 * lattice (args controls)))%float in
  let x1_2 := (x1 * x1)%float in
  let y1_2 := (y1 * y1)%float in
  let x2_2 := (x2 * x2)%float in
  let y2_2 := (y2 * y2)%float in
  let ycorr := (R * sqrt ((x1_2 - x2_2) / (x1_2 * y2_2 - x2_2 * y1_2)))%float in
  let xcorr := sqrt ((R * R - (ycorr * ycorr * y1_2)) / x1_2)%float in
  let a := set_Xscale (args controls) (1 / xcorr)%float in
  let a := set_Yscale a (1 / ycorr)%float in
  let a := set_Xwarning a false in
  let a := set_Ywarning a false in
  let a := if (x1_2 =? x2_2)%float then set_Xwarning a true else a in
  let a := if (y1_2 =? y2_2)%float then set_Ywarning a true else a in
  let a := if (x1_2 =? 0)%float then set_Xwarning a true else a in
  let a := if Dbl.ne (Xscale a) (Xscale a) then set_Xwarning a true else a in
  let a := if Dbl.ne (Yscale a) (Yscale a) then set_Ywarning a true else a in
  let a := if (x1_2 * y2_2 =? x2_2 * y1_2)%float
           then set_Ywarning (set_Xwarning a true) true else a in
  set_args controls a.

(** [calibrate_update_scales]; the two entries are refreshed from the values
    formatted before the reset, which leaves the stored numbers as below. *)
Definition calibrate_update_scales (controls : ThresholdControls) : ThresholdControls :=
  if gwy_selection_is_full (selection controls)
  then calibration_get_factors controls
  else
    let a := set_Xscale (args controls) 0 in
    let a := set_Yscale a 0 in
    let a := set_Xwarning a false in
    let a := set_Ywarning a false in
    set_args controls a.

(** [clear_points] *)
Definition clear_points (controls : ThresholdControls) : ThresholdControls :=
  calibrate_update_scales
    (set_selection controls (gwy_selection_clear (selection controls))).

(** [xscale_changed] and [yscale_changed]; [num] is what [g_strtod] made of
    the entry's text. *)
Definition xscale_changed (controls : ThresholdControls) (num : float) : ThresholdControls :=
  if Dbl.ne num (Xscale (args controls)) && Dbl.gt num 0
  then set_args controls (set_Xscale (args controls) num)
  else controls.

Definition yscale_changed (controls : ThresholdControls) (num : float) : ThresholdControls :=
  if Dbl.ne num (Yscale (args controls)) && Dbl.gt num 0
  then set_args controls (set_Yscale (args controls) num)
  else controls.

Section Routines.
Context {lib : GwyLib}.

(** [preview] *)
Definition preview (controls : ThresholdControls) : ThresholdControls :=
  let Xreal := xreal (offt controls) in
  let Yreal := yreal (offt controls) in
  let Xoff := xoff (offt controls) in
  let Yoff := yoff (offt controls) in
  let zoom := zoom_mode (args controls) in
  let disp :=
    match zoom with
    | ZOOM_1 => set_data (disp_data controls) (data (offt controls))
    | _ =>
      let Xres := xres (offt controls) in
      let Yres := yres (offt controls) in
      let width := Z.lor (Z.quot Xres (zoom_value zoom)) 1 in
      let height := Z.lor (Z.quot Yres (zoom_value zoom)) 1 in
      let temp := gwy_data_field_area_extract (offt controls)
                    (Z.quot (Xres - width) 2) (Z.quot (Yres - height) 2)
                    width height in
      set_data (disp_data controls) (resampled_data temp Xres Yres)
    end in
  let zoomd := Dbl.of_Z (zoom_value zoom) in
  let disp := gwy_data_field_set_xreal disp (Xreal / zoomd)%float in
  let disp := gwy_data_field_set_yreal disp (Yreal / zoomd)%float in
  let disp := gwy_data_field_set_xoffset disp (Xoff / zoomd)%float in
  let disp := gwy_data_field_set_yoffset disp (Yoff / zoomd)%float in
  let controls := set_disp_data controls disp in
  set_view controls
           (threshold_do (args controls) (set_data (view controls) (data disp))).

(** [threshold_lower_changed] and [threshold_upper_changed]; [value] is
    what [g_strtod] made of the entry's text. *)
Definition threshold_lower_changed (controls : ThresholdControls) (value : float)
  : ThresholdControls :=
  let num := (value * magnitude controls)%float in
  let r := ranges controls in
  let controls :=
    if Dbl.ge num (range_min r) && (num <=? range_max r)%float
    then set_args controls (set_lower (args controls) num)
    else if (num <? range_min r)%float
         then set_args controls (set_lower (args controls) (range_min r))
         else if Dbl.gt num (range_max r)
              then set_args controls (set_lower (args controls) (range_max r))
              else controls in
  preview controls.

Definition threshold_upper_changed (controls : ThresholdControls) (value : float)
  : ThresholdControls :=
  let num := (value * magnitude controls)%float in
  let r := ranges controls in
  let controls :=
    if Dbl.ge num (range_min r) && (num <=? range_max r)%float
    then set_args controls (set_upper (args controls) num)
    else if (num <? range_min r)%float
         then set_args controls (set_upper (args controls) (range_min r))
         else if Dbl.gt num (range_max r)
              then set_args controls (set_upper (args controls) (range_max r))
              else controls in
  preview controls.

(** [threshold_lattice_changed] *)
Definition threshold_lattice_changed (controls : ThresholdControls) (value : float)
  : ThresholdControls :=
  let num := (value * magnitude controls)%float in
  if Dbl.gt num 0
  then calibrate_update_scales (set_args controls (set_lattice (args controls) num))
  else controls.

(** One turn of the loop of [reFind_Peaks]; the state is the session and
    the counter [num]. *)
Definition reFind_step (acc : option (ThresholdControls * nat)) (i : nat)
  : option (ThresholdControls * nat) :=
  cn <- acc ;;
  let controls := fst cn in
  let num := snd cn in
  match gwy_selection_get_object (selection controls) i with
  | Some point =>
    controls <- peak_find controls point i ;;
    let xoff' := xoff (disp_data controls) in
    let yoff' := yoff (disp_data controls) in
    let point := ((peak_x (get_p controls num) - xoff')%float,
                  (peak_y (get_p controls num) - yoff')%float) in
    Some (set_selection controls
                        (gwy_selection_set_object (selection controls) i point),
          S num)
  | None => Some (controls, num)
  end.

(** [reFind_Peaks] *)
Definition reFind_Peaks (controls : ThresholdControls) : option ThresholdControls :=
  cn <- fold_left reFind_step [0; 1; 2; 3]%nat (Some (controls, O)) ;;
  Some (preview (fst cn)).

(** One turn of the loop of [zoom_adjust_peaks]. *)
Definition zoom_adjust_step (cn : ThresholdControls * nat) (i : nat)
  : ThresholdControls * nat :=
  let controls := fst cn in
  let num := snd cn in
  match gwy_selection_get_object (selection controls) i with
  | Some _ =>
    let multiplier := (1 / Dbl.of_Z (zoom_value (zoom_mode (args controls))))%float in
    let xoff' := (xoff (dfield controls) * multiplier)%float in
    let yoff' := (yoff (dfield controls) * multiplier)%float in
    let point := ((peak_x (get_p controls num) - xoff')%float,
                  (peak_y (get_p controls num) - yoff')%float) in
    (set_selection controls
                   (gwy_selection_set_object (selection controls) i point),
     S num)
  | None => cn
  end.

(** [zoom_adjust_peaks] *)
Definition zoom_adjust_peaks (controls : ThresholdControls) : option ThresholdControls :=
  reFind_Peaks (fst (fold_left zoom_adjust_step [0; 1; 2; 3]%nat (controls, O))).

(** [zoom_mode_changed]; [z] is the radio button now active. *)
Definition zoom_mode_changed (controls : ThresholdControls) (z : ZoomMode)
  : option ThresholdControls :=
  let controls := set_args controls (set_zoom_mode (args controls) z) in
  let controls := preview controls in
  zoom_adjust_peaks controls.

(** The pointer walk of [set_dfield_modulus]: [n] samples are written. *)
Fixpoint modulus_loop (n : nat) (datare dataim data : list float) : list float :=
  match n, datare, dataim, data with
  | S n', re :: datare', im :: dataim', _ :: data' =>
    hypot re im :: modulus_loop n' datare' dataim' data'
  | _, _, _, _ => data
  end.

(** [set_dfield_modulus] *)
Definition set_dfield_modulus (re im target : GwyDataField) : GwyDataField :=
  set_data target
           (modulus_loop (Z.to_nat (xres re * yres re)) (data re) (data im)
                         (data target)).

(** [fft_postprocess] *)
Definition fft_postprocess (d : GwyDataField) : GwyDataField :=
  let d := set_data d (gwy_data_field_2dfft_humanize (xres d) (yres d) (data d)) in
  let d := gwy_data_field_set_xreal d (1 / gwy_data_field_get_xmeasure d)%float in
  let d := gwy_data_field_set_yreal d (1 / gwy_data_field_get_ymeasure d)%float in
  let r := (Dbl.of_Z (xres d) / 2)%float in
  let d := gwy_data_field_set_xoffset d (- gwy_data_field_jtor d r)%float in
  let r := (Dbl.of_Z (yres d) / 2)%float in
  let d := gwy_data_field_set_yoffset d (- gwy_data_field_itor d r)%float in
  let dmin := fst (gwy_data_field_get_min_max d) in
  gwy_data_field_add d (- dmin)%float.

(** [perform_fft]: [raout] and [ipout] are made alike [dfield] and filled
    by the transform. *)
Definition perform_fft (d : GwyDataField) : GwyDataField :=
  let raout := set_data d (fst (gwy_data_field_2dfft d)) in
  let ipout := set_data d (snd (gwy_data_field_2dfft d)) in
  fft_postprocess (set_dfield_modulus raout ipout d).

(** [calibrate_do], up to the field handed to [calibrate_create_output]. *)
Definition calibrate_do (controls : ThresholdControls) : option GwyDataField :=
  let oldXres := xres (ofield controls) in
  let oldYres := yres (ofield controls) in
  newXres <- GWY_ROUND (Dbl.of_Z oldXres) ;;
  newYres <- GWY_ROUND (Dbl.of_Z oldYres * Yscale (args controls)
                        / Xscale (args controls))%float ;;
  newDataField <- gwy_data_field_new_resampled (ofield controls) newXres newYres ;;
  let oldXreal := xreal (ofield controls) in
  let oldYreal := yreal (ofield controls) in
  let newXreal := (oldXreal * Xscale (args controls))%float in
  let newYreal := (oldYreal * Yscale (args controls))%float in
  let newDataField := gwy_data_field_set_xreal newDataField newXreal in
  let newDataField := gwy_data_field_set_yreal newDataField newYreal in
  Some newDataField.

(** The end of [calibrate_hcp_dialog] after the OK button: whether
    [calibrate_do] runs, and what it yields. *)
Definition dialog_response_ok (controls : ThresholdControls)
  : option (option GwyDataField) :=
  if gwy_selection_is_full (selection controls)
  then Some (calibrate_do controls)
  else if Dbl.gt (Xscale (args controls)) 0 && Dbl.gt (Yscale (args controls)) 0
       then Some (calibrate_do controls)
       else None.

End Routines.

(** The columns of the peak table. *)
Inductive Column : Type := COLUMN_I | COLUMN_X | COLUMN_Y | COLUMN_Z.

(** [gwy_tool_level3_render_cell], without the formatting of the text: the
    X cell of a selected row refines the row's point, and every cell of a
    selected row ends in the update of the scale factors. *)
Definition gwy_tool_level3_render_cell (controls : ThresholdControls)
           (id : Column) (idx : nat) : option ThresholdControls :=
  match id with
  | COLUMN_I => Some controls
  | _ =>
    match gwy_selection_get_object (selection controls) idx with
    | None => Some controls
    | Some point =>
      controls <- match id with
                  | COLUMN_X => peak_find controls point idx
                  | _ => Some controls
                  end ;;
      Some (calibrate_update_scales controls)
    end
  end.

(** ** The rest of the dialog: settings, start, buttons and end *)

Section Settings.
Import String.
Local Open Scope string_scope.

(** Modelled from the spec: the settings store of the host (GwyContainer)
    is not among the sources.  It maps keys to typed values; a value set
    for a key replaces the earlier one, and a "get if set" accessor changes
    its destination only when the key holds a value of the type asked for.
    The store is kept as the list of the values set, the latest first. *)
Inductive GwyValue : Type :=
| G_TYPE_DOUBLE (v : float)
| G_TYPE_INT (n : Z).

Definition GwyContainer : Type := list (string * GwyValue).

Fixpoint gwy_container_get_value (settings : GwyContainer) (key : string)
  : option GwyValue :=
  match settings with
  | [] => None
  | (k, v) :: rest =>
    if String.eqb k key then Some v else gwy_container_get_value rest key
  end.

Definition gwy_container_set_double_by_name (settings : GwyContainer) (key : string)
           (v : float) : GwyContainer :=
  (key, G_TYPE_DOUBLE v) :: settings.

Definition gwy_container_set_int32_by_name (settings : GwyContainer) (key : string)
           (n : Z) : GwyContainer :=
  (key, G_TYPE_INT n) :: settings.

Definition gwy_container_gis_double_by_name (settings : GwyContainer) (key : string)
           (dest : float) : float :=
  match gwy_container_get_value settings key with
  | Some (G_TYPE_DOUBLE v) => v
  | _ => dest
  end.

Definition gwy_container_gis_int32_by_name (settings : GwyContainer) (key : string)
           (dest : Z) : Z :=
  match gwy_container_get_value settings key with
  | Some (G_TYPE_INT n) => n
  | _ => dest
  end.

Definition lower_key : string := "/module/calibrate_hcp/lower".
Definition upper_key : string := "/module/calibrate_hcp/upper".
Definition lattice_key : string := "/module/calibrate_hcp/lattice".
Definition radius_key : string := "/module/calibrate_hcp/radius".

(** [threshold_load_args]: the arguments and [tool->rpx] after the call. *)
Definition threshold_load_args (settings : GwyContainer) (tool_rpx : Z)
  : ThresholdArgs * Z :=
  let a := threshold_defaults in
  let a := set_lower a (gwy_container_gis_double_by_name settings lower_key (lower a)) in
  let a := set_upper a (gwy_container_gis_double_by_name settings upper_key (upper a)) in
  let a := set_lattice a (gwy_container_gis_double_by_name settings lattice_key (lattice a)) in
  (a, gwy_container_gis_int32_by_name settings radius_key tool_rpx).

(** [threshold_save_args] *)
Definition threshold_save_args (settings : GwyContainer) (a : ThresholdArgs)
           (tool_rpx : Z) : GwyContainer :=
  let settings := gwy_container_set_double_by_name settings lower_key (lower a) in
  let settings := gwy_container_set_double_by_name settings upper_key (upper a) in
  let settings := gwy_container_set_double_by_name settings lattice_key (lattice a) in
  gwy_container_set_int32_by_name settings radius_key tool_rpx.

End Settings.

Definition set_rpx (c : ThresholdControls) (r : Z) :=
  mkControls (args c) (ranges c) (ofield c) (offt c) (disp_data c) (dfield c) (view c)
             (selection c) (p0 c) (p1 c) r (magnitude c).

(** [gwy_tool_level3_radius_changed]; [r] is the value of the spin button. *)
Definition gwy_tool_level3_radius_changed (controls : ThresholdControls) (r : Z)
  : ThresholdControls :=
  set_rpx controls r.

(** The buttons of a dialog. *)
Inductive Response : Type := GTK_RESPONSE_CANCEL | GTK_RESPONSE_OK.

(** What the user does in the dialog, by the signal connected in
    [calibrate_hcp_dialog]: an entry is activated (with the number
    [g_strtod] reads from its text), a button is clicked, the spin button or
    a zoom radio is changed, the point layer sets a point of the selection,
    a cell of the peak table is rendered. *)
Inductive Callback : Type :=
| lower_activate (value : float)
| upper_activate (value : float)
| full_range_clicked
| clear_points_clicked
| radius_value_changed (r : Z)
| lattice_activate (value : float)
| xscale_activate (num : float)
| yscale_activate (num : float)
| zoom_mode_toggled (z : ZoomMode)
| point_set (i : nat) (pt : Point)
| cell_rendered (id : Column) (idx : nat).

Section Dialog.
Context {lib : GwyLib}.

(** The number [g_strtod] reads back from the text that [g_strdup_printf]
    makes of a number with the precision of the value format: both are
    outside the sources. *)
Variable printed : float -> float.

(** [threshold_set_to_range]: each entry is filled with the formatted bound
    and activated, which runs its callback on the text. *)
Definition threshold_set_to_range (controls : ThresholdControls) (lower upper : float)
  : ThresholdControls :=
  let controls :=
    threshold_lower_changed controls (printed (lower / magnitude controls)%float) in
  let controls :=
    threshold_upper_changed controls (printed (upper / magnitude controls)%float) in
  preview controls.

(** [threshold_set_to_full_range] *)
Definition threshold_set_to_full_range (controls : ThresholdControls)
  : ThresholdControls :=
  threshold_set_to_range controls (range_min (ranges controls))
                         (range_max (ranges controls)).

(** [calibrate_hcp_dialog], up to the first run of the dialog: the
    original is kept, the field is transformed in place, copied to the
    spectrum, the display and the view, the data range is taken and the
    preview is drawn.  [magnitude] is that of the value format of the
    original; [q0] and [q1] are what the rows of [p], which the code does
    not initialise, happen to hold. *)
Definition calibrate_hcp_dialog_start (a : ThresholdArgs) (image : GwyDataField)
           (tool_rpx : Z) (magnitude : float) (q0 q1 : Peak) : ThresholdControls :=
  let ofield := image in
  let dfield := perform_fft image in
  let offt := dfield in
  let disp_data := dfield in
  let view := dfield in
  let mm := gwy_data_field_get_min_max view in
  let ranges := mkRanges (fst mm) (snd mm) in
  preview (mkControls a ranges ofield offt disp_data dfield view
                      (gwy_selection_clear []) q0 q1 tool_rpx magnitude).

(** [calibrate_hcp], up to the first run of the dialog. *)
Definition calibrate_hcp (settings : GwyContainer) (image : GwyDataField)
           (magnitude : float) (q0 q1 : Peak) : ThresholdControls :=
  let tool_rpx := 3%Z in
  let loaded := threshold_load_args settings tool_rpx in
  calibrate_hcp_dialog_start (fst loaded) image (snd loaded) magnitude q0 q1.

(** One signal of the dialog, dispatched to the callback connected to it. *)
Definition dialog_callback (controls : ThresholdControls) (cb : Callback)
  : option ThresholdControls :=
  match cb with
  | lower_activate value => Some (threshold_lower_changed controls value)
  | upper_activate value => Some (threshold_upper_changed controls value)
  | full_range_clicked => Some (threshold_set_to_full_range controls)
  | clear_points_clicked => Some (clear_points controls)
  | radius_value_changed r => Some (gwy_tool_level3_radius_changed controls r)
  | lattice_activate value => Some (threshold_lattice_changed controls value)
  | xscale_activate num => Some (xscale_changed controls num)
  | yscale_activate num => Some (yscale_changed controls num)
  | zoom_mode_toggled z => zoom_mode_changed controls z
  | point_set i pt =>
    Some (set_selection controls (gwy_selection_set_object (selection controls) i pt))
  | cell_rendered id idx => gwy_tool_level3_render_cell controls id idx
  end.

(** The signals of a run of the dialog, in order. *)
Definition dialog_run (controls : ThresholdControls) (cbs : list Callback)
  : option ThresholdControls :=
  fold_left (fun acc cb => c <- acc ;; dialog_callback c cb) cbs (Some controls).

(** The end of [calibrate_hcp_dialog]: the settings are saved on either
    button, and OK goes on to the calibration. *)
Definition calibrate_hcp_dialog_end (settings : GwyContainer)
           (controls : ThresholdControls) (response : Response)
  : GwyContainer * option (option GwyDataField) :=
  let settings := threshold_save_args settings (args controls) (rpx controls) in
  match response with
  | GTK_RESPONSE_CANCEL => (settings, None)
  | GTK_RESPONSE_OK => (settings, dialog_response_ok controls)
  end.

End Dialog.

(** ** Notions used to state the properties of a session *)

(** The arguments that the scale update neither reads nor keeps are the two
    scale factors and the two warnings: [a'] is [a] apart from them. *)
Definition scales_apart (a a' : ThresholdArgs) : Prop :=
  lower a' = lower a /\ upper a' = upper a /\ lattice a' = lattice a /\
  zoom_mode a' = zoom_mode a.

(** A number inside the data range. *)
Definition in_range (r : ThresholdRanges) (x : float) : Prop :=
  (range_min r <=? x)%float = true /\ (x <=? range_max r)%float = true.

(** The display has the extents and offsets of the spectrum divided by the
    zoom level of the session. *)
Definition display_follows_zoom (c : ThresholdControls) : Prop :=
  let zd := Dbl.of_Z (zoom_value (zoom_mode (args c))) in
  xreal (disp_data c) = (xreal (offt c) / zd)%float /\
  yreal (disp_data c) = (yreal (offt c) / zd)%float /\
  xoff (disp_data c) = (xoff (offt c) / zd)%float /\
  yoff (disp_data c) = (yoff (offt c) / zd)%float.

(** What a session never changes: the original, the spectrum, the data
    range, the magnitude of the value format and the resolution of the
    display. *)
Definition session_data_kept (c st : ThresholdControls) : Prop :=
  ofield st = ofield c /\ offt st = offt c /\ dfield st = dfield c /\
  ranges st = ranges c /\ magnitude st = magnitude c /\
  xres (disp_data st) = xres (disp_data c) /\
  yres (disp_data st) = yres (disp_data c).

(** A step of a session that leaves the arguments and the display alone,
    and keeps a selection of at most two points so. *)
Definition quiet (c st : ThresholdControls) : Prop :=
  args st = args c /\ disp_data st = disp_data c /\
  ofield st = ofield c /\ offt st = offt c /\ dfield st = dfield c /\
  ranges st = ranges c /\ magnitude st = magnitude c /\
  ((length (selection c) <= 2)%nat -> (length (selection st) <= 2)%nat).

(** The invariant of a session: at most two points are selected, the
    lattice constant is positive, the clamp bounds lie inside the data
    range and the display follows the zoom level. *)
Definition session_invariant (c : ThresholdControls) : Prop :=
  (length (selection c) <= 2)%nat /\
  Dbl.gt (lattice (args c)) 0 = true /\
  in_range (ranges c) (lower (args c)) /\
  in_range (ranges c) (upper (args c)) /\
  display_follows_zoom c.

(** A step of a session that keeps the session data, a selection of at
    most two points and, over a data range with [min <= max], the
    invariant. *)
Definition step_ok (c st : ThresholdControls) : Prop :=
  session_data_kept c st /\
  ((length (selection c) <= 2)%nat -> (length (selection st) <= 2)%nat) /\
  ((range_min (ranges c) <=? range_max (ranges c))%float = true ->
   session_invariant c -> session_invariant st).


(** ** The specification's formulas, in its own words *)

Module Spec.

Definition sq (x : float) : float := (x * x)%float.

(** [R = 2 / (sqrt 3 * a)] *)
Definition R (a : float) : float := (2 / (sqrt 3 * a))%float.

(** [ycorr = R * sqrt ((x1^2 - x2^2) / (x1^2 * y2^2 - x2^2 * y1^2))] *)
Definition ycorr (x1 y1 x2 y2 a : float) : float :=
  (R a * sqrt ((sq x1 - sq x2) / (sq x1 * sq y2 - sq x2 * sq y1)))%float.

(** [xcorr = sqrt ((R^2 - ycorr^2 * y1^2) / x1^2)] *)
Definition xcorr (x1 y1 x2 y2 a : float) : float :=
  sqrt ((sq (R a) - sq (ycorr x1 y1 x2 y2 a) * sq y1) / sq x1)%float.

(** The square window [[col0 - r, col0 + r) x [row0 - r, row0 + r)]
    clamped to the image bounds. *)
Definition window_lo (c r : Z) : Z := Z.max 0 (c - r).
Definition window_hi (c r res : Z) : Z := Z.min res (c + r).

Definition in_window (d : GwyDataField) (col row r : Z) (cell : Z * Z) : Prop :=
  (window_lo col r <= fst cell < window_hi col r (xres d))%Z /\
  (window_lo row r <= snd cell < window_hi row r (yres d))%Z.

(** The pixels (column, row) of the window in row-major order: rows
    ascending, and the columns ascending inside each row. *)
Definition cells_row_major (d : GwyDataField) (col row r : Z) : list (Z * Z) :=
  flat_map (fun j => map (fun i => (i, j))
                         (Zrange (window_lo col r) (window_hi col r (xres d))))
           (Zrange (window_lo row r) (window_hi row r (yres d))).

(** The same pixels in column-major order: columns ascending, and the rows
    ascending inside each column. *)
Definition cells_column_major (d : GwyDataField) (col row r : Z) : list (Z * Z) :=
  flat_map (fun i => map (fun j => (i, j))
                         (Zrange (window_lo row r) (window_hi row r (yres d))))
           (Zrange (window_lo col r) (window_hi col r (xres d))).

Definition sample (d : GwyDataField) (cell : Z * Z) : float :=
  gwy_data_field_get_val d (fst cell) (snd cell).

(** Track the maximum over the pixels in the order given, starting from the
    sample at [start]; a later pixel wins only with a larger sample, so
    ties go to the pixel met first. *)
Definition first_maximum (d : GwyDataField) (start : Z * Z) (cells : list (Z * Z)) : Best :=
  fold_left (fun b cell => scan_cell d (fst cell) b (snd cell)) cells
            (mkBest (fst start) (snd start) (sample d start)).

(** The Peak Locator as the specification words it: ties broken in
    row-major scan order. *)
Definition peak_scan_row_major (d : GwyDataField) (col row r : Z) : Best :=
  first_maximum d (col, row) (cells_row_major d col row r).

(** The integral part, towards zero, of the number a double stands for:
    the double [(-1)^s * m * 2^e] is the fraction of the two integers
    below, and [Z.quot] drops its fractional part. *)
Definition toward_zero (x : spec_float) : option Z :=
  match x with
  | S754_zero _ => Some 0%Z
  | S754_finite s m e =>
    Some (Z.quot (cond_Zopp s (Zpos m) * 2 ^ Z.max e 0) (2 ^ Z.max (- e) 0))
  | S754_infinity _ | S754_nan => None
  end.

(** The pixel of a point as the specification words it: the pixel
    coordinates rounded to the nearest integer. *)
Definition rounded_pixel (d : GwyDataField) (point : Point) : option Z * option Z :=
  (GWY_ROUND (gwy_data_field_rtoj d (fst point)),
   GWY_ROUND (gwy_data_field_rtoi d (snd point))).

End Spec.

(** ** Concrete data for the examples *)

Module Sample.

Definition zeros (w h : Z) : list float := repeat 0%float (Z.to_nat (w * h)).

(** A stand-in for the library: the textbook [hypot], a transform that
    returns its input as the real part, no re-centring, and blank rasters
    of the right size for the resampling primitives. *)
#[export] Instance plain_lib : GwyLib := {|
  hypot := fun x y => sqrt (x * x + y * y)%float;
  gwy_data_field_2dfft := fun d => (data d, map (fun _ => 0%float) (data d));
  gwy_data_field_2dfft_humanize := fun _ _ l => l;
  resampled_data := fun _ w h => zeros w h;
  area_data := fun _ _ _ w h => zeros w h
|}.

Definition blank (w h : Z) (xr yr xo yo : float) : GwyDataField :=
  mkField w h xr yr xo yo (zeros w h).

Definition ranges0 : ThresholdRanges := mkRanges 0 10.

(** A session on a 4 x 4 image of extent 8 x 8 centred at the origin. *)
Definition session (a : ThresholdArgs) (sel : list Point) (q0 q1 : Peak) (r : Z)
  : ThresholdControls :=
  mkControls a ranges0 (blank 4 4 8 8 0 0) (blank 4 4 8 8 (-4) (-4))
             (blank 4 4 8 8 (-4) (-4)) (blank 4 4 8 8 (-4) (-4))
             (blank 4 4 8 8 (-4) (-4)) sel q0 q1 r 1.

(** The triangle of peaks (3, 1) and (1, 3), with the default lattice. *)
Definition triangle : ThresholdControls :=
  session threshold_defaults [(7, 5); (5, 7)]%float (3, 1, 1)%float (1, 3, 1)%float 3.

(** The same triangle with the lattice constant 0.246 nm, the double
    0x1.0e7ad82221eecp-32. *)
Definition triangle_graphene : ThresholdControls :=
  session (mkArgs 0 0 0x1.0e7ad82221eecp-32 1 1 false false ZOOM_1)
          [(7, 5); (5, 7)]%float (3, 1, 1)%float (1, 3, 1)%float 3.

(** A session whose clamp bounds are 5 and 7, on data ranging over [0, 10]. *)
Definition clamped : ThresholdControls :=
  session (mkArgs 5 7 0x1.12e0be826d695p-30 1 1 false false ZOOM_1)
          [] (0, 0, 0)%float (0, 0, 0)%float 3.

(** A session with one selected point. *)
Definition one_point : ThresholdControls :=
  session threshold_defaults [(7, 5)]%float (3, 1, 1)%float (1, 3, 1)%float 3.

(** A 2 x 2 image. *)
Definition small_image : GwyDataField :=
  mkField 2 2 2 2 0 0 [3; -4; 1; 5]%float.

(** Two peaks with the same x coordinate, (3, 1) and (3, 2), both selected. *)
Definition same_x : ThresholdControls :=
  session threshold_defaults [(7, 5); (7, 6)]%float (3, 1, 1)%float (3, 2, 1)%float 3.

(** A session with [Xscale = 1] and [Yscale = 2]. *)
Definition stretched : ThresholdControls :=
  session (mkArgs 0 0 0x1.12e0be826d695p-30 1 2 false false ZOOM_1)
          [] (0, 0, 0)%float (0, 0, 0)%float 3.

(** A 3 x 3 spectrum with two equal maxima, at (column 1, row 0) and at
    (column 0, row 1). *)
Definition two_peaks : GwyDataField :=
  mkField 3 3 3 3 0 0 [0; 5; 0;  5; 0; 0;  0; 0; 0]%float.

(** The x2 display of the 4 x 4 spectrum with the point (1, 1) picked, and
    search radius 0. *)
Definition zoomed : ThresholdControls :=
  preview (session (set_zoom_mode threshold_defaults ZOOM_2) [(1, 1)]%float
                   (0, 0, 0)%float (0, 0, 0)%float 0).



End Sample.

(** ** Concrete data for the further examples *)

Module Run.

(** The text of an entry read back as the very number it was made from. *)
Definition exact (x : float) : float := x.

Definition no_peak : Peak := (0, 0, 0)%float.

(** Settings whose radius key holds a double, which the module does not
    read. *)
Definition mistyped : GwyContainer :=
  gwy_container_set_double_by_name [] radius_key 5.

(** The dialog opened on the 2 x 2 image, with empty settings. *)
Definition started : ThresholdControls :=
  calibrate_hcp (lib := Sample.plain_lib) [] Sample.small_image 1 no_peak no_peak.

(** The same peak (3, 1) picked twice. *)
Definition twice : ThresholdControls :=
  Sample.session threshold_defaults [(7, 5); (7, 5)]%float
                 (3, 1, 1)%float (3, 1, 1)%float 3.

(** What a user may do in one run of the dialog. *)
Definition clicks : list Callback :=
  [lower_activate 3; point_set 0 (1, 1)%float; cell_rendered COLUMN_X 0;
   zoom_mode_toggled ZOOM_2; full_range_clicked; clear_points_clicked].

(** A 3 x 3 display of extent 3 x 3 with the offsets 1 and 2: the sample
    2 is at (column 1, row 0), the sample 5 at (column 2, row 1) and the
    sample 7 at (column 2, row 2). *)
Definition steps : GwyDataField :=
  mkField 3 3 3 3 1 2 [0; 2; 0;  0; 0; 5;  0; 0; 7]%float.

(** A session on that display, with the point (1.75, 0.75) picked and the
    search radius 0. *)
Definition near : ThresholdControls :=
  mkControls threshold_defaults Sample.ranges0 steps steps steps steps steps
             [(1.75, 0.75)]%float no_peak no_peak 0 1.

(** The peak of that point, and the peak of the position of that peak. *)
Definition refined_once : option Peak :=
  st <- peak_find near (1.75, 0.75)%float 0 ;; Some (get_p st 0).

Definition refined_twice : option Peak :=
  st <- peak_find near (1.75, 0.75)%float 0 ;;
  st' <- peak_find st (peak_x (get_p st 0), peak_y (get_p st 0)) 0 ;;
  Some (get_p st' 0).

End Run.

(** * Properties *)

(** ** Doubles: comparisons and NaN *)

Section DoubleFacts.
Local Open Scope float_scope.

Lemma SFcompare_Eq_finite s1 m1 e1 s2 m2 e2 :
  SFcompare (S754_finite s1 m1 e1) (S754_finite s2 m2 e2) = Some Eq ->
  s1 = s2 /\ m1 = m2 /\ e1 = e2.
Proof.
  simpl. destruct s1, s2; try discriminate;
    destruct (Z.compare_spec e1 e2) as [He|He|He]; try discriminate;
    change (Pos.compare_cont Eq m1 m2) with (Pos.compare m1 m2);
    destruct (Pos.compare_spec m1 m2); simpl; try discriminate;
    intros _; subst; auto.
Qed.

(** [x == y] for a positive [x] means the two doubles are the same. *)
Lemma eqb_pos_eq x y : (x =? y) = true -> (0 <? x) = true -> x = y.
Proof.
  rewrite eqb_spec, ltb_spec. intros He Hl. apply Prim2SF_inj.
  unfold SFeqb, SFltb in *.
  change (Prim2SF 0) with (S754_zero false) in Hl.
  destruct (Prim2SF x) as [sx|sx| |sx mx ex];
    destruct (Prim2SF y) as [sy|sy| |sy my ey];
    try discriminate;
    try (destruct sx, sy; simpl in *; try discriminate; reflexivity).
  destruct (SFcompare (S754_finite sx mx ex) (S754_finite sy my ey)) as [[| |]|] eqn:Hc;
    try discriminate.
  apply SFcompare_Eq_finite in Hc as (-> & -> & ->). reflexivity.
Qed.

(** Only NaN differs from itself. *)
Lemma SFcompare_refl x : x <> S754_nan -> SFcompare x x = Some Eq.
Proof.
  destruct x as [s|s| |s m e]; intros H; try congruence; simpl.
  - destruct s; reflexivity.
  - destruct s; reflexivity.
  - change (Pos.compare_cont Eq m m) with (Pos.compare m m).
    destruct s; rewrite Z.compare_refl, Pos.compare_refl; reflexivity.
Qed.

Lemma Prim2SF_nan x : Prim2SF x = S754_nan -> x = nan.
Proof. intros H. apply Prim2SF_inj. rewrite H. reflexivity. Qed.

Lemma self_differs_nan x : Dbl.ne x x = true -> x = nan.
Proof.
  unfold Dbl.ne. rewrite eqb_spec. unfold SFeqb. intros H.
  apply Prim2SF_nan. destruct (Prim2SF x) eqn:E; try reflexivity;
    rewrite SFcompare_refl in H by discriminate; discriminate.
Qed.

Lemma is_nan_self_differs x : is_nan x = Dbl.ne x x.
Proof. reflexivity. Qed.

(** NaN runs through a division and a square root. *)
Lemma div_nan_r x : x / nan = nan.
Proof.
  apply Prim2SF_nan. rewrite div_spec.
  change (Prim2SF nan) with S754_nan. unfold SF64div, SFdiv.
  destruct (Prim2SF x); reflexivity.
Qed.

Lemma nan_gt_false x : (nan <? x) = false /\ (x <? nan) = false
                       /\ (nan <=? x) = false /\ (x <=? nan) = false
                       /\ (x =? nan) = false.
Proof.
  rewrite !ltb_spec, !leb_spec, eqb_spec.
  change (Prim2SF nan) with S754_nan.
  unfold SFltb, SFleb, SFeqb. destruct (Prim2SF x); simpl; auto.
Qed.

End DoubleFacts.

(** ** Doubles: the order of the comparisons *)

Section DoubleOrder.
Local Open Scope float_scope.

Ltac cmp_cases :=
  repeat match goal with
         | H : context [Pos.compare_cont Eq ?a ?b] |- _ =>
           change (Pos.compare_cont Eq a b) with (Pos.compare a b) in H
         | |- context [Pos.compare_cont Eq ?a ?b] =>
           change (Pos.compare_cont Eq a b) with (Pos.compare a b)
         end;
  repeat match goal with
         | H : context [Z.compare ?a ?b] |- _ =>
           destruct (Z.compare_spec a b); try discriminate H
         | H : context [Pos.compare ?a ?b] |- _ =>
           destruct (Pos.compare_spec a b); try discriminate H
         end;
  subst;
  repeat match goal with
         | |- context [Z.compare ?a ?b] =>
           destruct (Z.compare_spec a b); try lia
         | |- context [Pos.compare ?a ?b] =>
           destruct (Pos.compare_spec a b); try lia
         end;
  try reflexivity; try discriminate; try lia.

Lemma SFcompare_swap x y :
  SFcompare y x = match SFcompare x y with
                  | Some c => Some (CompOpp c)
                  | None => None
                  end.
Proof.
  destruct x as [s1|s1| |s1 m1 e1], y as [s2|s2| |s2 m2 e2];
    try destruct s1; try destruct s2; simpl; try reflexivity.
  - rewrite (Z.compare_antisym e1 e2).
    change (Pos.compare_cont Eq m2 m1) with (Pos.compare m2 m1).
    change (Pos.compare_cont Eq m1 m2) with (Pos.compare m1 m2).
    rewrite (Pos.compare_antisym m1 m2).
    destruct (e1 ?= e2)%Z, (m1 ?= m2)%positive; reflexivity.
  - rewrite (Z.compare_antisym e1 e2).
    change (Pos.compare_cont Eq m2 m1) with (Pos.compare m2 m1).
    change (Pos.compare_cont Eq m1 m2) with (Pos.compare m1 m2).
    rewrite (Pos.compare_antisym m1 m2).
    destruct (e1 ?= e2)%Z, (m1 ?= m2)%positive; reflexivity.
Qed.

Lemma SFcompare_Lt_trans x y z :
  SFcompare x y = Some Lt -> SFcompare y z = Some Lt -> SFcompare x z = Some Lt.
Proof.
  destruct x as [s1|s1| |s1 m1 e1], y as [s2|s2| |s2 m2 e2], z as [s3|s3| |s3 m3 e3];
    try destruct s1; try destruct s2; try destruct s3; simpl;
    try discriminate; try reflexivity;
    intros H1 H2; injection H1 as H1; injection H2 as H2; f_equal; cmp_cases.
Qed.

Lemma SFcompare_Eq_l x y z c :
  SFcompare x y = Some Eq -> SFcompare y z = Some c -> SFcompare x z = Some c.
Proof.
  destruct x as [s1|s1| |s1 m1 e1], y as [s2|s2| |s2 m2 e2], z as [s3|s3| |s3 m3 e3];
    try destruct s1; try destruct s2; try destruct s3; simpl;
    try discriminate; try (intros _ H; exact H);
    intros H1 H2; injection H1 as H1; cmp_cases; assumption.
Qed.

Lemma SFcompare_Eq_r x y z c :
  SFcompare x y = Some c -> SFcompare y z = Some Eq -> SFcompare x z = Some c.
Proof.
  destruct x as [s1|s1| |s1 m1 e1], y as [s2|s2| |s2 m2 e2], z as [s3|s3| |s3 m3 e3];
    try destruct s1; try destruct s2; try destruct s3; simpl;
    try discriminate; try (intros H _; exact H);
    intros H1 H2; injection H2 as H2; cmp_cases; assumption.
Qed.

Lemma ltb_irrefl x : (x <? x) = false.
Proof.
  rewrite ltb_spec. unfold SFltb.
  destruct (Prim2SF x) eqn:E; try reflexivity;
    rewrite SFcompare_refl by discriminate; reflexivity.
Qed.

Lemma ltb_trans x y z : (x <? y) = true -> (y <? z) = true -> (x <? z) = true.
Proof.
  rewrite !ltb_spec. unfold SFltb. intros H1 H2.
  destruct (SFcompare (Prim2SF x) (Prim2SF y)) as [[| |]|] eqn:E1; try discriminate.
  destruct (SFcompare (Prim2SF y) (Prim2SF z)) as [[| |]|] eqn:E2; try discriminate.
  rewrite (SFcompare_Lt_trans _ _ _ E1 E2). reflexivity.
Qed.

Lemma ltb_leb_trans x y z : (x <? y) = true -> (y <=? z) = true -> (x <? z) = true.
Proof.
  rewrite !ltb_spec, leb_spec. unfold SFltb, SFleb. intros H1 H2.
  destruct (SFcompare (Prim2SF x) (Prim2SF y)) as [[| |]|] eqn:E1; try discriminate.
  destruct (SFcompare (Prim2SF y) (Prim2SF z)) as [[| |]|] eqn:E2; try discriminate.
  - rewrite (SFcompare_Eq_r _ _ _ _ E1 E2). reflexivity.
  - rewrite (SFcompare_Lt_trans _ _ _ E1 E2). reflexivity.
Qed.

Lemma leb_ltb_trans x y z : (x <=? y) = true -> (y <? z) = true -> (x <? z) = true.
Proof.
  rewrite !ltb_spec, leb_spec. unfold SFltb, SFleb. intros H1 H2.
  destruct (SFcompare (Prim2SF y) (Prim2SF z)) as [[| |]|] eqn:E2; try discriminate.
  destruct (SFcompare (Prim2SF x) (Prim2SF y)) as [[| |]|] eqn:E1; try discriminate.
  - rewrite (SFcompare_Eq_l _ _ _ _ E1 E2). reflexivity.
  - rewrite (SFcompare_Lt_trans _ _ _ E1 E2). reflexivity.
Qed.

Lemma ltb_leb x y : (x <? y) = true -> (x <=? y) = true.
Proof.
  rewrite ltb_spec, leb_spec. unfold SFltb, SFleb.
  destruct (SFcompare (Prim2SF x) (Prim2SF y)) as [[| |]|]; auto.
Qed.

Lemma ltb_not_leb x y : (x <? y) = true -> (y <=? x) = false.
Proof.
  rewrite ltb_spec, leb_spec. unfold SFltb, SFleb.
  rewrite (SFcompare_swap (Prim2SF x) (Prim2SF y)).
  destruct (SFcompare (Prim2SF x) (Prim2SF y)) as [[| |]|]; simpl; auto; discriminate.
Qed.

Lemma leb_not_ltb x y : (x <=? y) = true -> (y <? x) = false.
Proof.
  rewrite ltb_spec, leb_spec. unfold SFltb, SFleb.
  rewrite (SFcompare_swap (Prim2SF x) (Prim2SF y)).
  destruct (SFcompare (Prim2SF x) (Prim2SF y)) as [[| |]|]; simpl; auto; discriminate.
Qed.

Lemma is_nan_Prim2SF x : is_nan x = false -> Prim2SF x <> S754_nan.
Proof.
  intros H E. apply Prim2SF_nan in E. subst x. discriminate H.
Qed.

(** Away from NaN the order is total. *)
Lemma not_ltb_leb x y :
  is_nan x = false -> is_nan y = false -> (x <? y) = false -> (y <=? x) = true.
Proof.
  intros Hx Hy. apply is_nan_Prim2SF in Hx. apply is_nan_Prim2SF in Hy.
  rewrite ltb_spec, leb_spec. unfold SFltb, SFleb.
  rewrite (SFcompare_swap (Prim2SF x) (Prim2SF y)).
  destruct (Prim2SF x) as [s1|s1| |s1 m1 e1]; try congruence;
    destruct (Prim2SF y) as [s2|s2| |s2 m2 e2]; try congruence;
    match goal with
    | |- context [SFcompare ?a ?b] => destruct (SFcompare a b) as [[| |]|] eqn:E
    end; simpl; auto; try discriminate;
    try destruct s1; try destruct s2; discriminate E.
Qed.

Lemma is_nan_cmp_false x y :
  is_nan x = true ->
  (x <? y) = false /\ (y <? x) = false /\ (x <=? y) = false /\ (y <=? x) = false.
Proof.
  intros H. rewrite is_nan_self_differs in H. apply self_differs_nan in H. subst x.
  destruct (nan_gt_false y) as (A & B & C & D & _). auto.
Qed.

Lemma leb_refl_is_nan x : (x <=? x) = true -> is_nan x = false.
Proof.
  intros H. destruct (is_nan x) eqn:E; [|reflexivity].
  destruct (is_nan_cmp_false x x E) as (_ & _ & C & _). congruence.
Qed.

Lemma cmp_true_not_nan x y :
  (x <? y) = true \/ (x <=? y) = true -> is_nan x = false /\ is_nan y = false.
Proof.
  intros H. split.
  - destruct (is_nan x) eqn:E; [|reflexivity].
    destruct (is_nan_cmp_false x y E) as (A & _ & C & _). destruct H; congruence.
  - destruct (is_nan y) eqn:E; [|reflexivity].
    destruct (is_nan_cmp_false y x E) as (_ & B & _ & D). destruct H; congruence.
Qed.

End DoubleOrder.

(** ** Doubles: exact operations *)

Section DoubleExact.
Local Open Scope Z_scope.

Lemma digits2_pos_bounds m :
  2 ^ (Zpos (digits2_pos m) - 1) <= Zpos m < 2 ^ Zpos (digits2_pos m).
Proof.
  induction m as [m IH|m IH|]; cbn [digits2_pos].
  - rewrite Pos2Z.inj_succ.
    replace (Z.succ (Zpos (digits2_pos m)) - 1) with (Z.succ (Zpos (digits2_pos m) - 1)) by lia.
    rewrite !Z.pow_succ_r by lia. lia.
  - rewrite Pos2Z.inj_succ.
    replace (Z.succ (Zpos (digits2_pos m)) - 1) with (Z.succ (Zpos (digits2_pos m) - 1)) by lia.
    rewrite !Z.pow_succ_r by lia. lia.
  - cbn. lia.
Qed.

Lemma digits2_pos_unique m d :
  2 ^ (d - 1) <= Zpos m < 2 ^ d -> Zpos (digits2_pos m) = d.
Proof.
  intros H. pose proof (digits2_pos_bounds m) as B.
  assert (Hd : 0 < d).
  { destruct (Z.ltb_spec 0 d) as [|Hle]; [assumption|].
    assert (2 ^ d <= 1).
    { destruct (Z.eq_dec d 0) as [->|]; [cbn; lia|].
      rewrite Z.pow_neg_r by lia. lia. }
    lia. }
  set (c := Zpos (digits2_pos m)) in *.
  destruct (Z.lt_trichotomy c d) as [Hlt|[Heq|Hgt]]; [|exact Heq|].
  - assert (2 ^ c <= 2 ^ (d - 1)) by (apply Z.pow_le_mono_r; lia). lia.
  - assert (2 ^ d <= 2 ^ (c - 1)) by (apply Z.pow_le_mono_r; lia). lia.
Qed.

Lemma digits2_pos_mul_pow2 m k q :
  0 <= k -> Zpos q = Zpos m * 2 ^ k ->
  Zpos (digits2_pos q) = Zpos (digits2_pos m) + k.
Proof.
  intros Hk Hq. apply digits2_pos_unique. rewrite Hq.
  pose proof (digits2_pos_bounds m) as B.
  replace (Zpos (digits2_pos m) + k - 1) with ((Zpos (digits2_pos m) - 1) + k) by lia.
  rewrite !Z.pow_add_r by lia.
  assert (0 < 2 ^ k) by (apply Z.pow_pos_nonneg; lia).
  nia.
Qed.

(** [iter_pos] is the iteration of the library. *)
Lemma iter_pos_iter {A : Type} (f : A -> A) p x : iter_pos f p x = Pos.iter f x p.
Proof.
  revert x. induction p as [p IH|p IH|]; intros x; cbn [iter_pos Pos.iter].
  - rewrite !IH. rewrite <- !Pos.iter_swap. reflexivity.
  - rewrite !IH. reflexivity.
  - reflexivity.
Qed.

(** Shifting out [k] zero bits is exact. *)
Lemma shr_exact k m :
  iter_pos shr_1 k (Build_shr_record (Zpos m * 2 ^ Zpos k) false false)
  = Build_shr_record (Zpos m) false false.
Proof.
  rewrite iter_pos_iter. revert m. induction k as [|k IH] using Pos.peano_ind; intros m.
  - cbn [Pos.iter]. replace (Zpos m * 2 ^ 1) with (Zpos (m~0)) by lia. reflexivity.
  - rewrite Pos.iter_succ_r.
    assert (Hq : Zpos (m * 2 ^ k) = Zpos m * 2 ^ Zpos k)
      by (rewrite Pos2Z.inj_mul, Pos2Z.inj_pow; reflexivity).
    replace (Zpos m * 2 ^ Zpos (Pos.succ k)) with (Zpos ((m * 2 ^ k)~0))
      by (rewrite Pos2Z.inj_succ, Z.pow_succ_r by lia; lia).
    cbn [shr_1 orb]. rewrite Hq. apply IH.
Qed.

Lemma bounded_inv m e :
  bounded prec emax m e = true ->
  fexp prec emax (Zpos (digits2_pos m) + e) = e /\ e <= emax - prec.
Proof.
  unfold bounded, canonical_mantissa. intros H.
  apply andb_true_iff in H as (H1 & H2).
  apply Z.eqb_eq in H1. apply Z.leb_le in H2. split; assumption.
Qed.

(** A canonical mantissa goes through the rounding of an exact value
    unchanged. *)
Lemma shr_fexp_canonical m e :
  bounded prec emax m e = true ->
  shr_fexp prec emax (Zpos m) e loc_Exact = (Build_shr_record (Zpos m) false false, e).
Proof.
  intros Hb. apply bounded_inv in Hb as (Hc & _).
  unfold shr_fexp. cbn [Zdigits2 shr_record_of_loc]. rewrite Hc, Z.sub_diag. reflexivity.
Qed.

Lemma shr_fexp_exact m e k q :
  bounded prec emax m e = true -> 0 <= k -> Zpos q = Zpos m * 2 ^ k ->
  shr_fexp prec emax (Zpos q) (e - k) loc_Exact
  = (Build_shr_record (Zpos m) false false, e).
Proof.
  intros Hb Hk Hq. pose proof (bounded_inv m e Hb) as (Hc & _).
  unfold shr_fexp. cbn [Zdigits2 shr_record_of_loc].
  rewrite (digits2_pos_mul_pow2 m k q Hk Hq).
  replace (Zpos (digits2_pos m) + k + (e - k)) with (Zpos (digits2_pos m) + e) by lia.
  rewrite Hc. replace (e - (e - k)) with k by lia.
  destruct k as [|kp|kp]; [| |lia].
  - rewrite Z.pow_0_r, Z.mul_1_r in Hq. injection Hq as ->.
    cbn [shr]. rewrite Z.sub_0_r. reflexivity.
  - cbn [shr]. rewrite Hq, shr_exact. f_equal. lia.
Qed.

Lemma binary_round_aux_exact s m e k q :
  bounded prec emax m e = true -> 0 <= k -> Zpos q = Zpos m * 2 ^ k ->
  binary_round_aux prec emax s (Zpos q) (e - k) loc_Exact = S754_finite s m e.
Proof.
  intros Hb Hk Hq. unfold binary_round_aux.
  rewrite (shr_fexp_exact m e k q Hb Hk Hq).
  cbn [shr_m loc_of_shr_record round_nearest_even].
  rewrite (shr_fexp_canonical m e Hb). cbn [shr_m].
  apply bounded_inv in Hb as (_ & Hle).
  apply Z.leb_le in Hle. rewrite Hle. reflexivity.
Qed.

Lemma Prim2SF_one : Prim2SF 1 = S754_finite false 4503599627370496 (-52).
Proof. reflexivity. Qed.

Lemma pow2_52 : 2 ^ 52 = 4503599627370496.
Proof. reflexivity. Qed.

(** [x * 1.0] is [x], for every double. *)
Lemma mul_1_r (x : float) : (x * 1)%float = x.
Proof.
  apply Prim2SF_inj. rewrite mul_spec, Prim2SF_one.
  pose proof (Prim2SF_valid x) as Hv.
  destruct (Prim2SF x) as [s|s| |s m e]; unfold SF64mul, SFmul;
    rewrite ?xorb_false_r; try reflexivity.
  replace (e + -52) with (e - 52) by lia.
  apply binary_round_aux_exact; [exact Hv|lia|].
  rewrite Pos2Z.inj_mul, pow2_52. reflexivity.
Qed.

Lemma div_eucl_exact a b : 0 < b -> Z.div_eucl (a * b) b = (a, 0).
Proof.
  intros Hb. pose proof (Z.div_mul a b ltac:(lia)) as Hq.
  pose proof (Z.mod_mul a b ltac:(lia)) as Hr.
  unfold Z.div, Z.modulo in Hq, Hr.
  destruct (Z.div_eucl (a * b) b) as [q r]. cbn in Hq, Hr. congruence.
Qed.

(** The core of a division by 1.0: the quotient is the mantissa itself,
    with one more bit when the exponent allows it, and nothing is lost. *)
Lemma SFdiv_core_by_one m e :
  bounded prec emax m e = true ->
  SFdiv_core_binary prec emax (Zpos m) e 4503599627370496 (-52)
  = if emin <? e then (Zpos m~0, e - 1, loc_Exact) else (Zpos m, e, loc_Exact).
Proof.
  intros Hb. apply bounded_inv in Hb as (Hc & _).
  unfold SFdiv_core_binary. cbn [Zdigits2].
  change (Zpos (digits2_pos 4503599627370496)) with 53.
  set (d := Zpos (digits2_pos m)) in *.
  assert (Hd : 0 < d) by (unfold d; lia).
  unfold fexp, SpecFloat.emin, prec, emax in *.
  destruct (Z.ltb_spec (3 - 1024 - 53) e) as [Hlt|Hge].
  - replace (Z.min (Z.max (d + e - (53 + -52) - 53) (3 - 1024 - 53)) (e - -52))
      with (e - 1) by lia.
    replace (e - -52 - (e - 1)) with 53 by lia.
    rewrite Z.shiftl_mul_pow2 by lia.
    replace (Zpos m * 2 ^ 53) with (Zpos m~0 * 4503599627370496) by lia.
    rewrite div_eucl_exact by lia. reflexivity.
  - replace (Z.min (Z.max (d + e - (53 + -52) - 53) (3 - 1024 - 53)) (e - -52))
      with e by lia.
    replace (e - -52 - e) with 52 by lia.
    rewrite Z.shiftl_mul_pow2 by lia. rewrite pow2_52.
    rewrite div_eucl_exact by lia. reflexivity.
Qed.

(** [x / 1.0] is [x], for every double. *)
Lemma div_1_r (x : float) : (x / 1)%float = x.
Proof.
  apply Prim2SF_inj. rewrite div_spec, Prim2SF_one.
  pose proof (Prim2SF_valid x) as Hv.
  destruct (Prim2SF x) as [s|s| |s m e]; unfold SF64div, SFdiv;
    rewrite ?xorb_false_r; try reflexivity.
  rewrite (SFdiv_core_by_one m e Hv).
  destruct (emin <? e).
  - apply binary_round_aux_exact; [exact Hv|lia|]. lia.
  - replace e with (e - 0) at 1 by lia.
    apply binary_round_aux_exact; [exact Hv|lia|]. lia.
Qed.

Lemma Pos_iter_xO m k : Zpos (Pos.iter xO m k) = Zpos m * 2 ^ Zpos k.
Proof.
  induction k as [|k IH] using Pos.peano_ind.
  - cbn [Pos.iter]. lia.
  - rewrite Pos.iter_succ, Pos2Z.inj_xO, IH, Pos2Z.inj_succ, Z.pow_succ_r by lia. lia.
Qed.

(** Aligning a mantissa to a smaller exponent multiplies it by a power of 2. *)
Lemma shl_align_fst m e ez :
  ez <= e -> Zpos (fst (shl_align m e ez)) = Zpos m * 2 ^ (e - ez).
Proof.
  intros H. unfold shl_align. destruct (ez - e) as [|k|k] eqn:E; cbn [fst].
  - replace (e - ez) with 0 by lia. lia.
  - lia.
  - rewrite Pos_iter_xO. f_equal. f_equal. lia.
Qed.

Lemma shl_align_snd m e ez : ez <= e -> snd (shl_align m e ez) = ez.
Proof.
  intros H. unfold shl_align. destruct (ez - e) as [|k|k] eqn:E; cbn [snd]; lia.
Qed.

Lemma Zpos_mul_pow2 m k : 0 <= k -> exists q, Zpos q = Zpos m * 2 ^ k.
Proof.
  intros Hk. assert (0 < Zpos m * 2 ^ k)
    by (apply Z.mul_pos_pos; [lia|apply Z.pow_pos_nonneg; lia]).
  destruct (Zpos m * 2 ^ k) as [|q|q]; try lia. exists q. reflexivity.
Qed.

(** A mantissa of exactly 53 bits is canonical at any exponent in range. *)
Lemma bounded_53 m e :
  Zpos (digits2_pos m) = 53 -> -1074 <= e <= 971 -> bounded prec emax m e = true.
Proof.
  intros Hd He. unfold bounded, canonical_mantissa. rewrite Hd.
  unfold fexp, SpecFloat.emin, prec, emax.
  apply andb_true_iff. split; [apply Z.eqb_eq|apply Z.leb_le]; lia.
Qed.

(** The double of a positive integer below 2^53: the integer, normalised
    to a 53-bit mantissa. *)
Lemma Prim2SF_of_Z p :
  let d := Zpos (digits2_pos p) in
  d <= 53 ->
  exists M, Zpos M = Zpos p * 2 ^ (53 - d) /\
            Zpos (digits2_pos M) = 53 /\
            Prim2SF (Dbl.of_Z (Zpos p)) = S754_finite false M (d - 53).
Proof.
  intros d Hd. destruct (Zpos_mul_pow2 p (53 - d) ltac:(lia)) as (M & HM).
  assert (HdM : Zpos (digits2_pos M) = 53).
  { rewrite (digits2_pos_mul_pow2 p (53 - d) M ltac:(lia) HM). fold d. lia. }
  exists M. split; [exact HM|]. split; [exact HdM|].
  assert (Hd0 : 0 < d) by (unfold d; lia).
  assert (Hb : bounded prec emax M (d - 53) = true) by (apply bounded_53; [exact HdM|lia]).
  unfold Dbl.of_Z. rewrite Prim2SF_SF2Prim.
  - unfold binary_normalize, binary_round. fold d.
    replace (fexp prec emax (d + 0)) with (d - 53)
      by (unfold fexp, SpecFloat.emin, prec, emax; lia).
    pose proof (shl_align_fst p 0 (d - 53) ltac:(lia)) as Hf.
    pose proof (shl_align_snd p 0 (d - 53) ltac:(lia)) as Hs.
    destruct (shl_align p 0 (d - 53)) as [mz ez]. cbn [fst snd] in Hf, Hs. subst ez.
    replace (d - 53) with (d - 53 - 0) at 1 by lia.
    apply binary_round_aux_exact; [exact Hb|lia|].
    rewrite Hf, HM, Z.pow_0_r, Z.mul_1_r. f_equal. f_equal. lia.
  - unfold binary_normalize, binary_round. fold d.
    replace (fexp prec emax (d + 0)) with (d - 53)
      by (unfold fexp, SpecFloat.emin, prec, emax; lia).
    pose proof (shl_align_fst p 0 (d - 53) ltac:(lia)) as Hf.
    pose proof (shl_align_snd p 0 (d - 53) ltac:(lia)) as Hs.
    destruct (shl_align p 0 (d - 53)) as [mz ez]. cbn [fst snd] in Hf, Hs. subst ez.
    replace (d - 53) with (d - 53 - 0) at 1 by lia.
    rewrite (binary_round_aux_exact false M (d - 53) 0 mz Hb ltac:(lia)).
    + exact Hb.
    + rewrite Hf, HM, Z.pow_0_r, Z.mul_1_r. f_equal. f_equal. lia.
Qed.

Lemma digits2_pos_le p k : 0 <= k -> Zpos p < 2 ^ k -> Zpos (digits2_pos p) <= k.
Proof.
  intros Hk Hp. pose proof (digits2_pos_bounds p) as (Hlo & _).
  destruct (Z.le_gt_cases (Zpos (digits2_pos p)) k) as [|Hgt]; [assumption|].
  assert (2 ^ k <= 2 ^ (Zpos (digits2_pos p) - 1)) by (apply Z.pow_le_mono_r; lia).
  lia.
Qed.

Lemma in_gint_pos p : Zpos p <= Dbl.INT_MAX -> Dbl.in_gint (Zpos p) = true.
Proof.
  intros H. unfold Dbl.in_gint. apply andb_true_iff.
  split; apply Z.leb_le; [unfold Dbl.INT_MIN; lia|exact H].
Qed.

(** Rounding the double of a positive [gint] gives the [gint] back:
    [n + 0.5] is exact and its floor is [n]. *)
Lemma GWY_ROUND_of_Z n :
  1 <= n <= Dbl.INT_MAX -> GWY_ROUND (Dbl.of_Z n) = Some n.
Proof.
  intros Hn. destruct n as [|p|p]; try lia.
  assert (Hp : Zpos p < 2 ^ 31) by (unfold Dbl.INT_MAX in Hn; lia).
  pose proof (digits2_pos_le p 31 ltac:(lia) Hp) as Hd.
  destruct (Prim2SF_of_Z p ltac:(lia)) as (M & HM & HdM & HP).
  set (d := Zpos (digits2_pos p)) in *.
  assert (Hd0 : 0 < d) by (unfold d; lia).
  unfold GWY_ROUND. rewrite add_spec, HP.
  change (Prim2SF 0.5) with (S754_finite false 4503599627370496 (-53)).
  unfold SF64add, SFadd.
  replace (Z.min (d - 53) (-53)) with (-53) by lia.
  pose proof (shl_align_fst M (d - 53) (-53) ltac:(lia)) as Hf1.
  destruct (shl_align M (d - 53) (-53)) as [m1 e1]. cbn [fst] in Hf1.
  change (shl_align 4503599627370496 (-53) (-53)) with (4503599627370496%positive, -53).
  cbn [fst cond_Zopp Z.add binary_normalize].
  set (sum := (m1 + 4503599627370496)%positive).
  assert (Hsum : Zpos sum = Zpos p~1 * 2 ^ 52).
  { unfold sum. rewrite Pos2Z.inj_add, Hf1, HM.
    replace (d - 53 - -53) with d by lia.
    rewrite <- Z.mul_assoc, <- Z.pow_add_r by lia.
    replace (53 - d + d) with 53 by lia. rewrite pow2_52. lia. }
  assert (Hds : Zpos (digits2_pos sum) = d + 53).
  { rewrite (digits2_pos_mul_pow2 (p~1) 52 sum ltac:(lia) Hsum).
    cbn [digits2_pos]. rewrite Pos2Z.inj_succ. fold d. lia. }
  destruct (Zpos_mul_pow2 (p~1) (52 - d) ltac:(lia)) as (R & HR).
  assert (HdR : Zpos (digits2_pos R) = 53).
  { rewrite (digits2_pos_mul_pow2 (p~1) (52 - d) R ltac:(lia) HR).
    cbn [digits2_pos]. rewrite Pos2Z.inj_succ. fold d. lia. }
  assert (Hb : bounded prec emax R (d - 53) = true) by (apply bounded_53; [exact HdR|lia]).
  unfold binary_round. rewrite Hds.
  replace (fexp prec emax (d + 53 + -53)) with (d - 53)
    by (unfold fexp, SpecFloat.emin, prec, emax; lia).
  unfold shl_align. replace (d - 53 - -53) with d by lia. unfold d at 1.
  replace (-53) with (d - 53 - d) by lia.
  rewrite (binary_round_aux_exact false R (d - 53) d sum Hb ltac:(lia)).
  - cbn [Dbl.SFfloor cond_Zopp].
    rewrite Z.shiftl_div_pow2 by lia. rewrite HR.
    replace (- (d - 53)) with (1 + (52 - d)) by lia.
    rewrite Z.pow_add_r by lia.
    rewrite Z.div_mul_cancel_r
      by (try (apply Z.pow_nonzero; lia); lia).
    replace (Zpos p~1 / 2 ^ 1) with (Zpos p)
      by (change (2 ^ 1) with 2; apply (Z.div_unique (Zpos p~1) 2 (Zpos p) 1); lia).
    unfold Dbl.to_gint_of. rewrite in_gint_pos by lia. reflexivity.
  - rewrite Hsum, HR, <- Z.mul_assoc, <- Z.pow_add_r by lia.
    f_equal. f_equal. lia.
Qed.

End DoubleExact.

(** ** Doubles: subtracting the minimum *)

Section DoubleFloor.
Local Open Scope Z_scope.

(** [m - m] is [+0] for every finite double. *)
Lemma add_opp_diag (m : float) : Dbl.finite m = true -> (m + - m)%float = 0%float.
Proof.
  intros Hf. apply Prim2SF_inj. rewrite add_spec, opp_spec.
  unfold Dbl.finite in Hf.
  destruct (Prim2SF m) as [s|s| |s mm e]; try discriminate;
    unfold SF64add, SFadd, SFopp.
  - destruct s; reflexivity.
  - rewrite Z.min_id. unfold shl_align. rewrite Z.sub_diag. cbn [fst].
    replace (cond_Zopp s (Zpos mm) + cond_Zopp (negb s) (Zpos mm)) with 0
      by (destruct s; cbn [cond_Zopp negb]; lia).
    reflexivity.
Qed.

(** Rounding a value that is not negative never gives a negative double. *)
Lemma binary_normalize_nonneg S e :
  0 <= S -> SFltb (binary_normalize prec emax S e false) (S754_zero false) = false.
Proof.
  intros HS. destruct S as [|p|p]; [reflexivity| |lia].
  unfold binary_normalize, binary_round, binary_round_aux.
  destruct (shl_align p e _) as [mz ez].
  destruct (shr_fexp prec emax (Zpos mz) ez loc_Exact) as [mrs' e'].
  destruct (shr_fexp prec emax _ e' loc_Exact) as [mrs'' e''].
  destruct (shr_m mrs'') as [|q|q]; try reflexivity.
  destruct (e'' <=? emax - prec); reflexivity.
Qed.

(** Between canonical doubles the larger exponent wins. *)
Lemma canonical_exp_lt mx ex mm em :
  bounded prec emax mx ex = true -> bounded prec emax mm em = true ->
  em < ex -> Zpos mm < Zpos mx * 2 ^ (ex - em).
Proof.
  intros Hx Hm Hlt.
  apply bounded_inv in Hx as (Hx & _). apply bounded_inv in Hm as (Hm & _).
  pose proof (digits2_pos_bounds mx) as (Bx & _).
  pose proof (digits2_pos_bounds mm) as (_ & Bm).
  unfold fexp, SpecFloat.emin, prec, emax in Hx, Hm.
  assert (Hdx : Zpos (digits2_pos mx) = 53) by lia.
  assert (Hdm : Zpos (digits2_pos mm) <= 53) by lia.
  rewrite Hdx in Bx. change (2 ^ (53 - 1)) with 4503599627370496 in Bx.
  assert (Zpos mm < 2 ^ 53).
  { eapply Z.lt_le_trans; [exact Bm|]. apply Z.pow_le_mono_r; lia. }
  change (2 ^ 53) with 9007199254740992 in *.
  assert (2 ^ 1 <= 2 ^ (ex - em)) by (apply Z.pow_le_mono_r; lia).
  change (2 ^ 1) with 2 in *. nia.
Qed.

(** The exact difference of two finite doubles [x >= m], as the sum that
    the addition rounds, is not negative. *)
Lemma aligned_difference_nonneg sx mx ex sm mm em :
  bounded prec emax mx ex = true -> bounded prec emax mm em = true ->
  SFltb (S754_finite sx mx ex) (S754_finite sm mm em) = false ->
  0 <= cond_Zopp sx (Zpos (fst (shl_align mx ex (Z.min ex em))))
       + cond_Zopp (negb sm) (Zpos (fst (shl_align mm em (Z.min ex em)))).
Proof.
  intros Hx Hm Hc.
  rewrite (shl_align_fst mx ex (Z.min ex em)) by lia.
  rewrite (shl_align_fst mm em (Z.min ex em)) by lia.
  unfold SFltb, SFcompare in Hc.
  change (Pos.compare_cont Eq mx mm) with (Pos.compare mx mm) in Hc.
  destruct (Z.compare_spec ex em) as [He|He|He].
  - subst em. rewrite Z.min_id, Z.sub_diag, Z.pow_0_r, !Z.mul_1_r.
    destruct sx, sm; cbn [cond_Zopp negb] in *; try discriminate; try lia;
      destruct (Pos.compare_spec mx mm); cbn in Hc; try discriminate; lia.
  - rewrite Z.min_l by lia. rewrite Z.sub_diag, Z.pow_0_r, Z.mul_1_r.
    pose proof (canonical_exp_lt mm em mx ex Hm Hx He).
    destruct sx, sm; cbn [cond_Zopp negb] in *; try discriminate; lia.
  - rewrite Z.min_r by lia. rewrite Z.sub_diag, Z.pow_0_r, Z.mul_1_r.
    pose proof (canonical_exp_lt mx ex mm em Hx Hm He).
    destruct sx, sm; cbn [cond_Zopp negb] in *; try discriminate; lia.
Qed.

(** [x - m] is not below zero when [x] is not below [m]. *)
Lemma sub_min_nonneg (x m : float) :
  Dbl.finite x = true -> Dbl.finite m = true ->
  (x <? m)%float = false -> (x + - m <? 0)%float = false.
Proof.
  intros Hx Hm. rewrite !ltb_spec, add_spec, opp_spec.
  change (Prim2SF 0) with (S754_zero false).
  pose proof (Prim2SF_valid x) as Vx. pose proof (Prim2SF_valid m) as Vm.
  unfold Dbl.finite in Hx, Hm.
  destruct (Prim2SF x) as [sx|sx| |sx mx ex]; try discriminate;
    destruct (Prim2SF m) as [sm|sm| |sm mm em]; try discriminate;
    intros Hc; unfold SF64add, SFadd, SFopp.
  - destruct sx, sm; reflexivity.
  - destruct sm; [reflexivity|discriminate Hc].
  - destruct sx; [discriminate Hc|reflexivity].
  - apply binary_normalize_nonneg.
    apply aligned_difference_nonneg; assumption.
Qed.

End DoubleFloor.

(** ** Doubles: sums of finite values *)

Section DoubleSum.
Local Open Scope Z_scope.

Lemma shr_1_nonneg mrs : 0 <= shr_m mrs -> 0 <= shr_m (shr_1 mrs).
Proof.
  destruct mrs as [m r s]. destruct m as [|[p|p|]|[p|p|]]; cbn; lia.
Qed.

Lemma shr_fexp_nonneg m e l : 0 <= m -> 0 <= shr_m (fst (shr_fexp prec emax m e l)).
Proof.
  intros Hm. unfold shr_fexp, shr.
  assert (H0 : 0 <= shr_m (shr_record_of_loc m l))
    by (destruct l as [|[| |]]; exact Hm).
  destruct (fexp prec emax (Zdigits2 m + e) - e) as [|p|p]; cbn [fst]; try exact H0.
  rewrite iter_pos_iter. apply Pos.iter_invariant; [|exact H0].
  intros x Hx. apply shr_1_nonneg, Hx.
Qed.

Lemma round_nearest_even_nonneg m l : 0 <= m -> 0 <= round_nearest_even m l.
Proof.
  intros Hm. unfold round_nearest_even.
  destruct l as [|[| |]]; try lia. destruct (Z.even m); lia.
Qed.

Lemma binary_round_aux_not_nan s m e l :
  0 <= m -> binary_round_aux prec emax s m e l <> S754_nan.
Proof.
  intros Hm. unfold binary_round_aux.
  pose proof (shr_fexp_nonneg m e l Hm) as H1.
  destruct (shr_fexp prec emax m e l) as [mrs' e']. cbn [fst] in H1.
  pose proof (shr_fexp_nonneg _ e' loc_Exact
                (round_nearest_even_nonneg (shr_m mrs') (loc_of_shr_record mrs') H1)) as H2.
  destruct (shr_fexp prec emax _ e' loc_Exact) as [mrs'' e'']. cbn [fst] in H2.
  destruct (shr_m mrs'') as [|q|q]; try discriminate; [|lia].
  destruct (e'' <=? emax - prec); discriminate.
Qed.

Lemma binary_normalize_not_nan S e sz : binary_normalize prec emax S e sz <> S754_nan.
Proof.
  destruct S as [|p|p]; cbn [binary_normalize]; try discriminate;
    unfold binary_round; destruct (shl_align p e _) as [mz ez];
    apply binary_round_aux_not_nan; lia.
Qed.

Lemma add_opp_not_nan (x m : float) :
  Dbl.finite x = true -> Dbl.finite m = true -> is_nan (x + - m)%float = false.
Proof.
  intros Hx Hm. destruct (is_nan (x + - m)%float) eqn:E; [|reflexivity].
  rewrite is_nan_self_differs in E. apply self_differs_nan in E.
  apply (f_equal Prim2SF) in E. rewrite add_spec, opp_spec in E.
  change (Prim2SF nan) with S754_nan in E.
  unfold Dbl.finite in Hx, Hm.
  destruct (Prim2SF x) as [sx|sx| |sx mx ex]; try discriminate;
    destruct (Prim2SF m) as [sm|sm| |sm mm em]; try discriminate;
    unfold SF64add, SFadd, SFopp in E; cbv beta iota in E.
  - destruct sx, sm; discriminate.
  - exfalso. exact (binary_normalize_not_nan _ _ _ E).
Qed.

Lemma leb_antisym_eqb (a b : float) :
  (a <? b)%float = false -> (b <? a)%float = false ->
  is_nan a = false -> is_nan b = false -> (a =? b)%float = true.
Proof.
  intros H1 H2 Ha Hb. apply is_nan_Prim2SF in Ha. apply is_nan_Prim2SF in Hb.
  revert H1 H2. rewrite !ltb_spec, eqb_spec. unfold SFltb, SFeqb.
  rewrite (SFcompare_swap (Prim2SF a) (Prim2SF b)).
  destruct (Prim2SF a) as [s1|s1| |s1 m1 e1]; try congruence;
    destruct (Prim2SF b) as [s2|s2| |s2 m2 e2]; try congruence;
    match goal with
    | |- context [SFcompare ?u ?v] => destruct (SFcompare u v) as [[| |]|] eqn:E
    end; cbn; try discriminate; try reflexivity;
    try destruct s1; try destruct s2; discriminate E.
Qed.

End DoubleSum.

(** ** The Lattice Solver *)

Section Solver.
Local Open Scope float_scope.

(** The six tests that close [calibration_get_factors], on any record:
    they leave the scale factors alone and only ever raise a flag. *)
Lemma warning_tests (a : ThresholdArgs) (t1 t2 t3 t6 : bool) :
  let a1 := if t1 then set_Xwarning a true else a in
  let a2 := if t2 then set_Ywarning a1 true else a1 in
  let a3 := if t3 then set_Xwarning a2 true else a2 in
  let a4 := if Dbl.ne (Xscale a3) (Xscale a3) then set_Xwarning a3 true else a3 in
  let a5 := if Dbl.ne (Yscale a4) (Yscale a4) then set_Ywarning a4 true else a4 in
  let a6 := if t6 then set_Ywarning (set_Xwarning a5 true) true else a5 in
  Xscale a6 = Xscale a /\ Yscale a6 = Yscale a /\
  Xwarning a6 = Xwarning a || t1 || t3 || Dbl.ne (Xscale a) (Xscale a) || t6 /\
  Ywarning a6 = Ywarning a || t2 || Dbl.ne (Yscale a) (Yscale a) || t6.
Proof.
  destruct a as [lo up la xs ys xw yw zm]. cbv zeta.
  destruct t1, t2, t3; cbn [Xscale Yscale Xwarning Ywarning set_Xwarning set_Ywarning];
    destruct (Dbl.ne xs xs);
    cbn [Xscale Yscale Xwarning Ywarning set_Xwarning set_Ywarning];
    destruct (Dbl.ne ys ys);
    cbn [Xscale Yscale Xwarning Ywarning set_Xwarning set_Ywarning];
    destruct t6, xw, yw; cbn; auto.
Qed.

(** What [calibration_get_factors] leaves in the four result fields. *)
Lemma get_factors_fields controls :
  let x1 := peak_x (p0 controls) in
  let y1 := peak_y (p0 controls) in
  let x2 := peak_x (p1 controls) in
  let y2 := peak_y (p1 controls) in
  let xs := 1 / Spec.xcorr x1 y1 x2 y2 (lattice (args controls)) in
  let ys := 1 / Spec.ycorr x1 y1 x2 y2 (lattice (args controls)) in
  let a' := args (calibration_get_factors controls) in
  Xscale a' = xs /\ Yscale a' = ys /\
  Xwarning a' = (Spec.sq x1 =? Spec.sq x2) || (Spec.sq x1 =? 0)
                || Dbl.ne xs xs
                || (Spec.sq x1 * Spec.sq y2 =? Spec.sq x2 * Spec.sq y1) /\
  Ywarning a' = (Spec.sq y1 =? Spec.sq y2)
                || Dbl.ne ys ys
                || (Spec.sq x1 * Spec.sq y2 =? Spec.sq x2 * Spec.sq y1).
Proof.
  cbv zeta. unfold calibration_get_factors. cbv zeta. cbn [args set_args].
  match goal with
  | |- Xscale (if ?t6 then _ else
                 if _ then _ else
                   if _ then _ else
                     if ?t3 then _ else
                       if ?t2 then _ else if ?t1 then _ else ?a) = _ /\ _ =>
    pose proof (warning_tests a t1 t2 t3 t6) as H
  end.
  cbv zeta in H. exact H.
Qed.

(** The same fields of the session are read and nothing else is changed. *)
Lemma get_factors_frame controls :
  let c' := calibration_get_factors controls in
  p0 c' = p0 controls /\ p1 c' = p1 controls /\
  selection c' = selection controls /\ ofield c' = ofield controls /\
  lattice (args c') = lattice (args controls).
Proof.
  cbv zeta. unfold calibration_get_factors. cbv zeta.
  cbn [p0 p1 selection ofield set_args args].
  repeat split.
  repeat match goal with
         | |- context [if ?b then _ else _] => destruct b
         end; reflexivity.
Qed.

(** C1: the Lattice Solver reads the two peaks held in the session and the
    lattice constant [a], and stores [Xscale = 1 / xcorr] and
    [Yscale = 1 / ycorr], where [R = 2 / (sqrt 3 * a)],
    [ycorr = R * sqrt ((x1^2 - x2^2) / (x1^2 * y2^2 - x2^2 * y1^2))] and
    [xcorr = sqrt ((R^2 - ycorr^2 * y1^2) / x1^2)]; for the triangle
    [(3, 1)], [(1, 3)] both scale factors are finite and positive (and no
    warning is raised), with the default lattice constant and with
    0.246 nm. *)
Theorem C1_lattice_solver_formulas :
  (forall controls : ThresholdControls,
      let x1 := peak_x (p0 controls) in
      let y1 := peak_y (p0 controls) in
      let x2 := peak_x (p1 controls) in
      let y2 := peak_y (p1 controls) in
      let a := lattice (args controls) in
      let c' := calibration_get_factors controls in
      Xscale (args c') = 1 / Spec.xcorr x1 y1 x2 y2 a /\
      Yscale (args c') = 1 / Spec.ycorr x1 y1 x2 y2 a)
  /\
  (let a' := args (calibration_get_factors Sample.triangle) in
   peak_x (p0 Sample.triangle) = 3 /\ peak_y (p0 Sample.triangle) = 1 /\
   peak_x (p1 Sample.triangle) = 1 /\ peak_y (p1 Sample.triangle) = 3 /\
   Dbl.finite (Xscale a') = true /\ Dbl.gt (Xscale a') 0 = true /\
   Dbl.finite (Yscale a') = true /\ Dbl.gt (Yscale a') 0 = true /\
   Xwarning a' = false /\ Ywarning a' = false)
  /\
  (let a' := args (calibration_get_factors Sample.triangle_graphene) in
   Dbl.finite (Xscale a') = true /\ Dbl.gt (Xscale a') 0 = true /\
   Dbl.finite (Yscale a') = true /\ Dbl.gt (Yscale a') 0 = true /\
   Xwarning a' = false /\ Ywarning a' = false).
Proof.
  split; [|split].
  - intros controls. cbv zeta.
    destruct (get_factors_fields controls) as (HX & HY & _).
    split; assumption.
  - cbv zeta. repeat split; vm_compute; reflexivity.
  - cbv zeta. repeat split; vm_compute; reflexivity.
Qed.

(** A peak pair with the same x coordinate always raises the X warning:
    either the squares compare equal, or they are NaN and so is [Xscale]. *)
Lemma same_x_warns controls :
  peak_x (p0 controls) = peak_x (p1 controls) ->
  Xwarning (args (calibration_get_factors controls)) = true.
Proof.
  intros Hx.
  destruct (get_factors_fields controls) as (_ & _ & HW & _).
  cbv zeta in HW. rewrite HW. clear HW. rewrite <- Hx.
  set (x1 := peak_x (p0 controls)).
  destruct (Spec.sq x1 =? Spec.sq x1) eqn:E; [reflexivity|].
  assert (Hn : Spec.sq x1 = nan).
  { apply self_differs_nan. unfold Dbl.ne. rewrite E. reflexivity. }
  unfold Spec.xcorr. rewrite Hn, div_nan_r.
  change (Dbl.ne (1 / sqrt nan) (1 / sqrt nan)) with true.
  rewrite orb_true_r. reflexivity.
Qed.

(** C2: after the Lattice Solver, [Xwarning] holds exactly when
    [x1^2 == x2^2], or [x1^2 == 0], or [Xscale] is NaN, or
    [x1^2 * y2^2 == x2^2 * y1^2]; [Ywarning] holds exactly when
    [y1^2 == y2^2], or [Yscale] is NaN, or [x1^2 * y2^2 == x2^2 * y1^2];
    [x1 = x2] raises [Xwarning]; and whether the OK button applies the
    calibration, and with what result, does not depend on the warnings. *)
Theorem C2_warning_policy :
  (forall controls : ThresholdControls,
      let x1 := peak_x (p0 controls) in
      let y1 := peak_y (p0 controls) in
      let x2 := peak_x (p1 controls) in
      let y2 := peak_y (p1 controls) in
      let a' := args (calibration_get_factors controls) in
      Xwarning a' = (Spec.sq x1 =? Spec.sq x2) || (Spec.sq x1 =? 0)
                    || is_nan (Xscale a')
                    || (Spec.sq x1 * Spec.sq y2 =? Spec.sq x2 * Spec.sq y1) /\
      Ywarning a' = (Spec.sq y1 =? Spec.sq y2)
                    || is_nan (Yscale a')
                    || (Spec.sq x1 * Spec.sq y2 =? Spec.sq x2 * Spec.sq y1))
  /\
  (forall controls : ThresholdControls,
      peak_x (p0 controls) = peak_x (p1 controls) ->
      Xwarning (args (calibration_get_factors controls)) = true)
  /\
  (forall (lib : GwyLib) (controls : ThresholdControls) (xw yw : bool),
      dialog_response_ok
        (set_args controls (set_Ywarning (set_Xwarning (args controls) xw) yw))
      = dialog_response_ok controls).
Proof.
  split; [|split].
  - intros controls. cbv zeta.
    destruct (get_factors_fields controls) as (HX & HY & HXW & HYW).
    cbv zeta in *. rewrite !is_nan_self_differs, HX, HY. split; assumption.
  - exact same_x_warns.
  - intros lib controls xw yw. destruct controls as [a r o f d df v s q0 q1 rp mg].
    destruct a. reflexivity.
Qed.

End Solver.

(** ** Manual entries and the reset of the scale factors *)

Section Entries.
Local Open Scope float_scope.
Context {lib : GwyLib}.

Lemma preview_args controls : args (preview controls) = args controls.
Proof. reflexivity. Qed.

Lemma set_Xscale_same a : set_Xscale a (Xscale a) = a.
Proof. destruct a; reflexivity. Qed.

Lemma set_Yscale_same a : set_Yscale a (Yscale a) = a.
Proof. destruct a; reflexivity. Qed.

Lemma set_args_same controls : set_args controls (args controls) = controls.
Proof. destruct controls; reflexivity. Qed.

Lemma leb_zero_not_gt num : (num <=? 0) = true -> Dbl.gt num 0 = false.
Proof. unfold Dbl.gt. apply leb_not_ltb. Qed.

Lemma xscale_changed_positive controls num :
  Dbl.gt num 0 = true ->
  xscale_changed controls num = set_args controls (set_Xscale (args controls) num).
Proof.
  intros Hpos. unfold xscale_changed. rewrite Hpos, andb_true_r.
  unfold Dbl.ne. destruct (num =? Xscale (args controls)) eqn:E; [|reflexivity].
  cbn [negb]. apply eqb_pos_eq in E; [|exact Hpos].
  rewrite E, set_Xscale_same, set_args_same. reflexivity.
Qed.

Lemma yscale_changed_positive controls num :
  Dbl.gt num 0 = true ->
  yscale_changed controls num = set_args controls (set_Yscale (args controls) num).
Proof.
  intros Hpos. unfold yscale_changed. rewrite Hpos, andb_true_r.
  unfold Dbl.ne. destruct (num =? Yscale (args controls)) eqn:E; [|reflexivity].
  cbn [negb]. apply eqb_pos_eq in E; [|exact Hpos].
  rewrite E, set_Yscale_same, set_args_same. reflexivity.
Qed.

(** C8: a manually entered scale factor that is positive becomes the
    stored [Xscale] (or [Yscale]), whatever else the session holds; one
    that is zero or negative leaves the whole session as it was. *)
Theorem C8_manual_scale_entry :
  forall (controls : ThresholdControls) (num : float),
    (Dbl.gt num 0 = true ->
     xscale_changed controls num
     = set_args controls (set_Xscale (args controls) num) /\
     Xscale (args (xscale_changed controls num)) = num /\
     yscale_changed controls num
     = set_args controls (set_Yscale (args controls) num) /\
     Yscale (args (yscale_changed controls num)) = num)
    /\
    ((num <=? 0) = true ->
     xscale_changed controls num = controls /\
     yscale_changed controls num = controls).
Proof.
  intros controls num. split.
  - intros Hpos.
    rewrite (xscale_changed_positive controls num Hpos),
            (yscale_changed_positive controls num Hpos).
    repeat split.
  - intros Hle. apply leb_zero_not_gt in Hle.
    unfold xscale_changed, yscale_changed. rewrite Hle, !andb_false_r. split; reflexivity.
Qed.

(** C10: when the scale update runs on a selection of fewer than two
    points, the stored scale factors become 0 and both warnings are
    cleared; clearing the points does just that. *)
Theorem C10_reset_without_two_points :
  forall controls : ThresholdControls,
    (length (selection controls) < 2)%nat ->
    let a' := args (calibrate_update_scales controls) in
    let a'' := args (clear_points controls) in
    (Xscale a' = 0 /\ Yscale a' = 0 /\ Xwarning a' = false /\ Ywarning a' = false)
    /\
    (Xscale a'' = 0 /\ Yscale a'' = 0 /\ Xwarning a'' = false /\ Ywarning a'' = false
     /\ selection (clear_points controls) = []).
Proof.
  intros controls Hlen. cbv zeta. unfold clear_points, calibrate_update_scales.
  cbn [selection set_selection gwy_selection_clear].
  unfold gwy_selection_is_full, max_objects. cbn [length].
  replace (length (selection controls) =? 2)%nat with false
    by (symmetry; apply Nat.eqb_neq; lia).
  cbn. repeat split.
Qed.

(** What the two clamp entries store, by the three tests of the code. *)
Lemma threshold_lower_changed_lower controls value :
  let num := value * magnitude controls in
  let r := ranges controls in
  lower (args (threshold_lower_changed controls value))
  = if Dbl.ge num (range_min r) && (num <=? range_max r) then num
    else if num <? range_min r then range_min r
         else if Dbl.gt num (range_max r) then range_max r
              else lower (args controls).
Proof.
  cbv zeta. unfold threshold_lower_changed. cbv zeta. rewrite preview_args.
  destruct (Dbl.ge _ _ && _); [reflexivity|].
  destruct (_ <? _); [reflexivity|].
  destruct (Dbl.gt _ _); reflexivity.
Qed.

Lemma threshold_upper_changed_upper controls value :
  let num := value * magnitude controls in
  let r := ranges controls in
  upper (args (threshold_upper_changed controls value))
  = if Dbl.ge num (range_min r) && (num <=? range_max r) then num
    else if num <? range_min r then range_min r
         else if Dbl.gt num (range_max r) then range_max r
              else upper (args controls).
Proof.
  cbv zeta. unfold threshold_upper_changed. cbv zeta. rewrite preview_args.
  destruct (Dbl.ge _ _ && _); [reflexivity|].
  destruct (_ <? _); [reflexivity|].
  destruct (Dbl.gt _ _); reflexivity.
Qed.

(** The three tests on a number, over a range with [lo <= hi]. *)
Lemma clamp_tests lo hi num prior :
  (lo <=? hi) = true ->
  (if Dbl.ge num lo && (num <=? hi) then num
   else if num <? lo then lo
        else if Dbl.gt num hi then hi else prior)
  = if is_nan num then prior else clamp_sample lo hi num.
Proof.
  intros Hr. unfold clamp_sample, Dbl.ge, Dbl.gt.
  destruct (cmp_true_not_nan lo hi (or_intror Hr)) as (Hlo & Hhi).
  destruct (is_nan num) eqn:Hn.
  - destruct (is_nan_cmp_false num lo Hn) as (A & _ & _ & D).
    destruct (is_nan_cmp_false num hi Hn) as (_ & B & _ & _).
    rewrite A, B, D. reflexivity.
  - destruct (num <? lo) eqn:E1.
    + rewrite (ltb_not_leb num lo E1). reflexivity.
    + rewrite (not_ltb_leb num lo Hn Hlo E1). cbn [andb].
      destruct (hi <? num) eqn:E2.
      * rewrite (ltb_not_leb hi num E2). reflexivity.
      * rewrite (not_ltb_leb hi num Hhi Hn E2). reflexivity.
Qed.

(** C9, as the code has it: over a data range [[min, max]] an entry that
    parses to a number is stored when it lies inside the range and is
    replaced by [min] below it and by [max] above it, so such an entry is
    never rejected; an entry that parses to NaN is ignored and the prior
    bound is kept. *)
Theorem C9_clamp_entry :
  forall (controls : ThresholdControls) (value : float),
    let num := value * magnitude controls in
    let lo := range_min (ranges controls) in
    let hi := range_max (ranges controls) in
    let lower' := lower (args (threshold_lower_changed controls value)) in
    let upper' := upper (args (threshold_upper_changed controls value)) in
    (lo <=? hi) = true ->
    (is_nan num = false ->
     lower' = clamp_sample lo hi num /\ upper' = clamp_sample lo hi num)
    /\
    (Dbl.ge num lo = true -> (num <=? hi) = true -> lower' = num /\ upper' = num)
    /\
    ((num <? lo) = true -> lower' = lo /\ upper' = lo)
    /\
    (Dbl.gt num hi = true -> lower' = hi /\ upper' = hi)
    /\
    (is_nan num = true ->
     lower' = lower (args controls) /\ upper' = upper (args controls)).
Proof.
  intros controls value num lo hi lower' upper' Hr.
  assert (HL : lower' = if is_nan num then lower (args controls)
                        else clamp_sample lo hi num).
  { unfold lower'. rewrite threshold_lower_changed_lower. cbv zeta.
    apply clamp_tests. exact Hr. }
  assert (HU : upper' = if is_nan num then upper (args controls)
                        else clamp_sample lo hi num).
  { unfold upper'. rewrite threshold_upper_changed_upper. cbv zeta.
    apply clamp_tests. exact Hr. }
  rewrite HL, HU. clear HL HU.
  split; [|split; [|split; [|split]]].
  - intros Hn. rewrite Hn. split; reflexivity.
  - unfold Dbl.ge. intros H1 H2.
    destruct (cmp_true_not_nan num hi (or_intror H2)) as (Hn & _). rewrite Hn.
    unfold clamp_sample, Dbl.gt.
    rewrite (leb_not_ltb lo num H1), (leb_not_ltb num hi H2). split; reflexivity.
  - intros H1.
    destruct (cmp_true_not_nan num lo (or_introl H1)) as (Hn & _). rewrite Hn.
    unfold clamp_sample. rewrite H1. split; reflexivity.
  - unfold Dbl.gt. intros H1.
    destruct (cmp_true_not_nan hi num (or_introl H1)) as (_ & Hn). rewrite Hn.
    unfold clamp_sample, Dbl.gt. rewrite H1.
    rewrite (leb_not_ltb lo num (ltb_leb lo num (leb_ltb_trans lo hi num Hr H1))).
    split; reflexivity.
  - intros Hn. rewrite Hn. split; reflexivity.
Qed.

End Entries.

Section EntriesExamples.
Local Open Scope float_scope.
#[local] Existing Instance Sample.plain_lib.

Lemma C10_reset_witness :
  (length (selection Sample.one_point) < 2)%nat /\
  Xscale (args (calibrate_update_scales Sample.one_point)) = 0.
Proof.
  assert (H : (length (selection Sample.one_point) < 2)%nat) by (cbn; lia).
  split; [exact H|].
  exact (proj1 (proj1 (C10_reset_without_two_points Sample.one_point H))).
Defined.

Lemma C9_clamp_entry_witness :
  (range_min (ranges Sample.clamped) <=? range_max (ranges Sample.clamped)) = true /\
  lower (args (threshold_lower_changed Sample.clamped 12)) = 10 /\
  upper (args (threshold_upper_changed Sample.clamped (-3))) = 0.
Proof.
  assert (H : (range_min (ranges Sample.clamped)
               <=? range_max (ranges Sample.clamped)) = true) by reflexivity.
  split; [exact H|]. split.
  - exact (proj1 (proj1 (C9_clamp_entry Sample.clamped 12 H) eq_refl)).
  - exact (proj2 (proj1 (C9_clamp_entry Sample.clamped (-3) H) eq_refl)).
Defined.

(** C9 as stated fails on the entry "nan": with bounds 5 and 7 over the
    data range [[0, 10]] the entry is neither stored nor clamped, the lower
    bound stays 5 and the upper bound stays 7. *)
Lemma C9_nan_entry_is_rejected :
  is_nan (nan * magnitude Sample.clamped) = true /\
  range_min (ranges Sample.clamped) = 0 /\
  range_max (ranges Sample.clamped) = 10 /\
  lower (args (threshold_lower_changed Sample.clamped nan)) = 5 /\
  upper (args (threshold_upper_changed Sample.clamped nan)) = 7.
Proof. repeat split. Qed.

End EntriesExamples.

(** ** The Peak Locator *)

Section PeakLocator.
Local Open Scope Z_scope.

Lemma In_Zrange lo hi k : In k (Zrange lo hi) <-> lo <= k < hi.
Proof.
  unfold Zrange. rewrite in_map_iff. split.
  - intros (n & <- & Hn). apply in_seq in Hn. lia.
  - intros H. exists (Z.to_nat (k - lo)). split; [lia|]. apply in_seq. lia.
Qed.

Lemma Zrange_nil lo hi : hi <= lo -> Zrange lo hi = [].
Proof.
  intros H. unfold Zrange. replace (Z.to_nat (hi - lo)) with O by lia. reflexivity.
Qed.

Lemma clamp_lo c r : (if c - r <? 0 then 0 else c - r) = Spec.window_lo c r.
Proof. unfold Spec.window_lo. destruct (Z.ltb_spec (c - r) 0); lia. Qed.

Lemma clamp_hi c r res : (if c + r >? res then res else c + r) = Spec.window_hi c r res.
Proof.
  unfold Spec.window_hi. rewrite Z.gtb_ltb. destruct (Z.ltb_spec res (c + r)); lia.
Qed.

Lemma fold_left_flat_map {A B C : Type} (f : A -> C -> A) (g : B -> list C) l a :
  fold_left f (flat_map g l) a = fold_left (fun a x => fold_left f (g x) a) l a.
Proof.
  revert a. induction l as [|x l IH]; intros a; [reflexivity|].
  cbn [flat_map fold_left]. rewrite fold_left_app. apply IH.
Qed.

Lemma fold_left_map' {A B C : Type} (f : A -> C -> A) (h : B -> C) l a :
  fold_left f (map h l) a = fold_left (fun a x => f a (h x)) l a.
Proof.
  revert a. induction l as [|x l IH]; intros a; [reflexivity|]. cbn. apply IH.
Qed.

Lemma fold_left_ext' {A B : Type} (f g : A -> B -> A) l a :
  (forall a x, f a x = g a x) -> fold_left f l a = fold_left g l a.
Proof.
  intros H. revert a. induction l as [|x l IH]; intros a; [reflexivity|].
  cbn. rewrite H. apply IH.
Qed.

(** The two nested loops of [peak_find] visit the window column by column. *)
Lemma peak_scan_column_major d col row r :
  peak_scan d col row r
  = Spec.first_maximum d (col, row) (Spec.cells_column_major d col row r).
Proof.
  unfold peak_scan, Spec.first_maximum, Spec.cells_column_major, Spec.sample.
  cbv zeta. rewrite !clamp_lo, !clamp_hi. cbn [fst snd].
  rewrite fold_left_flat_map. apply fold_left_ext'. intros b i.
  unfold scan_column. rewrite fold_left_map'. reflexivity.
Qed.

Lemma in_cells_column_major d col row r cell :
  In cell (Spec.cells_column_major d col row r) <-> Spec.in_window d col row r cell.
Proof.
  unfold Spec.cells_column_major, Spec.in_window. rewrite in_flat_map. split.
  - intros (i & Hi & Hc). apply in_map_iff in Hc as (j & <- & Hj).
    apply In_Zrange in Hi. apply In_Zrange in Hj. cbn. lia.
  - intros (Hi & Hj). exists (fst cell). split; [apply In_Zrange; lia|].
    apply in_map_iff. exists (snd cell). split; [destruct cell; reflexivity|].
    apply In_Zrange. lia.
Qed.

Lemma in_cells_row_major d col row r cell :
  In cell (Spec.cells_row_major d col row r) <-> Spec.in_window d col row r cell.
Proof.
  unfold Spec.cells_row_major, Spec.in_window. rewrite in_flat_map. split.
  - intros (j & Hj & Hc). apply in_map_iff in Hc as (i & <- & Hi).
    apply In_Zrange in Hi. apply In_Zrange in Hj. cbn. lia.
  - intros (Hi & Hj). exists (snd cell). split; [apply In_Zrange; lia|].
    apply in_map_iff. exists (fst cell). split; [destruct cell; reflexivity|].
    apply In_Zrange. lia.
Qed.

(** With radius 0 both loops are empty. *)
Lemma peak_scan_radius_0 d col row :
  peak_scan d col row 0 = mkBest col row (gwy_data_field_get_val d col row).
Proof.
  unfold peak_scan. cbv zeta. rewrite !clamp_lo, !clamp_hi.
  rewrite (Zrange_nil (Spec.window_lo col 0) (Spec.window_hi col 0 (xres d)))
    by (unfold Spec.window_lo, Spec.window_hi; lia).
  reflexivity.
Qed.

(** What tracking the maximum yields over any scan order: the winner is a
    scanned pixel holding the value returned, no pixel scanned before it
    holds a value that is [>=] the winner's, and no scanned pixel holds a
    value that is [>] it. *)
Lemma first_maximum_spec d start cells :
  let b := Spec.first_maximum d start cells in
  let scanned := start :: cells in
  exists k : nat,
    nth_error scanned k = Some (temp_i b, temp_j b) /\
    temp_z b = Spec.sample d (temp_i b, temp_j b) /\
    (forall k' c, (k' < k)%nat -> nth_error scanned k' = Some c ->
                  (temp_z b <=? Spec.sample d c)%float = false) /\
    (forall c, In c scanned -> (temp_z b <? Spec.sample d c)%float = false).
Proof.
  cbv zeta. induction cells as [|c cells IH] using rev_ind.
  - exists O. unfold Spec.first_maximum. cbn [fold_left temp_i temp_j temp_z].
    split; [|split; [|split]].
    + destruct start; reflexivity.
    + reflexivity.
    + intros k' c Hk. lia.
    + intros c [<-|[]]. apply ltb_irrefl.
  - destruct IH as (k & Hk & Hz & Hbefore & Hmax).
    unfold Spec.first_maximum in *. rewrite fold_left_app. cbn [fold_left].
    set (b := fold_left _ cells _) in *.
    assert (Hlen : (k < length (start :: cells))%nat)
      by (apply nth_error_Some; congruence).
    set (b' := scan_cell d (fst c) b (snd c)).
    assert (Hb' : b' = if (temp_z b <? Spec.sample d c)%float
                       then mkBest (fst c) (snd c) (Spec.sample d c) else b)
      by reflexivity.
    clearbody b'. destruct (temp_z b <? Spec.sample d c)%float eqn:Hgt; subst b'.
    + (* the new pixel wins *)
      exists (length (start :: cells)). cbn [temp_i temp_j temp_z].
      assert (Hall : forall e, In e (start :: cells) ->
                               (Spec.sample d c <=? Spec.sample d e)%float = false).
      { intros e He. destruct (Spec.sample d c <=? Spec.sample d e)%float eqn:E;
          [|reflexivity].
        rewrite <- (Hmax e He). symmetry.
        exact (ltb_leb_trans _ _ _ Hgt E). }
      split; [|split; [|split]].
      * change (start :: cells ++ [c]) with ((start :: cells) ++ [c]).
        rewrite nth_error_app2 by lia. rewrite Nat.sub_diag.
        destruct c; reflexivity.
      * destruct c; reflexivity.
      * intros k' e Hk' He.
        change (start :: cells ++ [c]) with ((start :: cells) ++ [c]) in He.
        rewrite nth_error_app1 in He by exact Hk'.
        apply Hall. eapply nth_error_In; eassumption.
      * intros e He.
        change (start :: cells ++ [c]) with ((start :: cells) ++ [c]) in He.
        apply in_app_or in He as [He|[<-|[]]].
        -- destruct (Spec.sample d c <? Spec.sample d e)%float eqn:E; [|reflexivity].
           apply ltb_leb in E. rewrite (Hall e He) in E. discriminate.
        -- apply ltb_irrefl.
    + (* the running maximum stays *)
      exists k. split; [|split; [|split]].
      * change (start :: cells ++ [c]) with ((start :: cells) ++ [c]).
        rewrite nth_error_app1 by exact Hlen. exact Hk.
      * exact Hz.
      * intros k' e Hk' He.
        change (start :: cells ++ [c]) with ((start :: cells) ++ [c]) in He.
        rewrite nth_error_app1 in He by lia.
        eapply Hbefore; eassumption.
      * intros e He.
        change (start :: cells ++ [c]) with ((start :: cells) ++ [c]) in He.
        apply in_app_or in He as [He|[<-|[]]]; [apply Hmax; exact He|exact Hgt].
Qed.

(** C4, as the code has it: for every spectral image, pixel [(col0, row0)]
    and radius [r], the Peak Locator scans exactly the half-open window
    [[col0-r, col0+r) x [row0-r, row0+r)] clamped to the image bounds (only
    the starting pixel when [r = 0]) and returns the maximum sample found,
    starting from the sample at [(col0, row0)]; ties go to the starting
    pixel, and otherwise to the pixel met first in column-major order
    (columns ascending, rows ascending inside a column). *)
Theorem C4_peak_scan_column_major :
  forall (d : GwyDataField) (col row r : Z),
    let b := peak_scan d col row r in
    let cells := Spec.cells_column_major d col row r in
    b = Spec.first_maximum d (col, row) cells /\
    (forall cell, In cell cells <-> Spec.in_window d col row r cell) /\
    (r = 0 -> cells = [] /\ b = mkBest col row (gwy_data_field_get_val d col row)) /\
    (exists k : nat,
        nth_error ((col, row) :: cells) k = Some (temp_i b, temp_j b) /\
        temp_z b = gwy_data_field_get_val d (temp_i b) (temp_j b) /\
        (forall k' c, (k' < k)%nat -> nth_error ((col, row) :: cells) k' = Some c ->
                      Dbl.ge (Spec.sample d c) (temp_z b) = false) /\
        (forall c, In c ((col, row) :: cells) ->
                   Dbl.gt (Spec.sample d c) (temp_z b) = false)).
Proof.
  intros d col row r. cbv zeta. rewrite peak_scan_column_major.
  split; [reflexivity|]. split; [apply in_cells_column_major|]. split.
  - intros ->. split.
    + unfold Spec.cells_column_major.
      rewrite (Zrange_nil (Spec.window_lo col 0) (Spec.window_hi col 0 (xres d)))
        by (unfold Spec.window_lo, Spec.window_hi; lia).
      reflexivity.
    + rewrite <- peak_scan_column_major. apply peak_scan_radius_0.
  - exact (first_maximum_spec d (col, row) (Spec.cells_column_major d col row r)).
Qed.

End PeakLocator.

(** C4 as stated fails: on a spectrum with equal maxima at (column 1, row 0)
    and (column 0, row 1), searched around (1, 1) with radius 1, the code
    returns the pixel (0, 1), the first in column-major order, where a
    row-major scan returns (1, 0). *)
Lemma C4_ties_are_not_row_major :
  peak_scan Sample.two_peaks 1 1 1 = mkBest 0 1 5 /\
  Spec.peak_scan_row_major Sample.two_peaks 1 1 1 = mkBest 1 0 5 /\
  gwy_data_field_get_val Sample.two_peaks 0 1 = 5%float /\
  gwy_data_field_get_val Sample.two_peaks 1 0 = 5%float.
Proof. repeat split. Qed.

Section Refinement.
Local Open Scope float_scope.

Lemma set_p_twice controls idx q : set_p (set_p controls idx q) idx q = set_p controls idx q.
Proof. destruct idx; reflexivity. Qed.

Lemma get_p_set_p controls idx q : get_p (set_p controls idx q) idx = q.
Proof. destruct idx; reflexivity. Qed.

Lemma set_p_frame controls idx q :
  disp_data (set_p controls idx q) = disp_data controls /\
  rpx (set_p controls idx q) = rpx controls /\
  selection (set_p controls idx q) = selection controls /\
  args (set_p controls idx q) = args controls.
Proof. destruct idx; repeat split. Qed.

(** With radius 0 the Peak Locator stores the pixel's own position and
    sample, and leaves the selection alone. *)
Lemma peak_find_radius_0 controls point idx col row :
  rpx controls = 0%Z ->
  Dbl.to_gint (gwy_data_field_rtoj (disp_data controls) (fst point)) = Some col ->
  Dbl.to_gint (gwy_data_field_rtoi (disp_data controls) (snd point)) = Some row ->
  peak_find controls point idx
  = Some (set_p controls idx
                (gwy_data_field_jtor (disp_data controls) (Dbl.of_Z col)
                 + xoff (disp_data controls),
                 gwy_data_field_itor (disp_data controls) (Dbl.of_Z row)
                 + yoff (disp_data controls),
                 gwy_data_field_get_val (disp_data controls) col row)).
Proof.
  intros Hr Hc Hw. unfold peak_find. cbv zeta. rewrite Hc, Hw, Hr.
  rewrite peak_scan_radius_0. cbn [temp_i temp_j temp_z].
  rewrite !Z.sub_diag. reflexivity.
Qed.

(** The cast of a double to [gint] takes the integral part of its value
    towards zero. *)
Lemma SFtrunc_toward_zero x : Dbl.SFtrunc x = Spec.toward_zero x.
Proof.
  destruct x as [s|s| |s m e]; try reflexivity.
  unfold Dbl.SFtrunc, Spec.toward_zero. f_equal.
  destruct (Z.le_gt_cases 0 e) as [He|He].
  - rewrite Z.shiftl_mul_pow2 by exact He.
    rewrite (Z.max_l e 0), (Z.max_r (- e) 0) by lia.
    change (2 ^ 0)%Z with 1%Z. rewrite Z.quot_1_r.
    destruct s; cbn [cond_Zopp]; lia.
  - rewrite <- (Z.opp_involutive e) at 1. rewrite Z.shiftl_opp_r.
    rewrite Z.shiftr_div_pow2 by lia.
    rewrite (Z.max_r e 0), (Z.max_l (- e) 0) by lia.
    change (2 ^ 0)%Z with 1%Z. rewrite Z.mul_1_r.
    assert (Hd : (0 < 2 ^ (- e))%Z) by (apply Z.pow_pos_nonneg; lia).
    destruct s; cbn [cond_Zopp].
    + rewrite Z.quot_opp_l by lia. rewrite Z.quot_div_nonneg by lia. reflexivity.
    + rewrite Z.quot_div_nonneg by lia. reflexivity.
Qed.

(** The cast is defined when that integral part fits 32 bits. *)
Lemma to_gint_toward_zero x n :
  Spec.toward_zero (Prim2SF x) = Some n ->
  (-2147483648 <= n <= 2147483647)%Z ->
  Dbl.to_gint x = Some n.
Proof.
  intros H Hin. unfold Dbl.to_gint. rewrite SFtrunc_toward_zero, H.
  unfold Dbl.to_gint_of.
  replace (Dbl.in_gint n) with true; [reflexivity|].
  symmetry. unfold Dbl.in_gint, Dbl.INT_MIN, Dbl.INT_MAX.
  apply andb_true_intro. split; apply Z.leb_le; lia.
Qed.

(** C7, as the code has it: with radius 0 the Peak Locator returns,
    unchanged, the sample at the pixel whose column and row are the pixel
    coordinates of the point with their fractional parts dropped (towards
    zero, not to the nearest integer), when these fit 32 bits; the
    selection, hence the point, is not moved, and refining the same point
    again yields the same peak triple and the same session. *)
Theorem C7_radius_0_idempotent :
  forall (controls : ThresholdControls) (point : Point) (idx : nat) (col row : Z),
    rpx controls = 0%Z ->
    Spec.toward_zero
      (Prim2SF (gwy_data_field_rtoj (disp_data controls) (fst point))) = Some col ->
    Spec.toward_zero
      (Prim2SF (gwy_data_field_rtoi (disp_data controls) (snd point))) = Some row ->
    (-2147483648 <= col <= 2147483647)%Z ->
    (-2147483648 <= row <= 2147483647)%Z ->
    exists st : ThresholdControls,
      peak_find controls point idx = Some st /\
      peak_z (get_p st idx) = gwy_data_field_get_val (disp_data controls) col row /\
      peak_x (get_p st idx)
      = gwy_data_field_jtor (disp_data controls) (Dbl.of_Z col) + xoff (disp_data controls) /\
      peak_y (get_p st idx)
      = gwy_data_field_itor (disp_data controls) (Dbl.of_Z row) + yoff (disp_data controls) /\
      selection st = selection controls /\
      peak_find st point idx = Some st.
Proof.
  intros controls point idx col row Hr Tc Tw Ic Iw.
  pose proof (to_gint_toward_zero _ _ Tc Ic) as Hc.
  pose proof (to_gint_toward_zero _ _ Tw Iw) as Hw.
  eexists. split; [apply (peak_find_radius_0 controls point idx col row Hr Hc Hw)|].
  rewrite get_p_set_p. cbn [peak_x peak_y peak_z fst snd].
  destruct (set_p_frame controls idx
              (gwy_data_field_jtor (disp_data controls) (Dbl.of_Z col)
               + xoff (disp_data controls),
               gwy_data_field_itor (disp_data controls) (Dbl.of_Z row)
               + yoff (disp_data controls),
               gwy_data_field_get_val (disp_data controls) col row))
    as (Hd & Hr' & Hs & _).
  repeat (split; [reflexivity|]). split; [exact Hs|].
  rewrite (peak_find_radius_0 _ point idx col row); rewrite ?Hd, ?Hr'; try assumption.
  rewrite set_p_twice. reflexivity.
Qed.

End Refinement.

Lemma C7_radius_0_witness :
  rpx Run.near = 0%Z /\
  exists st : ThresholdControls,
    peak_find Run.near (1.75, 0.75)%float 0 = Some st /\
    peak_z (get_p st 0) = 2%float /\
    peak_find st (1.75, 0.75)%float 0 = Some st.
Proof.
  assert (Hr : rpx Run.near = 0%Z) by reflexivity.
  split; [exact Hr|].
  destruct (C7_radius_0_idempotent Run.near (1.75, 0.75)%float 0 1 0 Hr
                                   eq_refl eq_refl ltac:(lia) ltac:(lia))
    as (st & H1 & Hz & _ & _ & _ & H2).
  exists st. split; [exact H1|]. split; [exact Hz|exact H2].
Defined.

(** C7 as stated fails twice.  On a display whose sample at (column 1,
    row 0) is 2 and whose sample at (column 2, row 1) is 5, the point
    (1.75, 0.75) rounds to the pixel (2, 1), yet with radius 0 the Peak
    Locator returns the sample 2 of the pixel (1, 0): with the offsets 1
    and 2 of the display that is the peak (2, 2, 2).  And refining the
    position of that peak gives another peak, (3, 4, 7), the pixel
    (2, 2). *)
Lemma C7_pixel_is_truncated :
  Spec.rounded_pixel Run.steps (1.75, 0.75)%float = (Some 2%Z, Some 1%Z) /\
  gwy_data_field_get_val Run.steps 2 1 = 5%float /\
  gwy_data_field_get_val Run.steps 1 0 = 2%float /\
  Run.refined_once = Some (2, 2, 2)%float /\
  Run.refined_twice = Some (3, 4, 7)%float.
Proof. repeat split; vm_compute; reflexivity. Qed.

(** ** The Display/Zoom Adapter *)

Section Zoom.
Local Open Scope float_scope.
Context {lib : GwyLib}.

Lemma replace_nth_length s i pt : length (replace_nth s i pt) = length s.
Proof.
  revert i. induction s as [|q s IH]; intros [|i]; cbn; try reflexivity.
  rewrite IH. reflexivity.
Qed.




Lemma get_object_Some_lt s i pt :
  gwy_selection_get_object s i = Some pt -> (i < length s)%nat.
Proof. intros H. apply nth_error_Some. unfold gwy_selection_get_object in H. congruence. Qed.

(** [preview] rebuilds the display from the spectrum and the zoom level:
    extents and offsets are those of the spectrum divided by the level. *)
Lemma preview_display controls :
  let c' := preview controls in
  let z := Dbl.of_Z (zoom_value (zoom_mode (args controls))) in
  xreal (disp_data c') = xreal (offt controls) / z /\
  yreal (disp_data c') = yreal (offt controls) / z /\
  xoff (disp_data c') = xoff (offt controls) / z /\
  yoff (disp_data c') = yoff (offt controls) / z /\
  xres (disp_data c') = xres (disp_data controls) /\
  yres (disp_data c') = yres (disp_data controls).
Proof.
  cbv zeta. unfold preview. cbv zeta.
  destruct (zoom_mode (args controls)); repeat split.
Qed.



Lemma reFind_step_skip c n i :
  nth_error (selection c) i = None -> reFind_step (Some (c, n)) i = Some (c, n).
Proof.
  intros H. unfold reFind_step, gwy_selection_get_object. cbn [fst snd].
  rewrite H. reflexivity.
Qed.





Lemma reFind_skip_from c n i :
  (length (selection c) <= i)%nat -> reFind_step (Some (c, n)) i = Some (c, n).
Proof. intros H. apply reFind_step_skip, nth_error_None, H. Qed.





Lemma zoom_adjust_peaks_eq c :
  zoom_adjust_peaks c
  = reFind_Peaks (fst (fold_left zoom_adjust_step [0; 1; 2; 3]%nat (c, O))).
Proof. reflexivity. Qed.

Lemma zoom_mode_changed_eq controls z :
  zoom_mode_changed controls z
  = zoom_adjust_peaks (preview (set_args controls (set_zoom_mode (args controls) z))).
Proof. reflexivity. Qed.


End Zoom.

Section ZoomExamples.
Local Open Scope float_scope.
#[local] Existing Instance Sample.plain_lib.



End ZoomExamples.

(** ** The Calibration Applier *)

Section Applier.
Local Open Scope float_scope.
Context {lib : GwyLib}.

Lemma field_eta d :
  mkField (xres d) (yres d) (xreal d) (yreal d) (xoff d) (yoff d) (data d) = d.
Proof. destruct d; reflexivity. Qed.

(** [calibrate_do] when the rounded Y resolution is a positive [gint]. *)
Lemma calibrate_do_defined controls n :
  (1 <= xres (ofield controls) <= Dbl.INT_MAX)%Z ->
  GWY_ROUND (Dbl.of_Z (yres (ofield controls)) * Yscale (args controls)
             / Xscale (args controls)) = Some n ->
  (0 < n)%Z ->
  exists out,
    calibrate_do controls = Some out /\
    xres out = xres (ofield controls) /\
    yres out = n /\
    xreal out = xreal (ofield controls) * Xscale (args controls) /\
    yreal out = yreal (ofield controls) * Yscale (args controls) /\
    xoff out = xoff (ofield controls) /\ yoff out = yoff (ofield controls).
Proof.
  intros Hx Hr Hn. unfold calibrate_do. cbv zeta.
  rewrite (GWY_ROUND_of_Z (xres (ofield controls)) Hx), Hr.
  unfold gwy_data_field_new_resampled. rewrite Z.eqb_refl. cbn [andb].
  destruct (Z.eqb_spec (yres (ofield controls)) n) as [He|Hne].
  - eexists. split; [reflexivity|]. cbn. repeat split. exact He.
  - replace (0 <? xres (ofield controls))%Z with true by (symmetry; apply Z.ltb_lt; lia).
    replace (0 <? n)%Z with true by (symmetry; apply Z.ltb_lt; lia).
    cbn [andb]. eexists. split; [reflexivity|]. cbn. repeat split.
Qed.

(** [calibrate_do] yields no field when the rounding is undefined. *)
Lemma calibrate_do_undefined controls :
  GWY_ROUND (Dbl.of_Z (yres (ofield controls)) * Yscale (args controls)
             / Xscale (args controls)) = None ->
  calibrate_do controls = None.
Proof.
  intros Hr. unfold calibrate_do. cbv zeta.
  destruct (GWY_ROUND (Dbl.of_Z (xres (ofield controls)))); [|reflexivity].
  rewrite Hr. reflexivity.
Qed.

(** The identity calibration returns the original field. *)
Lemma calibrate_do_identity controls :
  (1 <= xres (ofield controls) <= Dbl.INT_MAX)%Z ->
  (1 <= yres (ofield controls) <= Dbl.INT_MAX)%Z ->
  Xscale (args controls) = 1 -> Yscale (args controls) = 1 ->
  calibrate_do controls = Some (ofield controls).
Proof.
  intros Hx Hy HX HY. unfold calibrate_do. cbv zeta.
  rewrite HX, HY, !mul_1_r, div_1_r.
  rewrite (GWY_ROUND_of_Z _ Hx), (GWY_ROUND_of_Z _ Hy).
  unfold gwy_data_field_new_resampled. rewrite !Z.eqb_refl. cbn [andb].
  unfold gwy_data_field_set_yreal, gwy_data_field_set_xreal.
  cbn [xres yres xreal yreal xoff yoff data].
  rewrite field_eta. reflexivity.
Qed.

(** C3, as the code has it: for every original image and every scale pair
    for which [round (oldYres * Yscale / Xscale)] is a positive [gint], the
    Calibration Applier produces an image with X resolution [oldXres], that
    Y resolution, X extent [oldXreal * Xscale] and Y extent
    [oldYreal * Yscale]; with [Xscale = Yscale = 1.0] it reproduces the
    original image, resolution and extents included. *)
Theorem C3_calibration_applier :
  forall (controls : ThresholdControls),
    (1 <= xres (ofield controls) <= Dbl.INT_MAX)%Z ->
    (1 <= yres (ofield controls) <= Dbl.INT_MAX)%Z ->
    (GWY_ROUND (Dbl.of_Z (xres (ofield controls))) = Some (xres (ofield controls)))
    /\
    (forall n,
        GWY_ROUND (Dbl.of_Z (yres (ofield controls)) * Yscale (args controls)
                   / Xscale (args controls)) = Some n ->
        (0 < n)%Z ->
        exists out,
          calibrate_do controls = Some out /\
          xres out = xres (ofield controls) /\
          yres out = n /\
          xreal out = xreal (ofield controls) * Xscale (args controls) /\
          yreal out = yreal (ofield controls) * Yscale (args controls))
    /\
    (Xscale (args controls) = 1 -> Yscale (args controls) = 1 ->
     calibrate_do controls = Some (ofield controls)).
Proof.
  intros controls Hx Hy. split; [|split].
  - apply GWY_ROUND_of_Z. exact Hx.
  - intros n Hr Hn.
    destruct (calibrate_do_defined controls n Hx Hr Hn)
      as (out & H1 & H2 & H3 & H4 & H5 & _).
    exists out. repeat split; assumption.
  - apply calibrate_do_identity; assumption.
Qed.

End Applier.

Section ApplierExamples.
Local Open Scope float_scope.
#[local] Existing Instance Sample.plain_lib.

Lemma C3_calibration_applier_witness :
  (1 <= xres (ofield Sample.stretched) <= Dbl.INT_MAX)%Z /\
  (1 <= yres (ofield Sample.stretched) <= Dbl.INT_MAX)%Z /\
  exists out, calibrate_do Sample.stretched = Some out /\
              xres out = 4%Z /\ yres out = 8%Z /\ xreal out = 8 /\ yreal out = 16.
Proof.
  assert (Hx : (1 <= xres (ofield Sample.stretched) <= Dbl.INT_MAX)%Z)
    by (cbn; unfold Dbl.INT_MAX; lia).
  assert (Hy : (1 <= yres (ofield Sample.stretched) <= Dbl.INT_MAX)%Z)
    by (cbn; unfold Dbl.INT_MAX; lia).
  split; [exact Hx|]. split; [exact Hy|].
  destruct (proj1 (proj2 (C3_calibration_applier Sample.stretched Hx Hy)) 8%Z
                  eq_refl eq_refl)
    as (out & H1 & H2 & H3 & H4 & H5).
  exists out. repeat split; assumption.
Defined.

(** C3 as stated fails: for the peaks (3, 1) and (3, 2) the Lattice Solver
    gives a finite nonzero [Xscale] and an infinite [Yscale]; the OK
    button then runs [calibrate_do], the rounded Y resolution is no
    integer, and no output image is produced. *)
Lemma C3_no_image_for_infinite_Yscale :
  let c := calibration_get_factors Sample.same_x in
  Dbl.finite (Xscale (args c)) = true /\
  (Xscale (args c) =? 0) = false /\
  Yscale (args c) = infinity /\
  gwy_selection_is_full (selection c) = true /\
  GWY_ROUND (Dbl.of_Z (yres (ofield c)) * Yscale (args c) / Xscale (args c)) = None /\
  calibrate_do c = None /\
  dialog_response_ok c = Some None.
Proof. cbv zeta. repeat split; vm_compute; reflexivity. Qed.

End ApplierExamples.

(** ** The Spectral Transform *)

Section Spectrum.
Local Open Scope float_scope.
Context {lib : GwyLib}.

(** The pointer walk of [set_dfield_modulus] over rasters of [n] samples
    writes the magnitude of every sample. *)
Lemma modulus_loop_spec n : forall re im dat,
  length re = n -> length im = n -> length dat = n ->
  length (modulus_loop n re im dat) = n /\
  forall k, (k < n)%nat ->
            nth k (modulus_loop n re im dat) 0 = hypot (nth k re 0) (nth k im 0).
Proof.
  induction n as [|n IH]; intros re im dat Hre Him Hdat.
  - destruct dat; [|discriminate]. split; [reflexivity|]. intros k Hk. lia.
  - destruct re as [|r re]; [discriminate|].
    destruct im as [|i im]; [discriminate|].
    destruct dat as [|x dat]; [discriminate|].
    cbn [modulus_loop length] in *.
    destruct (IH re im dat ltac:(lia) ltac:(lia) ltac:(lia)) as (Hl & Hn).
    split; [lia|]. intros [|k] Hk; cbn [nth]; [reflexivity|]. apply Hn. lia.
Qed.

(** The running minimum of [gwy_data_field_get_min_max]: the result is
    the start or a sample below it, and no sample is below the result. *)
Lemma fold_min_spec L : forall m0,
  let r := fold_left min_step L m0 in
  (r = m0 \/ (In r L /\ (r <? m0) = true)) /\
  (forall x, In x L -> (x <? r) = false).
Proof.
  induction L as [|a L IH]; intros m0; cbv zeta.
  - cbn. split; [left; reflexivity|]. intros x [].
  - cbn [fold_left]. specialize (IH (min_step m0 a)). cbv zeta in IH.
    set (r := fold_left min_step L (min_step m0 a)) in *.
    destruct IH as (Hr & Hall).
    unfold min_step, Dbl.gt in Hr.
    destruct (a <? m0) eqn:Ea.
    + split.
      * right. destruct Hr as [->|(Hin & Hlt)].
        -- split; [left; reflexivity|exact Ea].
        -- split; [right; exact Hin|exact (ltb_trans _ _ _ Hlt Ea)].
      * intros x [<-|Hx]; [|apply Hall, Hx].
        destruct Hr as [->|(_ & Hlt)]; [apply ltb_irrefl|].
        destruct (a <? r) eqn:E; [|reflexivity].
        pose proof (ltb_not_leb _ _ Hlt) as N. rewrite (ltb_leb _ _ E) in N. discriminate.
    + split.
      * destruct Hr as [->|(Hin & Hlt)]; [left; reflexivity|].
        right. split; [right; exact Hin|exact Hlt].
      * intros x [<-|Hx]; [|apply Hall, Hx].
        destruct Hr as [->|(_ & Hlt)]; [exact Ea|].
        destruct (a <? r) eqn:E; [|reflexivity].
        rewrite (ltb_trans _ _ _ E Hlt) in Ea. discriminate.
Qed.

(** The minimum found over a raster that is not empty is one of its samples
    and no sample is below it. *)
Lemma get_min_spec d :
  data d <> [] ->
  let dmin := fst (gwy_data_field_get_min_max d) in
  In dmin (data d) /\ forall x, In x (data d) -> (x <? dmin) = false.
Proof.
  intros Hne. cbv zeta. unfold gwy_data_field_get_min_max.
  destruct (data d) as [|x L] eqn:E; [congruence|]. cbn [fst].
  destruct (fold_min_spec (x :: L) x) as (Hr & Hall). cbv zeta in Hr, Hall.
  split; [|exact Hall].
  destruct Hr as [->|(Hin & _)]; [left; reflexivity|exact Hin].
Qed.

Lemma fft_postprocess_data d :
  let centred := gwy_data_field_2dfft_humanize (xres d) (yres d) (data d) in
  let dmin := fst (gwy_data_field_get_min_max (set_data d centred)) in
  data (fft_postprocess d) = map (fun x => x + - dmin) centred.
Proof. reflexivity. Qed.

Lemma fft_postprocess_res d :
  xres (fft_postprocess d) = xres d /\ yres (fft_postprocess d) = yres d.
Proof. split; reflexivity. Qed.

(** Subtracting the minimum of finite samples leaves a sample that is 0,
    no sample below 0 and no NaN. *)
Lemma subtract_min_spec (L : list float) (dmin : float) :
  In dmin L -> (forall x, In x L -> (x <? dmin) = false) ->
  Forall (fun x => Dbl.finite x = true) L ->
  let out := map (fun x => x + - dmin) L in
  In 0 out /\
  Forall (fun y => (y <? 0) = false) out /\
  Forall (fun y => is_nan y = false) out.
Proof.
  intros Hin Hmin Hfin. cbv zeta. rewrite Forall_forall in Hfin.
  pose proof (Hfin dmin Hin) as Hfd. split; [|split].
  - apply in_map_iff. exists dmin. split; [apply add_opp_diag, Hfd|exact Hin].
  - apply Forall_forall. intros y Hy. apply in_map_iff in Hy as (x & <- & Hx).
    apply sub_min_nonneg; [apply Hfin, Hx|exact Hfd|apply Hmin, Hx].
  - apply Forall_forall. intros y Hy. apply in_map_iff in Hy as (x & <- & Hx).
    apply add_opp_not_nan; [apply Hfin, Hx|exact Hfd].
Qed.

(** C5: for an input image whose transform has the image's resolution and
    whose re-centred magnitude samples are finite, the Spectral Transform
    returns a field of the same resolution; the magnitude is
    [hypot (real, imag)] sample by sample; and after the global minimum is
    subtracted some sample is 0, no sample is below 0 or NaN, and the
    minimum of the output is 0. *)
Theorem C5_spectral_transform :
  forall (d : GwyDataField),
    let re := fst (gwy_data_field_2dfft d) in
    let im := snd (gwy_data_field_2dfft d) in
    let n := Z.to_nat (xres d * yres d) in
    let modulus := set_dfield_modulus (set_data d re) (set_data d im) d in
    let centred := gwy_data_field_2dfft_humanize (xres d) (yres d) (data modulus) in
    let spectrum := perform_fft d in
    length re = n -> length im = n -> length (data d) = n ->
    centred <> [] ->
    Forall (fun x => Dbl.finite x = true) centred ->
    (xres spectrum = xres d /\ yres spectrum = yres d)
    /\
    (length (data modulus) = n /\
     forall k, (k < n)%nat ->
               nth k (data modulus) 0 = hypot (nth k re 0) (nth k im 0))
    /\
    (length (data spectrum) = length centred /\
     In 0 (data spectrum) /\
     Forall (fun y => (y <? 0) = false) (data spectrum) /\
     (fst (gwy_data_field_get_min_max spectrum) =? 0) = true).
Proof.
  intros d re im n modulus centred spectrum Hre Him Hdat Hne Hfin.
  split; [split; reflexivity|]. split.
  - exact (modulus_loop_spec n re im (data d) Hre Him Hdat).
  - assert (Hdata : data spectrum
                    = map (fun x => x + - fst (gwy_data_field_get_min_max
                                                 (set_data modulus centred)))
                          centred) by reflexivity.
    destruct (get_min_spec (set_data modulus centred) Hne) as (Hin & Hmin).
    cbv zeta in Hin, Hmin. cbn [data set_data] in Hin, Hmin.
    set (dmin := fst (gwy_data_field_get_min_max (set_data modulus centred))) in *.
    destruct (subtract_min_spec centred dmin Hin Hmin Hfin) as (H0 & Hpos & Hnan).
    cbv zeta in H0, Hpos, Hnan. rewrite <- Hdata in H0, Hpos, Hnan.
    split; [rewrite Hdata; apply length_map|]. split; [exact H0|]. split; [exact Hpos|].
    assert (Hne' : data spectrum <> [])
      by (intros E; rewrite E in H0; exact H0).
    destruct (get_min_spec spectrum Hne') as (Hrin & Hrmin). cbv zeta in Hrin, Hrmin.
    rewrite Forall_forall in Hpos, Hnan.
    apply leb_antisym_eqb.
    + apply Hpos, Hrin.
    + apply Hrmin, H0.
    + apply Hnan, Hrin.
    + reflexivity.
Qed.

End Spectrum.

Section SpectrumExamples.
Local Open Scope float_scope.
#[local] Existing Instance Sample.plain_lib.

Lemma C5_spectral_transform_witness :
  data (perform_fft Sample.small_image) = [2; 3; 0; 4] /\
  xres (perform_fft Sample.small_image) = xres Sample.small_image /\
  (fst (gwy_data_field_get_min_max (perform_fft Sample.small_image)) =? 0) = true.
Proof.
  assert (Hfin : Forall (fun x => Dbl.finite x = true) [3; 4; 1; 5])
    by (repeat constructor).
  pose proof (C5_spectral_transform Sample.small_image eq_refl eq_refl eq_refl
                                    ltac:(discriminate) Hfin)
    as ((Hx & _) & _ & (_ & _ & _ & Hmin)).
  split; [reflexivity|]. split; [exact Hx|exact Hmin].
Defined.

End SpectrumExamples.

(** ** Further examples *)

Section MoreExamples.
Local Open Scope float_scope.

Lemma C2_warning_witness :
  peak_x (p0 Sample.same_x) = peak_x (p1 Sample.same_x) /\
  Xwarning (args (calibration_get_factors Sample.same_x)) = true.
Proof.
  assert (H : peak_x (p0 Sample.same_x) = peak_x (p1 Sample.same_x)) by reflexivity.
  split; [exact H|].
  exact (proj1 (proj2 C2_warning_policy) Sample.same_x H).
Defined.

Lemma C8_manual_scale_witness :
  Dbl.gt 2 0 = true /\ (-1 <=? 0) = true /\
  Xscale (args (xscale_changed Sample.clamped 2)) = 2 /\
  yscale_changed Sample.clamped (-1) = Sample.clamped.
Proof.
  split; [reflexivity|]. split; [reflexivity|]. split.
  - exact (proj1 (proj2 (proj1 (C8_manual_scale_entry Sample.clamped 2) eq_refl))).
  - exact (proj2 (proj2 (C8_manual_scale_entry Sample.clamped (-1)) eq_refl)).
Defined.

End MoreExamples.

(** * Further properties of the module *)

(** ** The settings *)

Section SettingsFacts.
Local Open Scope float_scope.
Context {lib : GwyLib}.

(** X1: the settings carry the clamp bounds, the lattice constant and the
    search radius from one run to the next, and nothing else.  What
    [threshold_save_args] writes over any store, [threshold_load_args]
    reads back; so a run started from the settings left by a dialog, on
    either button, has the bounds, the lattice constant and the radius of
    that dialog, while its scale factors are 1.0 again, its warnings off
    and its zoom x1. *)
Theorem X1_settings_round_trip :
  forall (settings : GwyContainer) (controls : ThresholdControls) (response : Response)
         (r0 : Z) (image : GwyDataField) (magnitude : float) (q0 q1 : Peak),
    let a := args controls in
    let saved := fst (calibrate_hcp_dialog_end settings controls response) in
    let next := calibrate_hcp saved image magnitude q0 q1 in
    saved = threshold_save_args settings a (rpx controls) /\
    threshold_load_args saved r0
    = (mkArgs (lower a) (upper a) (lattice a) 1 1 false false ZOOM_1, rpx controls) /\
    args next = mkArgs (lower a) (upper a) (lattice a) 1 1 false false ZOOM_1 /\
    rpx next = rpx controls.
Proof.
  intros settings controls response r0 image magnitude q0 q1. cbv zeta.
  destruct response; repeat split.
Qed.

(** X2: a key that is missing from the settings, or that holds a value of
    another type, leaves the default in place: with none of the four keys
    usable the dialog starts from [threshold_defaults] (bounds 0 and 0,
    lattice constant 1e-9) and the search radius 3. *)
Theorem X2_settings_missing_keys :
  forall (settings : GwyContainer) (image : GwyDataField) (magnitude : float)
         (q0 q1 : Peak),
    (forall v, gwy_container_get_value settings lower_key <> Some (G_TYPE_DOUBLE v)) ->
    (forall v, gwy_container_get_value settings upper_key <> Some (G_TYPE_DOUBLE v)) ->
    (forall v, gwy_container_get_value settings lattice_key <> Some (G_TYPE_DOUBLE v)) ->
    (forall n, gwy_container_get_value settings radius_key <> Some (G_TYPE_INT n)) ->
    (forall r0, threshold_load_args settings r0 = (threshold_defaults, r0)) /\
    args (calibrate_hcp settings image magnitude q0 q1) = threshold_defaults /\
    rpx (calibrate_hcp settings image magnitude q0 q1) = 3%Z.
Proof.
  intros settings image magnitude q0 q1 H1 H2 H3 H4.
  assert (L : forall r0, threshold_load_args settings r0 = (threshold_defaults, r0)).
  { intros r0. unfold threshold_load_args. cbv zeta.
    unfold gwy_container_gis_double_by_name, gwy_container_gis_int32_by_name.
    destruct (gwy_container_get_value settings lower_key) as [[v|n]|];
      [destruct (H1 v); reflexivity| |];
      (destruct (gwy_container_get_value settings upper_key) as [[v2|n2]|];
       [destruct (H2 v2); reflexivity| |]);
      (destruct (gwy_container_get_value settings lattice_key) as [[v3|n3]|];
       [destruct (H3 v3); reflexivity| |]);
      (destruct (gwy_container_get_value settings radius_key) as [[v4|n4]|];
       [|destruct (H4 n4); reflexivity|]);
      reflexivity. }
  split; [exact L|].
  unfold calibrate_hcp. cbv zeta. rewrite L. split; reflexivity.
Qed.

End SettingsFacts.

(** ** The display *)

Section DisplayFacts.
Local Open Scope float_scope.
Context {lib : GwyLib}.

Lemma ltb_asym x y : (x <? y) = true -> (y <? x) = false.
Proof.
  intros H. destruct (y <? x) eqn:E; [|reflexivity].
  pose proof (ltb_not_leb _ _ H) as N. rewrite (ltb_leb _ _ E) in N. discriminate.
Qed.

(** [MAX] is never below [MIN], in whatever order the two bounds come. *)
Lemma MAX_not_below_MIN a b : (MAX a b <? MIN a b) = false.
Proof.
  unfold MIN, MAX, Dbl.gt. destruct (a <? b) eqn:E1.
  - rewrite (ltb_asym _ _ E1). apply ltb_asym, E1.
  - destruct (b <? a) eqn:E2; [exact E1|apply ltb_irrefl].
Qed.

Lemma clamp_sample_inside bottom top x :
  (top <? bottom) = false ->
  (clamp_sample bottom top x <? bottom) = false /\
  Dbl.gt (clamp_sample bottom top x) top = false.
Proof.
  intros H. unfold clamp_sample, Dbl.gt.
  destruct (x <? bottom) eqn:E1; [split; [apply ltb_irrefl|exact H]|].
  destruct (top <? x) eqn:E2; [split; [exact H|apply ltb_irrefl]|].
  split; assumption.
Qed.

Lemma clamp_sample_fixed bottom top x :
  (x <? bottom) = false -> Dbl.gt x top = false -> clamp_sample bottom top x = x.
Proof. unfold clamp_sample. intros -> ->. reflexivity. Qed.

(** X3: [threshold_do] clamps every sample to the two bounds taken in
    either order: no sample of the result is below the smaller bound or
    above the larger one, the raster keeps its size, and clamping a second
    time changes nothing. *)
Theorem X3_threshold_do_clamps :
  forall (a : ThresholdArgs) (d : GwyDataField),
    let out := threshold_do a d in
    xres out = xres d /\ yres out = yres d /\
    length (data out) = length (data d) /\
    Forall (fun x => (x <? MIN (lower a) (upper a)) = false /\
                     Dbl.gt x (MAX (lower a) (upper a)) = false) (data out) /\
    threshold_do a out = out.
Proof.
  intros a d. cbv zeta. unfold threshold_do. cbv zeta. unfold gwy_data_field_clamp.
  cbn [xres yres data set_data].
  split; [reflexivity|]. split; [reflexivity|]. split; [apply length_map|].
  pose proof (MAX_not_below_MIN (lower a) (upper a)) as H.
  split.
  - apply Forall_forall. intros y Hy. apply in_map_iff in Hy as (x & <- & _).
    apply clamp_sample_inside, H.
  - unfold set_data. cbn [xres yres xreal yreal xoff yoff data]. f_equal.
    rewrite map_map. apply map_ext. intros x.
    destruct (clamp_sample_inside (MIN (lower a) (upper a)) (MAX (lower a) (upper a)) x H)
      as (H1 & H2).
    apply clamp_sample_fixed; assumption.
Qed.

Lemma of_Z_1 : Dbl.of_Z 1 = 1.
Proof. reflexivity. Qed.

Lemma preview_twice controls : preview (preview controls) = preview controls.
Proof.
  destruct controls as [a r o f d df v s q0 q1 rp mg].
  destruct a as [lo up la xs ys xw yw zm]. destruct zm; reflexivity.
Qed.

(** X4: [preview] redraws the display from the spectrum, the zoom level
    and the clamp bounds alone: it changes neither the arguments, the
    selection, the peaks, the original, the spectrum nor the data range,
    the view holds the samples of the display clamped by [threshold_do],
    and a second call changes nothing. *)
Theorem X4_preview_idempotent :
  forall controls : ThresholdControls,
    let c' := preview controls in
    (args c' = args controls /\ ranges c' = ranges controls /\
     ofield c' = ofield controls /\ offt c' = offt controls /\
     dfield c' = dfield controls /\ selection c' = selection controls /\
     p0 c' = p0 controls /\ p1 c' = p1 controls /\ rpx c' = rpx controls /\
     magnitude c' = magnitude controls) /\
    data (view c') = data (threshold_do (args controls) (disp_data c')) /\
    preview c' = c'.
Proof.
  intros controls. cbv zeta. split; [repeat split|]. split; [reflexivity|].
  apply preview_twice.
Qed.

(** X5: at zoom x1 the display is the spectrum itself, extents and offsets
    included (the division by the zoom level is exact), when the display
    has the resolution of the spectrum, as the dialog sets it up. *)
Theorem X5_preview_zoom_1 :
  forall controls : ThresholdControls,
    zoom_mode (args controls) = ZOOM_1 ->
    xres (disp_data controls) = xres (offt controls) ->
    yres (disp_data controls) = yres (offt controls) ->
    disp_data (preview controls) = offt controls /\
    data (view (preview controls))
    = map (clamp_sample (MIN (lower (args controls)) (upper (args controls)))
                        (MAX (lower (args controls)) (upper (args controls))))
          (data (offt controls)).
Proof.
  intros controls Hz Hx Hy. unfold preview. cbv zeta. rewrite Hz.
  cbn [disp_data set_disp_data set_view view zoom_value].
  rewrite of_Z_1, !div_1_r.
  unfold gwy_data_field_set_yoffset, gwy_data_field_set_xoffset,
    gwy_data_field_set_yreal, gwy_data_field_set_xreal, set_data.
  cbn [xres yres xreal yreal xoff yoff data]. rewrite Hx, Hy.
  split; [apply field_eta|reflexivity].
Qed.

Lemma lor_1 x : (0 <= x)%Z -> Z.lor x 1 = (2 * (x / 2) + 1)%Z.
Proof.
  intros H. destruct x as [|p|p]; [reflexivity| |lia].
  destruct p as [p|p|]; cbn [Z.lor Pos.lor]; [| |reflexivity].
  - assert (E : (Z.pos p~1 / 2 = Z.pos p)%Z)
      by (symmetry; apply (Z.div_unique _ 2 _ 1); lia).
    rewrite E. lia.
  - assert (E : (Z.pos p~0 / 2 = Z.pos p)%Z)
      by (symmetry; apply (Z.div_unique _ 2 _ 0); lia).
    rewrite E. lia.
Qed.

(** X6: at zoom x2 the display is the resampled part of the spectrum that
    [preview] cuts out, and for a spectrum of at least one pixel that part
    lies inside the spectrum (so the unsigned subtraction of the code
    cannot wrap), is an odd number of pixels wide and high, about half the
    resolution, and is centred to within one pixel. *)
Theorem X6_preview_zoom_2_window :
  forall controls : ThresholdControls,
    zoom_mode (args controls) = ZOOM_2 ->
    (1 <= xres (offt controls))%Z -> (1 <= yres (offt controls))%Z ->
    let Xres := xres (offt controls) in
    let Yres := yres (offt controls) in
    let width := Z.lor (Z.quot Xres 2) 1 in
    let height := Z.lor (Z.quot Yres 2) 1 in
    let col := Z.quot (Xres - width) 2 in
    let row := Z.quot (Yres - height) 2 in
    data (disp_data (preview controls))
    = resampled_data (gwy_data_field_area_extract (offt controls) col row width height)
                     Xres Yres /\
    (0 <= col /\ 1 <= width /\ col + width <= Xres /\ Z.odd width = true /\
     Xres / 2 <= width <= Xres / 2 + 1 /\ 0 <= Xres - width - 2 * col <= 1)%Z /\
    (0 <= row /\ 1 <= height /\ row + height <= Yres /\ Z.odd height = true /\
     Yres / 2 <= height <= Yres / 2 + 1 /\ 0 <= Yres - height - 2 * row <= 1)%Z.
Proof.
  intros controls Hz Hx Hy. cbv zeta. split.
  - unfold preview. cbv zeta. rewrite Hz. reflexivity.
  - assert (W : forall n, (1 <= n)%Z ->
                 let w := Z.lor (Z.quot n 2) 1 in
                 let c := Z.quot (n - w) 2 in
                 (0 <= c /\ 1 <= w /\ c + w <= n /\ Z.odd w = true /\
                  n / 2 <= w <= n / 2 + 1 /\ 0 <= n - w - 2 * c <= 1)%Z).
    { intros n Hn. cbv zeta. rewrite (Z.quot_div_nonneg n 2) by lia.
      rewrite lor_1 by (apply Z.div_pos; lia).
      set (h := (n / 2)%Z). set (w := (2 * (h / 2) + 1)%Z).
      assert (Hh : (0 <= h)%Z) by (apply Z.div_pos; lia).
      pose proof (Z.div_mod h 2 ltac:(lia)) as E1.
      pose proof (Z.mod_pos_bound h 2 ltac:(lia)) as B1.
      pose proof (Z.div_mod n 2 ltac:(lia)) as E2. fold h in E2.
      pose proof (Z.mod_pos_bound n 2 ltac:(lia)) as B2.
      assert (Hw : (h - 1 <= w <= h + 1)%Z) by (unfold w; lia).
      assert (Hwn : (w <= n)%Z).
      { unfold w. destruct (Z.eq_dec h 0) as [E|E]; [rewrite E; cbn; lia|lia]. }
      rewrite (Z.quot_div_nonneg (n - w) 2) by lia.
      pose proof (Z.div_mod (n - w) 2 ltac:(lia)) as E3.
      pose proof (Z.mod_pos_bound (n - w) 2 ltac:(lia)) as B3.
      assert (Hodd : Z.odd w = true).
      { unfold w. rewrite Z.add_comm. rewrite Z.odd_add_mul_2. reflexivity. }
      repeat split; try lia; exact Hodd. }
    split; [apply (W _ Hx)|apply (W _ Hy)].
Qed.

End DisplayFacts.

(** ** The entries of the clamp bounds and of the lattice constant *)

Section EntryFacts.
Local Open Scope float_scope.
Context {lib : GwyLib}.

Lemma leb_refl x : is_nan x = false -> (x <=? x) = true.
Proof. intros H. apply not_ltb_leb; [exact H|exact H|apply ltb_irrefl]. Qed.

(** A number clamped to a range with [lo <= hi] lies in the range. *)
Lemma clamp_sample_within lo hi x :
  (lo <=? hi) = true -> is_nan x = false ->
  (lo <=? clamp_sample lo hi x) = true /\ (clamp_sample lo hi x <=? hi) = true.
Proof.
  intros Hr Hx. destruct (cmp_true_not_nan lo hi (or_intror Hr)) as (Hlo & Hhi).
  unfold clamp_sample, Dbl.gt. destruct (x <? lo) eqn:E1.
  - split; [apply leb_refl, Hlo|exact Hr].
  - destruct (hi <? x) eqn:E2.
    + split; [exact Hr|apply leb_refl, Hhi].
    + split; apply not_ltb_leb; assumption.
Qed.

Lemma threshold_lower_changed_args controls value :
  args (threshold_lower_changed controls value)
  = set_lower (args controls) (lower (args (threshold_lower_changed controls value))).
Proof.
  unfold threshold_lower_changed. cbv zeta. rewrite preview_args.
  destruct (Dbl.ge _ _ && _); [destruct (args controls); reflexivity|].
  destruct (_ <? _); [destruct (args controls); reflexivity|].
  destruct (Dbl.gt _ _); destruct (args controls); reflexivity.
Qed.

Lemma threshold_upper_changed_args controls value :
  args (threshold_upper_changed controls value)
  = set_upper (args controls) (upper (args (threshold_upper_changed controls value))).
Proof.
  unfold threshold_upper_changed. cbv zeta. rewrite preview_args.
  destruct (Dbl.ge _ _ && _); [destruct (args controls); reflexivity|].
  destruct (_ <? _); [destruct (args controls); reflexivity|].
  destruct (Dbl.gt _ _); destruct (args controls); reflexivity.
Qed.

Lemma entry_within lo hi num prior :
  (lo <=? hi) = true ->
  let v := if Dbl.ge num lo && (num <=? hi) then num
           else if num <? lo then lo
                else if Dbl.gt num hi then hi else prior in
  (is_nan num = false -> (lo <=? v) = true /\ (v <=? hi) = true) /\
  ((lo <=? prior) = true /\ (prior <=? hi) = true ->
   (lo <=? v) = true /\ (v <=? hi) = true).
Proof.
  intros Hr. cbv zeta. rewrite (clamp_tests lo hi num prior Hr).
  destruct (is_nan num) eqn:Hn.
  - split; [discriminate|intros H; exact H].
  - split; intros _; apply clamp_sample_within; assumption.
Qed.

(** X7: over a data range with [min <= max], a clamp bound that lies in
    the range still does after any entry, NaN included, and after an entry
    that is a number the bound lies in the range whatever it was before;
    the entry of one bound changes no other argument. *)
Theorem X7_clamp_bounds_stay_in_range :
  forall (controls : ThresholdControls) (value : float),
    let lo := range_min (ranges controls) in
    let hi := range_max (ranges controls) in
    let cl := threshold_lower_changed controls value in
    let cu := threshold_upper_changed controls value in
    let inside := fun x => (lo <=? x) = true /\ (x <=? hi) = true in
    (lo <=? hi) = true ->
    (inside (lower (args controls)) -> inside (lower (args cl))) /\
    (inside (upper (args controls)) -> inside (upper (args cu))) /\
    (is_nan (value * magnitude controls) = false ->
     inside (lower (args cl)) /\ inside (upper (args cu))) /\
    args cl = set_lower (args controls) (lower (args cl)) /\
    args cu = set_upper (args controls) (upper (args cu)).
Proof.
  intros controls value lo hi cl cu inside Hr.
  pose proof (threshold_lower_changed_lower controls value) as HL.
  pose proof (threshold_upper_changed_upper controls value) as HU.
  cbv zeta in HL, HU. fold cl in HL. fold cu in HU. fold lo hi in HL, HU.
  destruct (entry_within lo hi (value * magnitude controls) (lower (args controls)) Hr)
    as (L1 & L2).
  destruct (entry_within lo hi (value * magnitude controls) (upper (args controls)) Hr)
    as (U1 & U2).
  cbv zeta in L1, L2, U1, U2. rewrite <- HL in L1, L2. rewrite <- HU in U1, U2.
  unfold inside.
  split; [exact L2|]. split; [exact U2|].
  split; [intros Hn; split; [apply L1, Hn|apply U1, Hn]|].
  split; [apply threshold_lower_changed_args|apply threshold_upper_changed_args].
Qed.

Lemma update_scales_lattice controls :
  lattice (args (calibrate_update_scales controls)) = lattice (args controls).
Proof.
  unfold calibrate_update_scales. destruct (gwy_selection_is_full _).
  - apply get_factors_frame.
  - destruct (args controls); reflexivity.
Qed.

(** X8: an entry for the lattice constant that is zero, negative or NaN
    changes nothing; a positive one is stored and the scale factors are
    worked out again at once: from the stored peaks and the new constant
    when two points are selected, and reset to 0 otherwise.  So a positive
    lattice constant stays positive. *)
Theorem X8_lattice_entry :
  forall (controls : ThresholdControls) (value : float),
    let num := value * magnitude controls in
    let c' := threshold_lattice_changed controls value in
    let x1 := peak_x (p0 controls) in
    let y1 := peak_y (p0 controls) in
    let x2 := peak_x (p1 controls) in
    let y2 := peak_y (p1 controls) in
    (Dbl.gt num 0 = false -> c' = controls) /\
    (Dbl.gt num 0 = true ->
     lattice (args c') = num /\
     (gwy_selection_is_full (selection controls) = true ->
      Xscale (args c') = 1 / Spec.xcorr x1 y1 x2 y2 num /\
      Yscale (args c') = 1 / Spec.ycorr x1 y1 x2 y2 num) /\
     (gwy_selection_is_full (selection controls) = false ->
      Xscale (args c') = 0 /\ Yscale (args c') = 0)) /\
    (Dbl.gt (lattice (args controls)) 0 = true ->
     Dbl.gt (lattice (args c')) 0 = true).
Proof.
  intros controls value num c' x1 y1 x2 y2.
  unfold c', threshold_lattice_changed. cbv zeta. fold num.
  destruct (Dbl.gt num 0) eqn:E.
  - split; [discriminate|]. split.
    + intros _. split.
      * rewrite update_scales_lattice. destruct (args controls); reflexivity.
      * unfold calibrate_update_scales. cbn [selection set_args]. split; intros F; rewrite F.
        -- destruct (get_factors_fields
                       (set_args controls (set_lattice (args controls) num)))
             as (HX & HY & _).
           cbv zeta in HX, HY. rewrite HX, HY.
           destruct controls as [a r o f d df v s q0 q1 rp mg]. destruct a. split; reflexivity.
        -- destruct (args controls); split; reflexivity.
    + intros _. rewrite update_scales_lattice. destruct (args controls); exact E.
  - split; [reflexivity|]. split; [discriminate|]. intros H; exact H.
Qed.

End EntryFacts.

(** ** Scale factors typed in, the peak table and the OK button *)

Section ScaleFacts.
Local Open Scope float_scope.
Context {lib : GwyLib}.

Lemma get_factors_others controls :
  let a' := args (calibration_get_factors controls) in
  lower a' = lower (args controls) /\ upper a' = upper (args controls) /\
  lattice a' = lattice (args controls) /\ zoom_mode a' = zoom_mode (args controls).
Proof.
  cbv zeta. unfold calibration_get_factors. cbv zeta. cbn [args set_args].
  destruct (args controls) as [lo up la xs ys xw yw zm].
  repeat match goal with
         | |- context [if ?b then _ else _] => destruct b
         end; repeat split.
Qed.

Lemma args_eta a :
  mkArgs (lower a) (upper a) (lattice a) (Xscale a) (Yscale a) (Xwarning a)
         (Ywarning a) (zoom_mode a) = a.
Proof. destruct a; reflexivity. Qed.

Lemma get_factors_set_args controls :
  calibration_get_factors controls
  = set_args controls (args (calibration_get_factors controls)).
Proof. destruct controls; reflexivity. Qed.

(** The Lattice Solver does not depend on the scale factors and warnings
    the session holds. *)
Lemma get_factors_forgets controls a' :
  scales_apart (args controls) a' ->
  calibration_get_factors (set_args controls a') = calibration_get_factors controls.
Proof.
  intros (H1 & H2 & H3 & H4).
  rewrite (get_factors_set_args controls), (get_factors_set_args (set_args controls a')).
  assert (E : args (calibration_get_factors (set_args controls a'))
              = args (calibration_get_factors controls)).
  { destruct (get_factors_fields controls) as (A1 & A2 & A3 & A4).
    destruct (get_factors_fields (set_args controls a')) as (B1 & B2 & B3 & B4).
    destruct (get_factors_others controls) as (C1 & C2 & C3 & C4).
    destruct (get_factors_others (set_args controls a')) as (D1 & D2 & D3 & D4).
    cbv zeta in *.
    rewrite <- (args_eta (args (calibration_get_factors controls))).
    rewrite <- (args_eta (args (calibration_get_factors (set_args controls a')))).
    rewrite A1, A2, A3, A4, B1, B2, B3, B4, C1, C2, C3, C4, D1, D2, D3, D4.
    destruct controls as [a r o f d df v s q0 q1 rp mg].
    cbn [args set_args p0 p1] in *. rewrite H1, H2, H3, H4. reflexivity. }
  rewrite E. destruct controls; reflexivity.
Qed.

Lemma update_scales_forgets controls a' :
  scales_apart (args controls) a' ->
  calibrate_update_scales (set_args controls a') = calibrate_update_scales controls.
Proof.
  intros H. unfold calibrate_update_scales.
  replace (selection (set_args controls a')) with (selection controls)
    by (destruct controls; reflexivity).
  destruct (gwy_selection_is_full (selection controls)).
  - apply get_factors_forgets, H.
  - destruct H as (H1 & H2 & H3 & H4).
    destruct controls as [a r o f d df v s q0 q1 rp mg]. cbn [args set_args].
    destruct a, a'. cbn in *. subst. reflexivity.
Qed.

Lemma peak_find_set_args controls a' point idx :
  peak_find (set_args controls a') point idx
  = match peak_find controls point idx with
    | Some st => Some (set_args st a')
    | None => None
    end.
Proof.
  unfold peak_find. cbv zeta.
  replace (disp_data (set_args controls a')) with (disp_data controls)
    by (destruct controls; reflexivity).
  destruct (Dbl.to_gint _) as [col|]; [|reflexivity].
  destruct (Dbl.to_gint _) as [row|]; [|reflexivity].
  replace (rpx (set_args controls a')) with (rpx controls)
    by (destruct controls; reflexivity).
  destruct (negb _ || negb _); destruct controls, idx; reflexivity.
Qed.

Lemma peak_find_args controls point idx st :
  peak_find controls point idx = Some st -> args st = args controls.
Proof.
  unfold peak_find. cbv zeta.
  destruct (Dbl.to_gint _) as [col|]; [|discriminate].
  destruct (Dbl.to_gint _) as [row|]; [|discriminate].
  destruct (negb _ || negb _); intros H; injection H as <-; destruct idx; reflexivity.
Qed.

Lemma render_cell_forgets controls a' id idx :
  scales_apart (args controls) a' ->
  id <> COLUMN_I ->
  (idx < length (selection controls))%nat ->
  gwy_tool_level3_render_cell (set_args controls a') id idx
  = gwy_tool_level3_render_cell controls id idx.
Proof.
  intros H Hid Hidx. unfold gwy_tool_level3_render_cell.
  replace (selection (set_args controls a')) with (selection controls)
    by (destruct controls; reflexivity).
  destruct (gwy_selection_get_object (selection controls) idx) as [pt|] eqn:G.
  2:{ apply nth_error_None in G. lia. }
  destruct id; [congruence| | |].
  - rewrite peak_find_set_args.
    destruct (peak_find controls pt idx) as [st|] eqn:P; [|reflexivity].
    f_equal. apply update_scales_forgets.
    rewrite (peak_find_args _ _ _ _ P). exact H.
  - f_equal. apply update_scales_forgets, H.
  - f_equal. apply update_scales_forgets, H.
Qed.

Lemma scales_apart_Xscale a v : scales_apart a (set_Xscale a v).
Proof. destruct a; repeat split. Qed.

Lemma scales_apart_Yscale a v : scales_apart a (set_Yscale a v).
Proof. destruct a; repeat split. Qed.

Lemma xscale_changed_cases controls num :
  xscale_changed controls num = controls \/
  xscale_changed controls num = set_args controls (set_Xscale (args controls) num).
Proof. unfold xscale_changed. destruct (_ && _); [right|left]; reflexivity. Qed.

Lemma yscale_changed_cases controls num :
  yscale_changed controls num = controls \/
  yscale_changed controls num = set_args controls (set_Yscale (args controls) num).
Proof. unfold yscale_changed. destruct (_ && _); [right|left]; reflexivity. Qed.

(** X9: a scale factor typed in by hand does not survive the next drawing
    of the peak table: rendering an X, Y or Z cell of a row that holds a
    point ends in the scale update, which overwrites both factors and both
    warnings, so the session is the same as if nothing had been typed. *)
Theorem X9_render_overwrites_manual_scale :
  forall (controls : ThresholdControls) (num : float) (id : Column) (idx : nat),
    id <> COLUMN_I ->
    (idx < length (selection controls))%nat ->
    gwy_tool_level3_render_cell (xscale_changed controls num) id idx
    = gwy_tool_level3_render_cell controls id idx /\
    gwy_tool_level3_render_cell (yscale_changed controls num) id idx
    = gwy_tool_level3_render_cell controls id idx.
Proof.
  intros controls num id idx Hid Hidx. split.
  - destruct (xscale_changed_cases controls num) as [->| ->]; [reflexivity|].
    apply render_cell_forgets; [apply scales_apart_Xscale|exact Hid|exact Hidx].
  - destruct (yscale_changed_cases controls num) as [->| ->]; [reflexivity|].
    apply render_cell_forgets; [apply scales_apart_Yscale|exact Hid|exact Hidx].
Qed.

Lemma gt_0_0 : Dbl.gt 0 0 = false.
Proof. reflexivity. Qed.

Lemma update_scales_not_full controls :
  (length (selection controls) < 2)%nat ->
  calibrate_update_scales controls
  = set_args controls
             (set_Ywarning (set_Xwarning (set_Yscale (set_Xscale (args controls) 0) 0)
                                         false) false).
Proof.
  intros H. unfold calibrate_update_scales, gwy_selection_is_full, max_objects.
  replace (length (selection controls) =? 2)%nat with false
    by (symmetry; apply Nat.eqb_neq; lia).
  reflexivity.
Qed.

(** X10: once the scale update has run on fewer than two points (after
    Clear Points, or after a row of the peak table was drawn with one
    point selected) the OK button applies no calibration; and positive
    scale factors typed in afterwards are what OK then applies. *)
Theorem X10_ok_after_reset :
  forall (controls : ThresholdControls),
    (length (selection controls) < 2)%nat ->
    dialog_response_ok (calibrate_update_scales controls) = None /\
    dialog_response_ok (clear_points controls) = None /\
    (forall a b : float,
        Dbl.gt a 0 = true -> Dbl.gt b 0 = true ->
        let typed := yscale_changed (xscale_changed (calibrate_update_scales controls) a) b in
        Xscale (args typed) = a /\ Yscale (args typed) = b /\
        dialog_response_ok typed = Some (calibrate_do typed)).
Proof.
  intros controls Hlen.
  assert (R : forall c, (length (selection c) < 2)%nat ->
                        dialog_response_ok (calibrate_update_scales c) = None).
  { intros c Hc. rewrite (update_scales_not_full c Hc).
    unfold dialog_response_ok, gwy_selection_is_full, max_objects.
    cbn [selection set_args].
    replace (length (selection c) =? 2)%nat with false
      by (symmetry; apply Nat.eqb_neq; lia).
    destruct (args c); reflexivity. }
  split; [apply R, Hlen|]. split.
  - unfold clear_points. apply R. cbn. lia.
  - intros a b Ha Hb. cbv zeta.
    rewrite (xscale_changed_positive _ a Ha), (yscale_changed_positive _ b Hb).
    rewrite (update_scales_not_full controls Hlen).
    split; [destruct (args controls); reflexivity|].
    split; [destruct (args controls); reflexivity|].
    unfold dialog_response_ok, gwy_selection_is_full, max_objects.
    cbn [selection set_args].
    replace (length (selection controls) =? 2)%nat with false
      by (symmetry; apply Nat.eqb_neq; lia).
    replace (Dbl.gt (Xscale _) 0) with true
      by (destruct (args controls); symmetry; exact Ha).
    replace (Dbl.gt (Yscale _) 0) with true
      by (destruct (args controls); symmetry; exact Hb).
    reflexivity.
Qed.

End ScaleFacts.

(** ** The start of the dialog *)

Section StartFacts.
Local Open Scope float_scope.
Context {lib : GwyLib}.

Lemma leb_trans x y z : (x <=? y) = true -> (y <=? z) = true -> (x <=? z) = true.
Proof.
  intros H1 H2.
  destruct (cmp_true_not_nan x y (or_intror H1)) as (Hx & _).
  destruct (cmp_true_not_nan y z (or_intror H2)) as (_ & Hz).
  destruct (z <? x) eqn:E; [|apply not_ltb_leb; assumption].
  pose proof (ltb_leb_trans z x y E H1) as N.
  rewrite (leb_not_ltb y z H2) in N. discriminate.
Qed.

(** The running maximum of [gwy_data_field_get_min_max]: the result is
    the start or a sample above it, and no sample is above the result. *)
Lemma fold_max_spec L : forall m0,
  let r := fold_left max_step L m0 in
  (r = m0 \/ (In r L /\ (m0 <? r) = true)) /\
  (forall x, In x L -> (r <? x) = false).
Proof.
  induction L as [|a L IH]; intros m0; cbv zeta.
  - cbn. split; [left; reflexivity|]. intros x [].
  - cbn [fold_left]. specialize (IH (max_step m0 a)). cbv zeta in IH.
    set (r := fold_left max_step L (max_step m0 a)) in *.
    destruct IH as (Hr & Hall). unfold max_step in Hr.
    destruct (m0 <? a) eqn:Ea.
    + split.
      * right. destruct Hr as [->|(Hin & Hlt)].
        -- split; [left; reflexivity|exact Ea].
        -- split; [right; exact Hin|exact (ltb_trans _ _ _ Ea Hlt)].
      * intros x [<-|Hx]; [|apply Hall, Hx].
        destruct Hr as [->|(_ & Hlt)]; [apply ltb_irrefl|apply ltb_asym, Hlt].
    + split.
      * destruct Hr as [->|(Hin & Hlt)]; [left; reflexivity|].
        right. split; [right; exact Hin|exact Hlt].
      * intros x [<-|Hx]; [|apply Hall, Hx].
        destruct Hr as [->|(_ & Hlt)]; [exact Ea|].
        destruct (r <? a) eqn:E; [|reflexivity].
        rewrite (ltb_trans _ _ _ Hlt E) in Ea. discriminate.
Qed.

Lemma get_max_spec d :
  data d <> [] ->
  let dmax := snd (gwy_data_field_get_min_max d) in
  In dmax (data d) /\ forall x, In x (data d) -> (dmax <? x) = false.
Proof.
  intros Hne. cbv zeta. unfold gwy_data_field_get_min_max.
  destruct (data d) as [|x L] eqn:E; [congruence|]. cbn [snd].
  destruct (fold_max_spec (x :: L) x) as (Hr & Hall). cbv zeta in Hr, Hall.
  split; [|exact Hall].
  destruct Hr as [->|(Hin & _)]; [left; reflexivity|exact Hin].
Qed.

(** Over samples that are numbers, the minimum and the maximum found
    enclose every sample. *)
Lemma min_max_enclose d :
  data d <> [] ->
  Forall (fun x => is_nan x = false) (data d) ->
  let dmin := fst (gwy_data_field_get_min_max d) in
  let dmax := snd (gwy_data_field_get_min_max d) in
  (dmin <=? dmax) = true /\
  Forall (fun x => (dmin <=? x) = true /\ (x <=? dmax) = true) (data d).
Proof.
  intros Hne Hnum. cbv zeta.
  destruct (get_min_spec d Hne) as (Imin & Hmin).
  destruct (get_max_spec d Hne) as (Imax & Hmax).
  cbv zeta in Imin, Hmin, Imax, Hmax. rewrite Forall_forall in Hnum.
  set (dmin := fst (gwy_data_field_get_min_max d)) in *.
  set (dmax := snd (gwy_data_field_get_min_max d)) in *.
  assert (A : forall x, In x (data d) -> (dmin <=? x) = true /\ (x <=? dmax) = true).
  { intros x Hx. split; apply not_ltb_leb; auto. }
  split; [|apply Forall_forall; exact A].
  destruct (A dmin Imin) as (_ & H). exact H.
Qed.

(** The samples of a spectrum whose re-centred magnitudes are finite: one is
    0, none is below 0 and none is NaN. *)
Lemma spectrum_samples image :
  let re := fst (gwy_data_field_2dfft image) in
  let im := snd (gwy_data_field_2dfft image) in
  let modulus := set_dfield_modulus (set_data image re) (set_data image im) image in
  let centred := gwy_data_field_2dfft_humanize (xres image) (yres image) (data modulus) in
  centred <> [] ->
  Forall (fun x => Dbl.finite x = true) centred ->
  In 0 (data (perform_fft image)) /\
  Forall (fun y => (y <? 0) = false) (data (perform_fft image)) /\
  Forall (fun y => is_nan y = false) (data (perform_fft image)).
Proof.
  intros re im modulus centred Hne Hfin.
  assert (Hdata : data (perform_fft image)
                  = map (fun x => x + - fst (gwy_data_field_get_min_max
                                               (set_data modulus centred)))
                        centred) by reflexivity.
  destruct (get_min_spec (set_data modulus centred) Hne) as (Hin & Hmin).
  cbv zeta in Hin, Hmin. cbn [data set_data] in Hin, Hmin.
  rewrite Hdata. apply subtract_min_spec; assumption.
Qed.

(** X11: how the dialog starts.  The original image is kept aside, the
    spectrum is computed once and shown unzoomed, no point is selected, and
    the scale factors are 1, whatever the settings hold.  For an image
    whose spectrum is finite the data range taken for the clamp entries has
    its minimum at 0, [min <= max], and encloses every sample of the
    spectrum. *)
Theorem X11_dialog_start :
  forall (settings : GwyContainer) (image : GwyDataField) (magnitude : float)
         (q0 q1 : Peak),
    let re := fst (gwy_data_field_2dfft image) in
    let im := snd (gwy_data_field_2dfft image) in
    let modulus := set_dfield_modulus (set_data image re) (set_data image im) image in
    let centred := gwy_data_field_2dfft_humanize (xres image) (yres image)
                                                 (data modulus) in
    let c := calibrate_hcp settings image magnitude q0 q1 in
    let lo := range_min (ranges c) in
    let hi := range_max (ranges c) in
    centred <> [] ->
    Forall (fun x => Dbl.finite x = true) centred ->
    (ofield c = image /\ offt c = perform_fft image /\ dfield c = perform_fft image /\
     disp_data c = perform_fft image /\ selection c = [] /\
     zoom_mode (args c) = ZOOM_1 /\ Xscale (args c) = 1 /\ Yscale (args c) = 1) /\
    (lo =? 0) = true /\ (lo <=? hi) = true /\
    Forall (fun x => (lo <=? x) = true /\ (x <=? hi) = true) (data (offt c)).
Proof.
  intros settings image magnitude q0 q1 re im modulus centred c lo hi Hne Hfin.
  destruct (spectrum_samples image Hne Hfin) as (H0 & Hpos & Hnan).
  assert (Hne' : data (perform_fft image) <> [])
    by (intros E; rewrite E in H0; exact H0).
  assert (Hlo : lo = fst (gwy_data_field_get_min_max (perform_fft image)))
    by reflexivity.
  assert (Hhi : hi = snd (gwy_data_field_get_min_max (perform_fft image)))
    by reflexivity.
  split.
  - split; [reflexivity|]. split; [reflexivity|]. split; [reflexivity|].
    split; [|repeat split].
    unfold c, calibrate_hcp, calibrate_hcp_dialog_start. cbv zeta.
    set (c0 := mkControls _ _ _ _ _ _ _ _ _ _ _ _).
    assert (Hz : zoom_mode (args c0) = ZOOM_1) by reflexivity.
    destruct (preview_display c0) as (Hxr & Hyr & Hxo & Hyo & Hxs & Hys).
    cbv zeta in Hxr, Hyr, Hxo, Hyo. rewrite Hz in Hxr, Hyr, Hxo, Hyo.
    change (Dbl.of_Z (zoom_value ZOOM_1)) with 1 in Hxr, Hyr, Hxo, Hyo.
    rewrite div_1_r in Hxr, Hyr, Hxo, Hyo.
    assert (Hd : data (disp_data (preview c0)) = data (perform_fft image)).
    { unfold preview. cbv zeta. rewrite Hz. reflexivity. }
    rewrite <- (field_eta (disp_data (preview c0))).
    rewrite Hxr, Hyr, Hxo, Hyo, Hxs, Hys, Hd. apply field_eta.
  - destruct (get_min_spec (perform_fft image) Hne') as (Hrin & Hrmin).
    cbv zeta in Hrin, Hrmin. rewrite Forall_forall in Hpos, Hnan.
    destruct (min_max_enclose (perform_fft image) Hne'
                              ltac:(apply Forall_forall; exact Hnan)) as (Hle & Hall).
    cbv zeta in Hle, Hall. rewrite <- Hlo, <- Hhi in Hle, Hall.
    split; [|split; [exact Hle|exact Hall]].
    rewrite Hlo. apply leb_antisym_eqb.
    + apply Hpos, Hrin.
    + apply Hrmin, H0.
    + apply Hnan, Hrin.
    + reflexivity.
Qed.

(** X12: pressing OK in a dialog that was just opened, with no point
    selected, writes an unchanged copy of the original image, whatever the
    settings hold: the scale factors start at 1.0 and are applied. *)
Theorem X12_ok_at_once_copies :
  forall (settings : GwyContainer) (image : GwyDataField) (magnitude : float)
         (q0 q1 : Peak),
    (1 <= xres image <= Dbl.INT_MAX)%Z ->
    (1 <= yres image <= Dbl.INT_MAX)%Z ->
    let c := calibrate_hcp settings image magnitude q0 q1 in
    dialog_response_ok c = Some (Some image) /\
    snd (calibrate_hcp_dialog_end settings c GTK_RESPONSE_OK) = Some (Some image) /\
    snd (calibrate_hcp_dialog_end settings c GTK_RESPONSE_CANCEL) = None.
Proof.
  intros settings image magnitude q0 q1 Hx Hy c.
  assert (H : dialog_response_ok c = Some (Some image)).
  { unfold dialog_response_ok.
    change (gwy_selection_is_full (selection c)) with false.
    change (Xscale (args c)) with 1. change (Yscale (args c)) with 1.
    change (Dbl.gt 1 0) with true. cbn [andb].
    rewrite (calibrate_do_identity c); [reflexivity|exact Hx|exact Hy| |]; reflexivity. }
  split; [exact H|]. split; [exact H|reflexivity].
Qed.

End StartFacts.

(** ** The Peak Locator on a maximum and at the borders *)

Section LocatorFacts.
Local Open Scope float_scope.

(** Tracking the maximum from a pixel that no scanned pixel exceeds keeps
    that pixel. *)
Lemma first_maximum_fixed d start cells :
  (forall c, In c cells -> Dbl.gt (Spec.sample d c) (Spec.sample d start) = false) ->
  Spec.first_maximum d start cells
  = mkBest (fst start) (snd start) (Spec.sample d start).
Proof.
  unfold Spec.first_maximum.
  set (b := mkBest (fst start) (snd start) (Spec.sample d start)).
  assert (Hz : temp_z b = Spec.sample d start) by reflexivity.
  clearbody b. revert b Hz.
  induction cells as [|c cells IH]; intros b Hz H; [reflexivity|].
  cbn [fold_left].
  assert (E : scan_cell d (fst c) b (snd c) = b).
  { unfold scan_cell.
    change (gwy_data_field_get_val d (fst c) (snd c)) with (Spec.sample d c).
    rewrite Hz, (H c (or_introl eq_refl)). reflexivity. }
  rewrite E. apply IH; [exact Hz|]. intros e He. apply H. right. exact He.
Qed.

Lemma peak_find_at_maximum controls point idx col row :
  Dbl.to_gint (gwy_data_field_rtoj (disp_data controls) (fst point)) = Some col ->
  Dbl.to_gint (gwy_data_field_rtoi (disp_data controls) (snd point)) = Some row ->
  (forall cell, Spec.in_window (disp_data controls) col row (rpx controls) cell ->
                Dbl.gt (Spec.sample (disp_data controls) cell)
                       (gwy_data_field_get_val (disp_data controls) col row) = false) ->
  peak_find controls point idx
  = Some (set_p controls idx
                (gwy_data_field_jtor (disp_data controls) (Dbl.of_Z col)
                 + xoff (disp_data controls),
                 gwy_data_field_itor (disp_data controls) (Dbl.of_Z row)
                 + yoff (disp_data controls),
                 gwy_data_field_get_val (disp_data controls) col row)).
Proof.
  intros Hc Hw Hmax. unfold peak_find. cbv zeta. rewrite Hc, Hw.
  rewrite peak_scan_column_major.
  rewrite (first_maximum_fixed (disp_data controls) (col, row)).
  - cbn [temp_i temp_j temp_z fst snd]. rewrite !Z.sub_diag. reflexivity.
  - intros c Hin. apply in_cells_column_major in Hin. apply Hmax, Hin.
Qed.

(** X13: a point whose pixel holds a maximum of its search window (no
    sample of the window exceeds it) is a fixed point of the Peak Locator
    for every radius: the peak found is that pixel and its sample, the
    selection is not touched, and refining again yields the same session. *)
Theorem X13_refine_at_maximum :
  forall (controls : ThresholdControls) (point : Point) (idx : nat) (col row : Z),
    let d := disp_data controls in
    Dbl.to_gint (gwy_data_field_rtoj d (fst point)) = Some col ->
    Dbl.to_gint (gwy_data_field_rtoi d (snd point)) = Some row ->
    (forall cell, Spec.in_window d col row (rpx controls) cell ->
                  Dbl.gt (Spec.sample d cell) (gwy_data_field_get_val d col row) = false) ->
    exists st : ThresholdControls,
      peak_find controls point idx = Some st /\
      get_p st idx = (gwy_data_field_jtor d (Dbl.of_Z col) + xoff d,
                      gwy_data_field_itor d (Dbl.of_Z row) + yoff d,
                      gwy_data_field_get_val d col row) /\
      selection st = selection controls /\
      peak_find st point idx = Some st.
Proof.
  intros controls point idx col row d Hc Hw Hmax. subst d.
  eexists. split; [apply (peak_find_at_maximum controls point idx col row Hc Hw Hmax)|].
  rewrite get_p_set_p. split; [reflexivity|].
  destruct (set_p_frame controls idx
              (gwy_data_field_jtor (disp_data controls) (Dbl.of_Z col)
               + xoff (disp_data controls),
               gwy_data_field_itor (disp_data controls) (Dbl.of_Z row)
               + yoff (disp_data controls),
               gwy_data_field_get_val (disp_data controls) col row))
    as (Hd & Hr' & Hs & _).
  split; [exact Hs|].
  rewrite (peak_find_at_maximum _ point idx col row); rewrite ?Hd, ?Hr'; try assumption.
  rewrite set_p_twice. reflexivity.
Qed.

(** X14: from a pixel inside the display the Peak Locator returns a
    pixel inside the display, so the peak value is a sample of the raster
    and never the 0.0 of an access out of bounds, and that sample is not
    below the sample at the start. *)
Theorem X14_refined_pixel_inside :
  forall (d : GwyDataField) (col row r : Z),
    gwy_data_field_inside d col row = true ->
    let b := peak_scan d col row r in
    gwy_data_field_inside d (temp_i b) (temp_j b) = true /\
    temp_z b = nth (Z.to_nat (temp_i b + xres d * temp_j b)) (data d) 0 /\
    Dbl.gt (gwy_data_field_get_val d col row) (temp_z b) = false.
Proof.
  intros d col row r Hin b.
  pose proof (first_maximum_spec d (col, row) (Spec.cells_column_major d col row r)) as S.
  cbv zeta in S. rewrite <- peak_scan_column_major in S. fold b in S.
  destruct S as (k & Hk & Hz & _ & Hmax).
  assert (I : gwy_data_field_inside d (temp_i b) (temp_j b) = true).
  { destruct k as [|k]; cbn [nth_error] in Hk.
    - injection Hk as <- <-. exact Hin.
    - apply nth_error_In, in_cells_column_major in Hk.
      destruct Hk as (Hi & Hj). cbn [fst snd] in Hi, Hj.
      unfold Spec.window_lo, Spec.window_hi in Hi, Hj.
      unfold gwy_data_field_inside.
      repeat (apply andb_true_intro; split);
        first [apply Z.leb_le; lia | apply Z.ltb_lt; lia]. }
  split; [exact I|]. split.
  - rewrite Hz. unfold Spec.sample, gwy_data_field_get_val. cbn [fst snd].
    rewrite I. reflexivity.
  - apply (Hmax (col, row)). left. reflexivity.
Qed.

End LocatorFacts.

(** ** Symmetries of the Lattice Solver *)

Section SolverFacts.
Local Open Scope float_scope.

Lemma mul_opp_opp x : - x * - x = x * x.
Proof.
  apply Prim2SF_inj. rewrite !mul_spec, !opp_spec.
  destruct (Prim2SF x) as [s|s| |s m e]; cbn [SFopp SFmul]; try reflexivity;
    destruct s; reflexivity.
Qed.

Lemma sq_flip (s : bool) x : Spec.sq (if s then - x else x) = Spec.sq x.
Proof. destruct s; [apply mul_opp_opp|reflexivity]. Qed.

Lemma mul_nan_r x : x * nan = nan.
Proof.
  apply Prim2SF_inj. rewrite mul_spec.
  change (Prim2SF nan) with S754_nan.
  destruct (Prim2SF x) as [s|s| |s m e]; reflexivity.
Qed.

(** The arguments after the Lattice Solver, field by field. *)
Lemma get_factors_args controls :
  let x1 := peak_x (p0 controls) in
  let y1 := peak_y (p0 controls) in
  let x2 := peak_x (p1 controls) in
  let y2 := peak_y (p1 controls) in
  let a := args controls in
  let xs := 1 / Spec.xcorr x1 y1 x2 y2 (lattice a) in
  let ys := 1 / Spec.ycorr x1 y1 x2 y2 (lattice a) in
  args (calibration_get_factors controls)
  = mkArgs (lower a) (upper a) (lattice a) xs ys
           ((Spec.sq x1 =? Spec.sq x2) || (Spec.sq x1 =? 0) || Dbl.ne xs xs
            || (Spec.sq x1 * Spec.sq y2 =? Spec.sq x2 * Spec.sq y1))
           ((Spec.sq y1 =? Spec.sq y2) || Dbl.ne ys ys
            || (Spec.sq x1 * Spec.sq y2 =? Spec.sq x2 * Spec.sq y1))
           (zoom_mode a).
Proof.
  cbv zeta.
  destruct (get_factors_fields controls) as (A1 & A2 & A3 & A4).
  destruct (get_factors_others controls) as (C1 & C2 & C3 & C4).
  cbv zeta in *.
  rewrite <- (args_eta (args (calibration_get_factors controls))).
  rewrite A1, A2, A3, A4, C1, C2, C3, C4. reflexivity.
Qed.

(** X15: the Lattice Solver reads the peak coordinates through their
    squares only: mirroring either peak in either axis, or taking the
    opposite peak of the spectrum, gives the same scale factors and the
    same warnings. *)
Theorem X15_solver_mirror_symmetry :
  forall (controls : ThresholdControls) (sx1 sy1 sx2 sy2 : bool) (z1 z2 : float),
    let flip := fun (s : bool) (v : float) => if s then - v else v in
    let q0 := (flip sx1 (peak_x (p0 controls)), flip sy1 (peak_y (p0 controls)), z1) in
    let q1 := (flip sx2 (peak_x (p1 controls)), flip sy2 (peak_y (p1 controls)), z2) in
    args (calibration_get_factors (set_p (set_p controls 0 q0) 1 q1))
    = args (calibration_get_factors controls).
Proof.
  intros controls sx1 sy1 sx2 sy2 z1 z2. cbv zeta.
  rewrite !get_factors_args. cbv zeta.
  cbn [set_p p0 p1 args peak_x peak_y fst snd].
  unfold Spec.xcorr, Spec.ycorr. rewrite !sq_flip. reflexivity.
Qed.

(** Two peaks in one row of the spectrum raise the Y warning: either the
    squares compare equal, or they are NaN and so is [Yscale]. *)
Lemma same_y_warns controls :
  peak_y (p0 controls) = peak_y (p1 controls) ->
  Ywarning (args (calibration_get_factors controls)) = true.
Proof.
  intros Hy. rewrite get_factors_args. cbv zeta. cbn [Ywarning]. rewrite <- Hy.
  set (y1 := peak_y (p0 controls)).
  destruct (Spec.sq y1 =? Spec.sq y1) eqn:E; [reflexivity|].
  assert (Hn : Spec.sq y1 = nan).
  { apply self_differs_nan. unfold Dbl.ne. rewrite E. reflexivity. }
  unfold Spec.ycorr. rewrite Hn, !mul_nan_r.
  change (nan - nan) with nan. rewrite div_nan_r.
  change (sqrt nan) with nan. rewrite mul_nan_r.
  change (Dbl.ne (1 / nan) (1 / nan)) with true.
  rewrite orb_true_r. reflexivity.
Qed.

(** X16: picking the same peak twice always raises both warnings, and so
    does any pair of peaks with equal x and equal y coordinates, NaN
    included; two peaks in one row alone raise the Y warning. *)
Theorem X16_same_peak_twice_warns :
  forall controls : ThresholdControls,
    (peak_y (p0 controls) = peak_y (p1 controls) ->
     Ywarning (args (calibration_get_factors controls)) = true) /\
    (peak_x (p0 controls) = peak_x (p1 controls) ->
     peak_y (p0 controls) = peak_y (p1 controls) ->
     Xwarning (args (calibration_get_factors controls)) = true /\
     Ywarning (args (calibration_get_factors controls)) = true).
Proof.
  intros controls. split; [apply same_y_warns|].
  intros Hx Hy. split; [apply same_x_warns, Hx|apply same_y_warns, Hy].
Qed.

End SolverFacts.

(** ** A whole session *)

Section SessionFacts.
Local Open Scope float_scope.
Context {lib : GwyLib}.
Variable printed : float -> float.

Lemma quiet_refl c : quiet c c.
Proof. repeat split. intros H; exact H. Qed.

Lemma quiet_trans c1 c2 c3 : quiet c1 c2 -> quiet c2 c3 -> quiet c1 c3.
Proof.
  intros (A1 & A2 & A3 & A4 & A5 & A6 & A7 & A8)
         (B1 & B2 & B3 & B4 & B5 & B6 & B7 & B8).
  repeat split; try congruence. intros H. apply B8, A8, H.
Qed.

Lemma set_object_length s i pt :
  (length s <= 2)%nat -> (length (gwy_selection_set_object s i pt) <= 2)%nat.
Proof.
  intros H. unfold gwy_selection_set_object, max_objects.
  destruct (Nat.ltb_spec i (length s)); [rewrite replace_nth_length; exact H|].
  destruct (Nat.ltb_spec (length s) 2); [|exact H].
  rewrite length_app. cbn. lia.
Qed.

Lemma quiet_set_selection c i pt :
  quiet c (set_selection c (gwy_selection_set_object (selection c) i pt)).
Proof. repeat split. cbn [selection set_selection]. apply set_object_length. Qed.

Lemma quiet_set_p c idx q : quiet c (set_p c idx q).
Proof. destruct idx; repeat split; intros H; exact H. Qed.

Lemma peak_find_quiet c pt idx st : peak_find c pt idx = Some st -> quiet c st.
Proof.
  unfold peak_find. cbv zeta.
  destruct (Dbl.to_gint _) as [col|]; [|discriminate].
  destruct (Dbl.to_gint _) as [row|]; [|discriminate].
  destruct (negb _ || negb _); intros H; injection H as <-.
  - eapply quiet_trans; [apply quiet_set_p|apply quiet_set_selection].
  - apply quiet_set_p.
Qed.

Lemma reFind_step_quiet c n i st n' :
  reFind_step (Some (c, n)) i = Some (st, n') -> quiet c st.
Proof.
  unfold reFind_step. cbn [fst snd].
  destruct (gwy_selection_get_object (selection c) i) as [pt|].
  - destruct (peak_find c pt i) as [c1|] eqn:P; [|discriminate].
    intros H. injection H as <- _.
    eapply quiet_trans; [apply (peak_find_quiet _ _ _ _ P)|apply quiet_set_selection].
  - intros H. injection H as <- _. apply quiet_refl.
Qed.

Lemma reFind_fold_quiet l : forall c n st n',
  fold_left reFind_step l (Some (c, n)) = Some (st, n') -> quiet c st.
Proof.
  induction l as [|i l IH]; intros c n st n' H.
  - injection H as <- _. apply quiet_refl.
  - cbn [fold_left] in H.
    destruct (reFind_step (Some (c, n)) i) as [[c1 n1]|] eqn:E.
    + eapply quiet_trans; [apply (reFind_step_quiet _ _ _ _ _ E)|apply (IH _ _ _ _ H)].
    + assert (N : fold_left reFind_step l None = None)
        by (clear; induction l; [reflexivity|assumption]).
      rewrite N in H. discriminate.
Qed.

Lemma zoom_adjust_step_quiet cn i : quiet (fst cn) (fst (zoom_adjust_step cn i)).
Proof.
  unfold zoom_adjust_step.
  destruct (gwy_selection_get_object (selection (fst cn)) i);
    [apply quiet_set_selection|apply quiet_refl].
Qed.

Lemma zoom_adjust_fold_quiet l : forall cn,
  quiet (fst cn) (fst (fold_left zoom_adjust_step l cn)).
Proof.
  induction l as [|i l IH]; intros cn; [apply quiet_refl|].
  cbn [fold_left]. eapply quiet_trans; [apply zoom_adjust_step_quiet|apply IH].
Qed.

(** What [preview] does to a session, for the invariants. *)
Lemma preview_session c :
  args (preview c) = args c /\ selection (preview c) = selection c /\
  session_data_kept c (preview c) /\ display_follows_zoom (preview c).
Proof.
  split; [reflexivity|]. split; [reflexivity|].
  destruct (preview_display c) as (H1 & H2 & H3 & H4 & H5 & H6).
  cbv zeta in *. split; [repeat split; assumption|].
  unfold display_follows_zoom. cbv zeta. repeat split; assumption.
Qed.

(** What the scale update does to a session. *)
Lemma update_scales_session c :
  scales_apart (args c) (args (calibrate_update_scales c)) /\
  selection (calibrate_update_scales c) = selection c /\
  disp_data (calibrate_update_scales c) = disp_data c /\
  session_data_kept c (calibrate_update_scales c).
Proof.
  unfold calibrate_update_scales. destruct (gwy_selection_is_full (selection c)).
  - split; [apply get_factors_others|].
    rewrite get_factors_set_args. repeat split.
  - split; [destruct (args c); repeat split|]. repeat split.
Qed.

Lemma invariant_transfer c st :
  session_invariant c ->
  (length (selection st) <= 2)%nat ->
  scales_apart (args c) (args st) ->
  ranges st = ranges c -> offt st = offt c ->
  xreal (disp_data st) = xreal (disp_data c) ->
  yreal (disp_data st) = yreal (disp_data c) ->
  xoff (disp_data st) = xoff (disp_data c) ->
  yoff (disp_data st) = yoff (disp_data c) ->
  session_invariant st.
Proof.
  intros (I1 & I2 & I3 & I4 & I5) Hl (A1 & A2 & A3 & A4) Hr Ho X1 X2 X3 X4.
  unfold session_invariant, display_follows_zoom, in_range in *. cbv zeta in *.
  rewrite A1, A2, A3, A4, Hr, Ho, X1, X2, X3, X4. repeat split; tauto.
Qed.

Lemma step_ok_refl c : step_ok c c.
Proof.
  split; [repeat split|]. split; [intros H; exact H|intros _ H; exact H].
Qed.

Lemma step_ok_trans c1 c2 c3 : step_ok c1 c2 -> step_ok c2 c3 -> step_ok c1 c3.
Proof.
  intros ((A1 & A2 & A3 & A4 & A5 & A6 & A7) & AL & AI)
         ((B1 & B2 & B3 & B4 & B5 & B6 & B7) & BL & BI).
  split; [repeat split; congruence|]. split; [intros H; apply BL, AL, H|].
  intros Hr I. apply BI; [rewrite A4; exact Hr|apply AI; assumption].
Qed.

Lemma quiet_step_ok c st : quiet c st -> step_ok c st.
Proof.
  intros (Q1 & Q2 & Q3 & Q4 & Q5 & Q6 & Q7 & Q8).
  split; [repeat split; congruence|]. split; [exact Q8|].
  intros _ I. apply (invariant_transfer c st I); try congruence.
  - apply Q8, I.
  - rewrite Q1. repeat split.
Qed.

(** New arguments with the same zoom level, in place. *)
Lemma set_args_ok c a' :
  zoom_mode a' = zoom_mode (args c) ->
  ((range_min (ranges c) <=? range_max (ranges c)) = true -> session_invariant c ->
   Dbl.gt (lattice a') 0 = true /\ in_range (ranges c) (lower a') /\
   in_range (ranges c) (upper a')) ->
  step_ok c (set_args c a').
Proof.
  intros Hz H. split; [repeat split|]. split; [intros L; exact L|].
  intros Hr I. destruct (H Hr I) as (H1 & H2 & H3).
  destruct I as (I1 & I2 & I3 & I4 & I5).
  unfold session_invariant, display_follows_zoom in *. cbv zeta in *.
  replace (args (set_args c a')) with a' by (destruct c; reflexivity).
  replace (selection (set_args c a')) with (selection c) by (destruct c; reflexivity).
  replace (ranges (set_args c a')) with (ranges c) by (destruct c; reflexivity).
  replace (disp_data (set_args c a')) with (disp_data c) by (destruct c; reflexivity).
  replace (offt (set_args c a')) with (offt c) by (destruct c; reflexivity).
  rewrite Hz.
  split; [exact I1|]. split; [exact H1|]. split; [exact H2|]. split; [exact H3|exact I5].
Qed.

(** New arguments, and the display redrawn. *)
Lemma preview_set_args_ok c a' :
  ((range_min (ranges c) <=? range_max (ranges c)) = true -> session_invariant c ->
   Dbl.gt (lattice a') 0 = true /\ in_range (ranges c) (lower a') /\
   in_range (ranges c) (upper a')) ->
  step_ok c (preview (set_args c a')).
Proof.
  intros H. destruct (preview_session (set_args c a')) as (Ha & Hs & Hk & Hd).
  split; [exact Hk|]. split; [intros L; exact L|].
  intros Hr I. destruct (H Hr I) as (H1 & H2 & H3).
  destruct I as (I1 & I2 & I3 & I4 & I5).
  unfold session_invariant. rewrite Ha.
  cbn [args set_args]. repeat split; try assumption; apply H2 || apply H3.
Qed.

Lemma args_kept_ok c :
  (range_min (ranges c) <=? range_max (ranges c)) = true -> session_invariant c ->
  Dbl.gt (lattice (args c)) 0 = true /\ in_range (ranges c) (lower (args c)) /\
  in_range (ranges c) (upper (args c)).
Proof. intros _ (I1 & I2 & I3 & I4 & I5). repeat split; assumption || apply I3 || apply I4. Qed.

Lemma preview_ok c : step_ok c (preview c).
Proof.
  rewrite <- (set_args_same c) at 2. apply preview_set_args_ok, args_kept_ok.
Qed.

Lemma lower_changed_form c value :
  threshold_lower_changed c value
  = preview (set_args c (set_lower (args c)
                                   (lower (args (threshold_lower_changed c value))))).
Proof.
  rewrite <- threshold_lower_changed_args.
  unfold threshold_lower_changed. cbv zeta. rewrite !preview_args.
  destruct (Dbl.ge _ _ && _); [reflexivity|].
  destruct (_ <? _); [reflexivity|].
  destruct (Dbl.gt _ _); [reflexivity|]. rewrite set_args_same. reflexivity.
Qed.

Lemma upper_changed_form c value :
  threshold_upper_changed c value
  = preview (set_args c (set_upper (args c)
                                   (upper (args (threshold_upper_changed c value))))).
Proof.
  rewrite <- threshold_upper_changed_args.
  unfold threshold_upper_changed. cbv zeta. rewrite !preview_args.
  destruct (Dbl.ge _ _ && _); [reflexivity|].
  destruct (_ <? _); [reflexivity|].
  destruct (Dbl.gt _ _); [reflexivity|]. rewrite set_args_same. reflexivity.
Qed.

Lemma lower_changed_ok c value : step_ok c (threshold_lower_changed c value).
Proof.
  rewrite lower_changed_form. apply preview_set_args_ok. intros Hr I.
  destruct (args_kept_ok c Hr I) as (H1 & H2 & H3).
  replace (lattice (set_lower _ _)) with (lattice (args c)) by (destruct (args c); reflexivity).
  replace (upper (set_lower _ _)) with (upper (args c)) by (destruct (args c); reflexivity).
  split; [exact H1|]. split; [|exact H3].
  replace (lower (set_lower _ _)) with (lower (args (threshold_lower_changed c value)))
    by (destruct (args c); reflexivity).
  rewrite threshold_lower_changed_lower. cbv zeta.
  apply (entry_within _ _ (value * magnitude c) (lower (args c)) Hr). exact H2.
Qed.

Lemma upper_changed_ok c value : step_ok c (threshold_upper_changed c value).
Proof.
  rewrite upper_changed_form. apply preview_set_args_ok. intros Hr I.
  destruct (args_kept_ok c Hr I) as (H1 & H2 & H3).
  replace (lattice (set_upper _ _)) with (lattice (args c)) by (destruct (args c); reflexivity).
  replace (lower (set_upper _ _)) with (lower (args c)) by (destruct (args c); reflexivity).
  split; [exact H1|]. split; [exact H2|].
  replace (upper (set_upper _ _)) with (upper (args (threshold_upper_changed c value)))
    by (destruct (args c); reflexivity).
  rewrite threshold_upper_changed_upper. cbv zeta.
  apply (entry_within _ _ (value * magnitude c) (upper (args c)) Hr). exact H3.
Qed.

Lemma set_to_range_ok c lo hi : step_ok c (threshold_set_to_range printed c lo hi).
Proof.
  unfold threshold_set_to_range. cbv zeta.
  eapply step_ok_trans; [apply lower_changed_ok|].
  eapply step_ok_trans; [apply upper_changed_ok|apply preview_ok].
Qed.

Lemma update_scales_form c :
  calibrate_update_scales c = set_args c (args (calibrate_update_scales c)).
Proof.
  unfold calibrate_update_scales. destruct (gwy_selection_is_full (selection c)).
  - apply get_factors_set_args.
  - reflexivity.
Qed.

Lemma scales_apart_ok c a' : scales_apart (args c) a' -> step_ok c (set_args c a').
Proof.
  intros (A1 & A2 & A3 & A4). apply set_args_ok; [exact A4|].
  intros Hr I. rewrite A1, A2, A3. apply args_kept_ok; assumption.
Qed.

Lemma update_scales_ok c : step_ok c (calibrate_update_scales c).
Proof. rewrite update_scales_form. apply scales_apart_ok, update_scales_session. Qed.

Lemma set_selection_ok c s :
  ((length (selection c) <= 2)%nat -> (length s <= 2)%nat) ->
  step_ok c (set_selection c s).
Proof. intros H. apply quiet_step_ok. repeat split. exact H. Qed.

Lemma reFind_Peaks_ok c st : reFind_Peaks c = Some st -> step_ok c st.
Proof.
  unfold reFind_Peaks.
  destruct (fold_left reFind_step [0; 1; 2; 3]%nat (Some (c, O))) as [[c1 n1]|] eqn:E;
    [|discriminate].
  intros H. injection H as <-. cbn [fst].
  eapply step_ok_trans; [apply quiet_step_ok, (reFind_fold_quiet _ _ _ _ _ E)|].
  apply preview_ok.
Qed.

Lemma zoom_mode_changed_ok c z st : zoom_mode_changed c z = Some st -> step_ok c st.
Proof.
  rewrite zoom_mode_changed_eq, zoom_adjust_peaks_eq. intros H.
  eapply step_ok_trans; [|eapply step_ok_trans; [|apply (reFind_Peaks_ok _ _ H)]].
  - apply preview_set_args_ok. intros Hr I.
    destruct (args_kept_ok c Hr I) as (H1 & H2 & H3).
    replace (lattice (set_zoom_mode (args c) z)) with (lattice (args c))
      by (destruct (args c); reflexivity).
    replace (lower (set_zoom_mode (args c) z)) with (lower (args c))
      by (destruct (args c); reflexivity).
    replace (upper (set_zoom_mode (args c) z)) with (upper (args c))
      by (destruct (args c); reflexivity).
    split; [exact H1|]. split; [exact H2|exact H3].
  - apply quiet_step_ok.
    apply (zoom_adjust_fold_quiet [0; 1; 2; 3]%nat
             (preview (set_args c (set_zoom_mode (args c) z)), O)).
Qed.

Lemma render_cell_ok c id idx st :
  gwy_tool_level3_render_cell c id idx = Some st -> step_ok c st.
Proof.
  unfold gwy_tool_level3_render_cell.
  destruct id; [intros H; injection H as <-; apply step_ok_refl| | |];
    (destruct (gwy_selection_get_object (selection c) idx) as [pt|];
     [|intros H; injection H as <-; apply step_ok_refl]).
  - destruct (peak_find c pt idx) as [c1|] eqn:P; [|discriminate].
    intros H. injection H as <-.
    eapply step_ok_trans; [apply quiet_step_ok, (peak_find_quiet _ _ _ _ P)|].
    apply update_scales_ok.
  - intros H. injection H as <-. apply update_scales_ok.
  - intros H. injection H as <-. apply update_scales_ok.
Qed.

Lemma lattice_changed_ok c value : step_ok c (threshold_lattice_changed c value).
Proof.
  unfold threshold_lattice_changed. cbv zeta.
  destruct (Dbl.gt (value * magnitude c) 0) eqn:E; [|apply step_ok_refl].
  eapply step_ok_trans; [|apply update_scales_ok].
  apply set_args_ok; [destruct (args c); reflexivity|].
  intros Hr I. destruct (args_kept_ok c Hr I) as (H1 & H2 & H3).
  replace (lattice (set_lattice (args c) (value * magnitude c)))
    with (value * magnitude c) by (destruct (args c); reflexivity).
  replace (lower (set_lattice (args c) (value * magnitude c))) with (lower (args c))
    by (destruct (args c); reflexivity).
  replace (upper (set_lattice (args c) (value * magnitude c))) with (upper (args c))
    by (destruct (args c); reflexivity).
  split; [exact E|]. split; [exact H2|exact H3].
Qed.

Lemma dialog_callback_ok c cb st :
  dialog_callback printed c cb = Some st -> step_ok c st.
Proof.
  destruct cb; cbn [dialog_callback]; intros H;
    try (injection H as <-).
  - apply lower_changed_ok.
  - apply upper_changed_ok.
  - apply set_to_range_ok.
  - unfold clear_points.
    eapply step_ok_trans; [|apply update_scales_ok].
    apply set_selection_ok. intros _. cbn. lia.
  - apply quiet_step_ok. repeat split. intros L; exact L.
  - apply lattice_changed_ok.
  - destruct (xscale_changed_cases c num) as [->| ->];
      [apply step_ok_refl|apply scales_apart_ok, scales_apart_Xscale].
  - destruct (yscale_changed_cases c num) as [->| ->];
      [apply step_ok_refl|apply scales_apart_ok, scales_apart_Yscale].
  - apply (zoom_mode_changed_ok _ _ _ H).
  - apply set_selection_ok. apply set_object_length.
  - apply (render_cell_ok _ _ _ _ H).
Qed.

Lemma dialog_run_ok cbs : forall c st,
  dialog_run printed c cbs = Some st -> step_ok c st.
Proof.
  unfold dialog_run. induction cbs as [|cb cbs IH]; intros c st H.
  - injection H as <-. apply step_ok_refl.
  - cbn [fold_left] in H.
    destruct (dialog_callback printed c cb) as [c1|] eqn:E.
    + eapply step_ok_trans; [apply (dialog_callback_ok _ _ _ E)|apply (IH _ _ H)].
    + assert (N : fold_left (fun acc cb0 => c0 <- acc;; dialog_callback printed c0 cb0)
                            cbs None = None)
        by (clear; induction cbs; [reflexivity|assumption]).
      rewrite N in H. discriminate.
Qed.

(** X17: whatever the user does in the dialog, in whatever order, the
    original image, the spectrum, the data range, the magnitude of the
    value format and the resolution of the display are never changed, and
    a selection of at most two points never grows beyond two. *)
Theorem X17_session_data_never_change :
  forall (controls : ThresholdControls) (cbs : list Callback) (st : ThresholdControls),
    dialog_run printed controls cbs = Some st ->
    session_data_kept controls st /\
    ((length (selection controls) <= 2)%nat -> (length (selection st) <= 2)%nat).
Proof.
  intros controls cbs st H. destruct (dialog_run_ok cbs controls st H) as (K & L & _).
  split; assumption.
Qed.

(** X18: over a data range with [min <= max], a session that starts with
    at most two points, a positive lattice constant, clamp bounds inside
    the data range and a display that follows the zoom level keeps all
    four through every callback of the dialog. *)
Theorem X18_session_invariant :
  forall (controls : ThresholdControls) (cbs : list Callback) (st : ThresholdControls),
    (range_min (ranges controls) <=? range_max (ranges controls)) = true ->
    session_invariant controls ->
    dialog_run printed controls cbs = Some st ->
    session_invariant st.
Proof.
  intros controls cbs st Hr I H.
  destruct (dialog_run_ok cbs controls st H) as (_ & _ & P). apply P; assumption.
Qed.

End SessionFacts.

(** ** The Full Range button *)

Section ButtonFacts.
Local Open Scope float_scope.
Context {lib : GwyLib}.
Variable printed : float -> float.

(** A sample inside a range with [lo <= hi] passes [threshold_do] with the
    bounds [lo] and [hi] unchanged. *)
Lemma clamp_in_range lo hi x :
  (lo <=? hi) = true -> (lo <=? x) = true -> (x <=? hi) = true ->
  clamp_sample (MIN lo hi) (MAX lo hi) x = x.
Proof.
  intros Hr H1 H2. apply clamp_sample_fixed.
  - unfold MIN. destruct (lo <? hi) eqn:E; [apply leb_not_ltb, H1|].
    destruct (cmp_true_not_nan lo hi (or_intror Hr)) as (Nlo & Nhi).
    apply leb_not_ltb. apply (leb_trans hi lo x); [|exact H1].
    apply not_ltb_leb; assumption.
  - unfold MAX, Dbl.gt. rewrite (leb_not_ltb lo hi Hr). apply leb_not_ltb, H2.
Qed.

Lemma preview_view controls :
  data (view (preview controls))
  = map (clamp_sample (MIN (lower (args controls)) (upper (args controls)))
                      (MAX (lower (args controls)) (upper (args controls))))
        (data (disp_data (preview controls))).
Proof. reflexivity. Qed.

Lemma lower_changed_kept c value :
  ranges (threshold_lower_changed c value) = ranges c /\
  magnitude (threshold_lower_changed c value) = magnitude c.
Proof. rewrite lower_changed_form. split; reflexivity. Qed.

(** The stages of [threshold_set_to_range], named, for entries that read
    back as the two ends of the data range. *)
Lemma set_to_range_stages controls v1 v2 c1 c2 st :
  let lo := range_min (ranges controls) in
  let hi := range_max (ranges controls) in
  c1 = threshold_lower_changed controls v1 ->
  c2 = threshold_upper_changed c1 v2 ->
  st = preview c2 ->
  (lo <=? hi) = true ->
  v1 * magnitude controls = lo ->
  v2 * magnitude controls = hi ->
  lower (args st) = lo /\ upper (args st) = hi /\
  (Forall (in_range (ranges controls)) (data (disp_data st)) ->
   data (view st) = data (disp_data st)).
Proof.
  intros lo hi Hc1 Hc2 Hst Hr Plo Phi.
  destruct (cmp_true_not_nan lo hi (or_intror Hr)) as (Nlo & Nhi).
  assert (L1 : lower (args c1) = lo).
  { rewrite Hc1, threshold_lower_changed_lower. cbv zeta. fold lo hi.
    rewrite Plo. unfold Dbl.ge. rewrite (leb_refl lo Nlo), Hr. reflexivity. }
  destruct (lower_changed_kept controls v1) as (R1 & M1). rewrite <- Hc1 in R1, M1.
  assert (U2 : upper (args c2) = hi).
  { rewrite Hc2, threshold_upper_changed_upper. cbv zeta. rewrite R1, M1.
    fold lo hi. rewrite Phi. unfold Dbl.ge. rewrite Hr, (leb_refl hi Nhi). reflexivity. }
  assert (L2 : lower (args c2) = lo).
  { rewrite Hc2, threshold_upper_changed_args.
    replace (lower (set_upper (args c1) _)) with (lower (args c1))
      by (destruct (args c1); reflexivity).
    exact L1. }
  rewrite Hst, preview_args. split; [exact L2|]. split; [exact U2|].
  intros Hin. rewrite preview_view, L2, U2.
  rewrite <- (map_id (data (disp_data (preview c2)))) at 2.
  apply map_ext_in. intros x Hx. rewrite Forall_forall in Hin.
  destruct (Hin x Hx) as (H1 & H2). apply clamp_in_range; assumption.
Qed.

Lemma set_to_full_range_eq controls :
  threshold_set_to_full_range printed controls
  = preview
      (threshold_upper_changed
         (threshold_lower_changed
            controls (printed (range_min (ranges controls) / magnitude controls)))
         (printed (range_max (ranges controls)
                   / magnitude
                       (threshold_lower_changed
                          controls
                          (printed (range_min (ranges controls) / magnitude controls)))))).
Proof. reflexivity. Qed.

(** X19: Set to Full Range, when the text of both entries reads back as
    the bound it was made from, stores the minimum and the maximum of the
    data range as the clamp bounds; display samples inside the data range
    are then shown as they are. *)
Theorem X19_full_range_shows_all :
  forall controls : ThresholdControls,
    let lo := range_min (ranges controls) in
    let hi := range_max (ranges controls) in
    let m := magnitude controls in
    let st := threshold_set_to_full_range printed controls in
    (lo <=? hi) = true ->
    printed (lo / m) * m = lo ->
    printed (hi / m) * m = hi ->
    lower (args st) = lo /\ upper (args st) = hi /\
    (Forall (in_range (ranges controls)) (data (disp_data st)) ->
     data (view st) = data (disp_data st)).
Proof.
  intros controls. cbv zeta. intros Hr Plo Phi.
  rewrite set_to_full_range_eq.
  destruct (lower_changed_kept
              controls (printed (range_min (ranges controls) / magnitude controls)))
    as (_ & M1).
  rewrite M1.
  exact (set_to_range_stages
           controls
           (printed (range_min (ranges controls) / magnitude controls))
           (printed (range_max (ranges controls) / magnitude controls))
           _ _ _ eq_refl eq_refl eq_refl Hr Plo Phi).
Qed.

End ButtonFacts.


(** ** The zoom without points *)

Section ZoomFacts.
Local Open Scope float_scope.
Context {lib : GwyLib}.

Lemma reFind_Peaks_no_points controls :
  selection controls = [] -> reFind_Peaks controls = Some (preview controls).
Proof.
  intros H. unfold reFind_Peaks. cbn [fold_left].
  rewrite !reFind_skip_from by (rewrite H; cbn; lia). reflexivity.
Qed.

Lemma zoom_adjust_no_points controls :
  selection controls = [] ->
  fst (fold_left zoom_adjust_step [0; 1; 2; 3]%nat (controls, O)) = controls.
Proof.
  intros H.
  assert (S : forall n i, zoom_adjust_step (controls, n) i = (controls, n)).
  { intros n i. unfold zoom_adjust_step, gwy_selection_get_object. cbn [fst snd].
    rewrite H. destruct i; reflexivity. }
  cbn [fold_left]. rewrite !S. reflexivity.
Qed.

(** X20: with no point selected a change of the zoom level cannot fail
    and only redraws the display at the new level; the second drawing at
    the end of the re-mapping changes nothing. *)
Theorem X20_zoom_without_points :
  forall (controls : ThresholdControls) (z : ZoomMode),
    selection controls = [] ->
    zoom_mode_changed controls z
    = Some (preview (set_args controls (set_zoom_mode (args controls) z))).
Proof.
  intros controls z H. rewrite zoom_mode_changed_eq, zoom_adjust_peaks_eq.
  set (c1 := preview (set_args controls (set_zoom_mode (args controls) z))).
  assert (H1 : selection c1 = []) by exact H.
  rewrite (zoom_adjust_no_points c1 H1), (reFind_Peaks_no_points c1 H1).
  unfold c1. rewrite preview_twice. reflexivity.
Qed.

End ZoomFacts.

(** ** The peak table and the search radius *)

Section TableFacts.
Local Open Scope float_scope.

Lemma update_scales_peaks controls :
  p0 (calibrate_update_scales controls) = p0 controls /\
  p1 (calibrate_update_scales controls) = p1 controls.
Proof. rewrite update_scales_form. split; reflexivity. Qed.

(** The scale factors after the scale update, by the number of points. *)
Lemma update_scales_values controls :
  let st := calibrate_update_scales controls in
  let x1 := peak_x (p0 st) in
  let y1 := peak_y (p0 st) in
  let x2 := peak_x (p1 st) in
  let y2 := peak_y (p1 st) in
  (gwy_selection_is_full (selection st) = true ->
   Xscale (args st) = 1 / Spec.xcorr x1 y1 x2 y2 (lattice (args st)) /\
   Yscale (args st) = 1 / Spec.ycorr x1 y1 x2 y2 (lattice (args st))) /\
  (gwy_selection_is_full (selection st) = false ->
   Xscale (args st) = 0 /\ Yscale (args st) = 0 /\
   Xwarning (args st) = false /\ Ywarning (args st) = false).
Proof.
  cbv zeta. destruct (update_scales_peaks controls) as (-> & ->).
  rewrite update_scales_lattice.
  replace (selection (calibrate_update_scales controls)) with (selection controls)
    by (symmetry; apply update_scales_session).
  unfold calibrate_update_scales.
  destruct (gwy_selection_is_full (selection controls)).
  - split; [intros _|discriminate].
    destruct (get_factors_fields controls) as (HX & HY & _). split; assumption.
  - split; [discriminate|intros _].
    destruct (args controls); repeat split.
Qed.

(** X21: after an X, Y or Z cell of a row that holds a point has been
    rendered, the stored scale factors agree with the stored peaks: with
    two points selected they are the Lattice Solver's values for the two
    rows of [p] and the lattice constant of the session, otherwise both
    are 0 and both warnings are off. *)
Theorem X21_table_keeps_scales_current :
  forall (controls : ThresholdControls) (id : Column) (idx : nat)
         (st : ThresholdControls),
    id <> COLUMN_I ->
    (idx < length (selection controls))%nat ->
    gwy_tool_level3_render_cell controls id idx = Some st ->
    let x1 := peak_x (p0 st) in
    let y1 := peak_y (p0 st) in
    let x2 := peak_x (p1 st) in
    let y2 := peak_y (p1 st) in
    (gwy_selection_is_full (selection st) = true ->
     Xscale (args st) = 1 / Spec.xcorr x1 y1 x2 y2 (lattice (args st)) /\
     Yscale (args st) = 1 / Spec.ycorr x1 y1 x2 y2 (lattice (args st))) /\
    (gwy_selection_is_full (selection st) = false ->
     Xscale (args st) = 0 /\ Yscale (args st) = 0 /\
     Xwarning (args st) = false /\ Ywarning (args st) = false).
Proof.
  intros controls id idx st Hid Hidx. unfold gwy_tool_level3_render_cell.
  destruct (gwy_selection_get_object (selection controls) idx) as [pt|] eqn:G.
  2:{ apply nth_error_None in G. lia. }
  destruct id; [congruence| | |].
  - destruct (peak_find controls pt idx) as [c1|]; [|discriminate].
    intros H. injection H as <-. apply update_scales_values.
  - intros H. injection H as <-. apply update_scales_values.
  - intros H. injection H as <-. apply update_scales_values.
Qed.

End TableFacts.

Section RadiusFacts.
Local Open Scope Z_scope.

(** X22: a search radius that is zero or negative (the radius read from
    the settings is not checked) makes both loops of the Peak Locator
    empty: only the pixel of the point is looked at. *)
Theorem X22_radius_not_positive :
  forall (d : GwyDataField) (col row r : Z),
    r <= 0 ->
    peak_scan d col row r = mkBest col row (gwy_data_field_get_val d col row) /\
    peak_scan d col row r = peak_scan d col row 0.
Proof.
  intros d col row r Hr.
  assert (E : forall r', r' <= 0 ->
                peak_scan d col row r'
                = mkBest col row (gwy_data_field_get_val d col row)).
  { intros r' Hr'. unfold peak_scan. cbv zeta. rewrite !clamp_lo, !clamp_hi.
    rewrite (Zrange_nil (Spec.window_lo col r') (Spec.window_hi col r' (xres d)))
      by (unfold Spec.window_lo, Spec.window_hi; lia).
    reflexivity. }
  split; [apply E, Hr|]. rewrite (E r Hr), (E 0) by lia. reflexivity.
Qed.

(** X23: when the search window reaches over the whole display (the
    radius is at least the distance from the start pixel to each border)
    and the four sums of the pixel and the radius stay inside the [gint]
    range, so that the code computes them without overflow, the peak found
    is a maximum of the whole display: no sample of the raster exceeds
    it. *)
Theorem X23_radius_covering_display :
  forall (d : GwyDataField) (col row r : Z),
    Dbl.INT_MIN <= col - r <= 0 -> xres d <= col + r <= Dbl.INT_MAX ->
    Dbl.INT_MIN <= row - r <= 0 -> yres d <= row + r <= Dbl.INT_MAX ->
    let b := peak_scan d col row r in
    forall i j, gwy_data_field_inside d i j = true ->
                Dbl.gt (gwy_data_field_get_val d i j) (temp_z b) = false.
Proof.
  intros d col row r (_ & H1) (H2 & _) (_ & H3) (H4 & _) b i j Hin.
  pose proof (first_maximum_spec d (col, row) (Spec.cells_column_major d col row r)) as S.
  cbv zeta in S. rewrite <- peak_scan_column_major in S. fold b in S.
  destruct S as (_ & _ & _ & _ & Hmax).
  apply (Hmax (i, j)). right. apply in_cells_column_major.
  unfold gwy_data_field_inside in Hin.
  apply andb_prop in Hin as (Hin & Hj2). apply andb_prop in Hin as (Hin & Hj1).
  apply andb_prop in Hin as (Hi1 & Hi2).
  apply Z.leb_le in Hi1, Hj1. apply Z.ltb_lt in Hi2, Hj2.
  unfold Spec.in_window, Spec.window_lo, Spec.window_hi. cbn [fst snd]. lia.
Qed.

End RadiusFacts.

(** ** Further examples for the module *)

Section FurtherExamples.
Local Open Scope float_scope.
#[local] Existing Instance Sample.plain_lib.

Lemma X2_settings_witness :
  rpx (calibrate_hcp Run.mistyped Sample.small_image 1 Run.no_peak Run.no_peak) = 3%Z /\
  threshold_load_args Run.mistyped 7 = (threshold_defaults, 7%Z).
Proof.
  destruct (X2_settings_missing_keys
              Run.mistyped Sample.small_image 1 Run.no_peak Run.no_peak
              ltac:(intros v H; vm_compute in H; discriminate H)
              ltac:(intros v H; vm_compute in H; discriminate H)
              ltac:(intros v H; vm_compute in H; discriminate H)
              ltac:(intros n H; vm_compute in H; discriminate H))
    as (L & _ & R).
  split; [exact R|apply L].
Defined.

Lemma X5_preview_zoom_1_witness :
  zoom_mode (args Sample.clamped) = ZOOM_1 /\
  disp_data (preview Sample.clamped) = offt Sample.clamped.
Proof.
  split; [reflexivity|].
  exact (proj1 (X5_preview_zoom_1 Sample.clamped eq_refl eq_refl eq_refl)).
Defined.

Lemma X6_preview_zoom_2_witness :
  zoom_mode (args Sample.zoomed) = ZOOM_2 /\
  (1 <= xres (offt Sample.zoomed))%Z /\ (1 <= yres (offt Sample.zoomed))%Z /\
  (Z.quot (4 - Z.lor (Z.quot 4 2) 1) 2 + Z.lor (Z.quot 4 2) 1 <= 4)%Z.
Proof.
  assert (Hz : zoom_mode (args Sample.zoomed) = ZOOM_2) by reflexivity.
  assert (Hx : (1 <= xres (offt Sample.zoomed))%Z) by (cbn; lia).
  assert (Hy : (1 <= yres (offt Sample.zoomed))%Z) by (cbn; lia).
  split; [exact Hz|]. split; [exact Hx|]. split; [exact Hy|].
  destruct (X6_preview_zoom_2_window Sample.zoomed Hz Hx Hy) as (_ & (_ & _ & H & _) & _).
  exact H.
Defined.

Lemma X7_clamp_bounds_witness :
  (range_min (ranges Sample.clamped) <=? range_max (ranges Sample.clamped)) = true /\
  is_nan (12 * magnitude Sample.clamped) = false /\
  (range_min (ranges Sample.clamped)
   <=? lower (args (threshold_lower_changed Sample.clamped 12))) = true /\
  (lower (args (threshold_lower_changed Sample.clamped 12))
   <=? range_max (ranges Sample.clamped)) = true.
Proof.
  assert (Hr : (range_min (ranges Sample.clamped)
                <=? range_max (ranges Sample.clamped)) = true) by reflexivity.
  assert (Hn : is_nan (12 * magnitude Sample.clamped) = false) by reflexivity.
  split; [exact Hr|]. split; [exact Hn|].
  destruct (X7_clamp_bounds_stay_in_range Sample.clamped 12 Hr) as (_ & _ & H & _).
  exact (proj1 (H Hn)).
Defined.

Lemma X8_lattice_entry_witness :
  Dbl.gt (2 * magnitude Sample.one_point) 0 = true /\
  gwy_selection_is_full (selection Sample.one_point) = false /\
  lattice (args (threshold_lattice_changed Sample.one_point 2)) = 2 /\
  Xscale (args (threshold_lattice_changed Sample.one_point 2)) = 0 /\
  threshold_lattice_changed Sample.one_point (-1) = Sample.one_point.
Proof.
  assert (Hp : Dbl.gt (2 * magnitude Sample.one_point) 0 = true) by reflexivity.
  assert (Hf : gwy_selection_is_full (selection Sample.one_point) = false) by reflexivity.
  split; [exact Hp|]. split; [exact Hf|].
  destruct (X8_lattice_entry Sample.one_point 2) as (_ & H & _).
  destruct (H Hp) as (HL & _ & H0).
  split; [exact HL|]. split; [exact (proj1 (H0 Hf))|].
  exact (proj1 (X8_lattice_entry Sample.one_point (-1)) eq_refl).
Defined.

Lemma X9_render_overwrites_witness :
  (0 < length (selection Sample.triangle))%nat /\
  gwy_tool_level3_render_cell (xscale_changed Sample.triangle 5) COLUMN_Y 0
  = gwy_tool_level3_render_cell Sample.triangle COLUMN_Y 0.
Proof.
  assert (H : (0 < length (selection Sample.triangle))%nat) by (cbn; lia).
  split; [exact H|].
  exact (proj1 (X9_render_overwrites_manual_scale
                  Sample.triangle 5 COLUMN_Y 0 ltac:(discriminate) H)).
Defined.

Lemma X10_ok_after_reset_witness :
  (length (selection Sample.one_point) < 2)%nat /\
  dialog_response_ok (calibrate_update_scales Sample.one_point) = None.
Proof.
  assert (H : (length (selection Sample.one_point) < 2)%nat) by (cbn; lia).
  split; [exact H|].
  exact (proj1 (X10_ok_after_reset Sample.one_point H)).
Defined.

Lemma X11_dialog_start_witness :
  data (offt Run.started) = [2; 3; 0; 4] /\
  (range_min (ranges Run.started) =? 0) = true /\
  (range_min (ranges Run.started) <=? range_max (ranges Run.started)) = true.
Proof.
  assert (Hfin : Forall (fun x => Dbl.finite x = true) [3; 4; 1; 5])
    by (repeat constructor).
  destruct (X11_dialog_start (lib := Sample.plain_lib)
                             [] Sample.small_image 1 Run.no_peak Run.no_peak
                             ltac:(discriminate) Hfin)
    as (_ & H0 & Hle & _).
  split; [reflexivity|]. split; [exact H0|exact Hle].
Defined.

Lemma X12_ok_at_once_witness :
  (1 <= xres Sample.small_image <= Dbl.INT_MAX)%Z /\
  (1 <= yres Sample.small_image <= Dbl.INT_MAX)%Z /\
  dialog_response_ok Run.started = Some (Some Sample.small_image).
Proof.
  assert (Hx : (1 <= xres Sample.small_image <= Dbl.INT_MAX)%Z)
    by (cbn; unfold Dbl.INT_MAX; lia).
  assert (Hy : (1 <= yres Sample.small_image <= Dbl.INT_MAX)%Z)
    by (cbn; unfold Dbl.INT_MAX; lia).
  split; [exact Hx|]. split; [exact Hy|].
  exact (proj1 (X12_ok_at_once_copies [] Sample.small_image 1 Run.no_peak Run.no_peak
                                      Hx Hy)).
Defined.

Lemma X13_refine_at_maximum_witness :
  rpx Sample.clamped = 3%Z /\
  exists st : ThresholdControls,
    peak_find Sample.clamped (2, 2) 0 = Some st /\
    selection st = selection Sample.clamped /\
    peak_find st (2, 2) 0 = Some st.
Proof.
  split; [reflexivity|].
  assert (Hflat : forall cell,
             Spec.in_window (disp_data Sample.clamped) 1 1 (rpx Sample.clamped) cell ->
             Dbl.gt (Spec.sample (disp_data Sample.clamped) cell)
                    (gwy_data_field_get_val (disp_data Sample.clamped) 1 1) = false).
  { intros [i j] _. unfold Spec.sample, gwy_data_field_get_val. cbn [fst snd].
    destruct (gwy_data_field_inside (disp_data Sample.clamped) i j); [|reflexivity].
    change (data (disp_data Sample.clamped)) with (repeat 0 16).
    rewrite nth_repeat. reflexivity. }
  destruct (X13_refine_at_maximum Sample.clamped (2, 2) 0 1 1 eq_refl eq_refl Hflat)
    as (st & H1 & _ & H2 & H3).
  exists st. repeat split; assumption.
Defined.

Lemma X14_refined_pixel_witness :
  gwy_data_field_inside Sample.two_peaks 1 1 = true /\
  gwy_data_field_inside Sample.two_peaks
                        (temp_i (peak_scan Sample.two_peaks 1 1 1))
                        (temp_j (peak_scan Sample.two_peaks 1 1 1)) = true.
Proof.
  split; [reflexivity|].
  exact (proj1 (X14_refined_pixel_inside Sample.two_peaks 1 1 1 eq_refl)).
Defined.

Lemma X16_same_peak_twice_witness :
  peak_x (p0 Run.twice) = peak_x (p1 Run.twice) /\
  peak_y (p0 Run.twice) = peak_y (p1 Run.twice) /\
  Xwarning (args (calibration_get_factors Run.twice)) = true /\
  Ywarning (args (calibration_get_factors Run.twice)) = true.
Proof.
  split; [reflexivity|]. split; [reflexivity|].
  exact (proj2 (X16_same_peak_twice_warns Run.twice) eq_refl eq_refl).
Defined.

Lemma X17_session_data_witness :
  exists st, dialog_run Run.exact Sample.clamped Run.clicks = Some st /\
             ofield st = ofield Sample.clamped /\ offt st = offt Sample.clamped.
Proof.
  destruct (dialog_run Run.exact Sample.clamped Run.clicks) as [st|] eqn:E;
    [|vm_compute in E; discriminate E].
  exists st. split; [reflexivity|].
  destruct (X17_session_data_never_change Run.exact Sample.clamped Run.clicks st E)
    as ((H1 & H2 & _) & _).
  split; assumption.
Defined.

Lemma X18_session_invariant_witness :
  (range_min (ranges Sample.clamped) <=? range_max (ranges Sample.clamped)) = true /\
  session_invariant Sample.clamped /\
  exists st, dialog_run Run.exact Sample.clamped Run.clicks = Some st /\
             session_invariant st.
Proof.
  assert (Hr : (range_min (ranges Sample.clamped)
                <=? range_max (ranges Sample.clamped)) = true) by reflexivity.
  assert (I : session_invariant Sample.clamped).
  { split; [cbn; lia|]. repeat split. }
  split; [exact Hr|]. split; [exact I|].
  destruct (dialog_run Run.exact Sample.clamped Run.clicks) as [st|] eqn:E;
    [|vm_compute in E; discriminate E].
  exists st. split; [reflexivity|].
  exact (X18_session_invariant Run.exact Sample.clamped Run.clicks st Hr I E).
Defined.

Lemma X19_full_range_witness :
  (range_min (ranges Sample.clamped) <=? range_max (ranges Sample.clamped)) = true /\
  lower (args (threshold_set_to_full_range Run.exact Sample.clamped)) = 0 /\
  upper (args (threshold_set_to_full_range Run.exact Sample.clamped)) = 10.
Proof.
  assert (Hr : (range_min (ranges Sample.clamped)
                <=? range_max (ranges Sample.clamped)) = true) by reflexivity.
  split; [exact Hr|].
  destruct (X19_full_range_shows_all Run.exact Sample.clamped Hr eq_refl eq_refl)
    as (H1 & H2 & _).
  split; assumption.
Defined.

Lemma X20_zoom_without_points_witness :
  selection Sample.clamped = [] /\
  zoom_mode_changed Sample.clamped ZOOM_2
  = Some (preview (set_args Sample.clamped
                            (set_zoom_mode (args Sample.clamped) ZOOM_2))).
Proof.
  split; [reflexivity|].
  exact (X20_zoom_without_points Sample.clamped ZOOM_2 eq_refl).
Defined.

Lemma X21_table_keeps_scales_witness :
  (0 < length (selection Sample.one_point))%nat /\
  exists st, gwy_tool_level3_render_cell Sample.one_point COLUMN_Y 0 = Some st /\
             Xscale (args st) = 0 /\ Yscale (args st) = 0.
Proof.
  assert (H : (0 < length (selection Sample.one_point))%nat) by (cbn; lia).
  split; [exact H|].
  destruct (gwy_tool_level3_render_cell Sample.one_point COLUMN_Y 0) as [st|] eqn:E;
    [|vm_compute in E; discriminate E].
  exists st. split; [reflexivity|].
  destruct (X21_table_keeps_scales_current Sample.one_point COLUMN_Y 0 st
              ltac:(discriminate) H E) as (_ & H0).
  assert (F : gwy_selection_is_full (selection st) = false).
  { vm_compute in E. injection E as <-. reflexivity. }
  destruct (H0 F) as (HX & HY & _). split; assumption.
Defined.

Lemma X22_radius_not_positive_witness :
  (-2 <= 0)%Z /\
  peak_scan Sample.two_peaks 1 1 (-2) = mkBest 1 1 0.
Proof.
  assert (H : (-2 <= 0)%Z) by lia.
  split; [exact H|].
  exact (proj1 (X22_radius_not_positive Sample.two_peaks 1 1 (-2) H)).
Defined.

Lemma X23_radius_covering_witness :
  (Dbl.INT_MIN <= 1 - 3 <= 0)%Z /\
  (xres Sample.two_peaks <= 1 + 3 <= Dbl.INT_MAX)%Z /\
  Dbl.gt (gwy_data_field_get_val Sample.two_peaks 1 0)
         (temp_z (peak_scan Sample.two_peaks 1 1 3)) = false.
Proof.
  assert (H1 : (Dbl.INT_MIN <= 1 - 3 <= 0)%Z) by (unfold Dbl.INT_MIN; lia).
  assert (H2 : (xres Sample.two_peaks <= 1 + 3 <= Dbl.INT_MAX)%Z)
    by (cbn; unfold Dbl.INT_MAX; lia).
  assert (H3 : (yres Sample.two_peaks <= 1 + 3 <= Dbl.INT_MAX)%Z)
    by (cbn; unfold Dbl.INT_MAX; lia).
  split; [exact H1|]. split; [exact H2|].
  exact (X23_radius_covering_display Sample.two_peaks 1 1 3 H1 H2 H1 H3 1 0 eq_refl).
Defined.

End FurtherExamples.
